(** * Noted browser extension: the popup's link-state logic

    A shallow embedding of the connection-state code of the popup script
    ([NotedPopup], in its localhost and its hosted build) and the
    properties of the linkage reconciliation that the specification states
    about it, followed by the rest of the extension: the content script, the
    settings, the summarize action and the background worker.  The older
    [SummarizeItPopup] class is outside its scope.

    Conventions.
    - JavaScript strings are [string]s: sequences of code units below 256,
      which is the domain on which [btoa] is defined.
    - [chrome.storage.sync] and [chrome.storage.local] are finite maps from
      key names to stored values.
    - The remote world (backend replies, the background worker's reply, the
      canvas fingerprint, the clock) is an [Env] read by each call.
    - An [async] method becomes a function from the popup state to the popup
      state (and a result, when it has one).  A method runs to completion
      before the next one starts, and storage requests are served in the
      order in which they are issued.  The callbacks of the two intervals
      are kept firing by firing, with the firings that are suspended.
    - Labels and messages are kept as the bytes of their UTF-8 text. *)

From Stdlib Require Import ZArith NArith Ascii String.
From stdpp Require Import base strings gmap list.

Local Open Scope string_scope.

(** ** Strings *)

Module Base64.

Definition alphabet : string :=
  "ABCDEFGHIJKLMNOPQRSTUVWXYZabcdefghijklmnopqrstuvwxyz0123456789+/".

Definition digit (n : N) : ascii :=
  default "="%char (String.get (N.to_nat n) alphabet).

(** Three input bytes packed into 24 bits. *)
Definition triple (a b c : ascii) : N :=
  N.lor (N.shiftl (N_of_ascii a) 16)
        (N.lor (N.shiftl (N_of_ascii b) 8) (N_of_ascii c)).

(** The [k]-th group of six bits of a packed triple, as a digit. *)
Definition sextet (t k : N) : ascii :=
  digit (N.land (N.shiftr t (6 * k)) 63).

Fixpoint encode (l : list ascii) : list ascii :=
  match l with
  | [] => []
  | [a] =>
      let t := triple a zero zero in
      [sextet t 3; sextet t 2; "="%char; "="%char]
  | [a; b] =>
      let t := triple a b zero in
      [sextet t 3; sextet t 2; sextet t 1; "="%char]
  | a :: b :: c :: rest =>
      let t := triple a b c in
      sextet t 3 :: sextet t 2 :: sextet t 1 :: sextet t 0 :: encode rest
  end.

(** [window.btoa] on a string of code units below 256. *)
Definition btoa (s : string) : string :=
  string_of_list_ascii (encode (list_ascii_of_string s)).

End Base64.

(** Code units that [String.prototype.trim] strips, among those below 256:
    TAB, LF, VT, FF, CR, SPACE and NBSP. *)
Definition is_space (c : ascii) : bool :=
  let n := nat_of_ascii c in
  ((9 <=? n)%nat && (n <=? 13)%nat) || (n =? 32)%nat || (n =? 160)%nat.

(** [s.trim()] is the empty string. *)
Definition blank (s : string) : bool :=
  forallb is_space (list_ascii_of_string s).

(** ** Stored values *)

Inductive value :=
| VStr (s : string)
| VBool (b : bool)
| VNum (n : Z).

(** A truthy string read back from storage.  The identifier key is only ever
    written with a string ([setNotionUserId], [checkForMissedOAuth]); any
    other value under it is read as absent. *)
Definition stored_string (o : option value) : option string :=
  match o with
  | Some (VStr s) => if String.eqb s "" then None else Some s
  | _ => None
  end.

(** [chrome.storage.*.remove(keys)]. *)
Definition remove_keys (keys : list string) (m : gmap string value)
  : gmap string value :=
  foldr delete m keys.

(** ** The popup state *)

(** The two builds of the popup script. *)
Inductive variant := Local | Vercel.

Inductive msgType := error | success | info.

(** A button: its label, its [disabled] property and its [classList]. *)
Record Button := {
  textContent : string;
  disabled : bool;
  classList : gset string;
}.

(** The part of the document that the connection logic reads and writes.
    Styling ([style.display] of the status line and of the refresh button)
    and the save-settings button are left out. *)
Record Dom := {
  statusClass : gset string;       (* #status className, as its tokens *)
  wasConnected : bool;             (* #status data-was-connected is 'true' *)
  connectNotion : Button;          (* #connectNotion *)
  summarizeBtn : bool;             (* #summarizeBtn disabled *)
  openaiKey : string;              (* #openaiKey value *)
  banner : option (msgType * string);  (* the message element on display *)
}.

(** Callbacks handed to [setTimeout] that have not run yet. *)
Inductive deferred := DeferredCheckNotionConnection.

(** Messages sent to the background worker. *)
Inductive bgMessage := clearOAuthState | startOAuth.

Record Popup := {
  userId : option string;          (* this.userId *)
  backendConnected : bool;         (* this.backendConnected *)
  sync : gmap string value;        (* chrome.storage.sync *)
  localStore : gmap string value;  (* chrome.storage.local *)
  ui : Dom;
  timers : list deferred;
  outbox : list bgMessage;
}.

Definition set_userId (u : option string) (p : Popup) : Popup :=
  {| userId := u; backendConnected := backendConnected p; sync := sync p;
     localStore := localStore p; ui := ui p; timers := timers p;
     outbox := outbox p |}.

Definition set_backendConnected (b : bool) (p : Popup) : Popup :=
  {| userId := userId p; backendConnected := b; sync := sync p;
     localStore := localStore p; ui := ui p; timers := timers p;
     outbox := outbox p |}.

Definition set_sync (m : gmap string value) (p : Popup) : Popup :=
  {| userId := userId p; backendConnected := backendConnected p; sync := m;
     localStore := localStore p; ui := ui p; timers := timers p;
     outbox := outbox p |}.

Definition set_localStore (m : gmap string value) (p : Popup) : Popup :=
  {| userId := userId p; backendConnected := backendConnected p;
     sync := sync p; localStore := m; ui := ui p; timers := timers p;
     outbox := outbox p |}.

Definition set_ui (d : Dom) (p : Popup) : Popup :=
  {| userId := userId p; backendConnected := backendConnected p;
     sync := sync p; localStore := localStore p; ui := d;
     timers := timers p; outbox := outbox p |}.

Definition defer (t : deferred) (p : Popup) : Popup :=
  {| userId := userId p; backendConnected := backendConnected p;
     sync := sync p; localStore := localStore p; ui := ui p;
     timers := timers p ++ [t]; outbox := outbox p |}.

Definition sendMessage (m : bgMessage) (p : Popup) : Popup :=
  {| userId := userId p; backendConnected := backendConnected p;
     sync := sync p; localStore := localStore p; ui := ui p;
     timers := timers p; outbox := outbox p ++ [m] |}.

Definition set_statusClass (c : gset string) (d : Dom) : Dom :=
  {| statusClass := c; wasConnected := wasConnected d;
     connectNotion := connectNotion d; summarizeBtn := summarizeBtn d;
     openaiKey := openaiKey d; banner := banner d |}.

Definition set_wasConnected (b : bool) (d : Dom) : Dom :=
  {| statusClass := statusClass d; wasConnected := b;
     connectNotion := connectNotion d; summarizeBtn := summarizeBtn d;
     openaiKey := openaiKey d; banner := banner d |}.

Definition set_connectNotion (b : Button) (d : Dom) : Dom :=
  {| statusClass := statusClass d; wasConnected := wasConnected d;
     connectNotion := b; summarizeBtn := summarizeBtn d;
     openaiKey := openaiKey d; banner := banner d |}.

Definition set_summarizeBtn (b : bool) (d : Dom) : Dom :=
  {| statusClass := statusClass d; wasConnected := wasConnected d;
     connectNotion := connectNotion d; summarizeBtn := b;
     openaiKey := openaiKey d; banner := banner d |}.

Definition set_openaiKey (s : string) (d : Dom) : Dom :=
  {| statusClass := statusClass d; wasConnected := wasConnected d;
     connectNotion := connectNotion d; summarizeBtn := summarizeBtn d;
     openaiKey := s; banner := banner d |}.

Definition set_banner (b : option (msgType * string)) (d : Dom) : Dom :=
  {| statusClass := statusClass d; wasConnected := wasConnected d;
     connectNotion := connectNotion d; summarizeBtn := summarizeBtn d;
     openaiKey := openaiKey d; banner := b |}.

(** Apply a change to the document of a popup. *)
Definition on_ui (f : Dom -> Dom) (p : Popup) : Popup := set_ui (f (ui p)) p.

(** ** The remote world *)

(** The outcome of [fetch] followed by [response.json()].  [NetworkError]
    stands for any rejection (the request fails, or the body is not JSON);
    [HttpError] for a reply whose [ok] is false. *)
Inductive Response (A : Type) :=
| NetworkError
| HttpError (code : Z)
| HttpOk (body : A).

Arguments NetworkError {A}.
Arguments HttpError {A} code.
Arguments HttpOk {A} body.

(** The body of [GET /user/<id>/status]. *)
Record StatusData := {
  connected : bool;
  reason : option string;
  action : option string;
  message : option string;
  workspace_name : option string;
}.

(** The body of [GET /oauth/check-completion]. *)
Record CompletionCheck := {
  has_users : bool;
  latest_user_id : option string;
}.

(** The background worker's [oauthState], as [getOAuthStatus] returns it. *)
Record CompletionData := {
  status : string;
  completedUserId : string;        (* completionData.userId *)
}.

Record OAuthStatus := {
  isInProgress : bool;
  completionData : option CompletionData;
}.

Record Env := {
  fetch_root : Response unit;                   (* GET / *)
  fetch_status : string -> Response StatusData; (* GET /user/<id>/status *)
  fetch_check_completion : Response CompletionCheck;
  getOAuthStatus : option OAuthStatus;  (* None: no reply from the worker *)
  toDataURL : string;                   (* canvas.toDataURL() *)
  runtime_id : string;                  (* chrome.runtime.id *)
  now : Z;                              (* Date.now() *)
}.

(** ** Identifiers *)

(** [o] when it is truthy: neither absent nor the empty string. *)
Definition nonempty (o : option string) : option string :=
  match o with
  | Some s => if String.eqb s "" then None else Some s
  | None => None
  end.

(** [chrome.runtime.id || 'noted']. *)
Definition extensionId (env : Env) : string :=
  if String.eqb (runtime_id env) "" then "noted" else runtime_id env.

(** The temporary identifier that [loadStoredUserId] derives from the canvas
    fingerprint: [btoa(fingerprint + extensionId).substring(0, 16)]. *)
Definition temporaryId (env : Env) : string :=
  substring 0 16 (Base64.btoa (toDataURL env +:+ extensionId env)).

Definition loadStoredUserId (env : Env) (p : Popup) : Popup :=
  match stored_string (sync p !! "userId") with
  | Some id => set_userId (Some id) p
  | None => set_userId (Some (temporaryId env)) p
  end.

(** [generateUserId] starts [loadStoredUserId] without awaiting it.  Its only
    suspension is one storage read, whose reply precedes the reply to any
    storage request its caller issues afterwards, so it takes effect before
    the caller's next step that reads [this.userId]. *)
Definition generateUserId (env : Env) (p : Popup) : Popup :=
  loadStoredUserId env p.

Definition getStoredUserId (p : Popup) : option string :=
  stored_string (sync p !! "userId").

Definition setNotionUserId (notionUserId : string) (p : Popup) : Popup :=
  set_sync (<["userId" := VStr notionUserId]> (sync p))
           (set_userId (Some notionUserId) p).

(** The two guards of [init] on the length of an identifier: a stored
    identifier is verified against the backend only if it is longer than 20,
    and an identifier shorter than 30 (or none) forces the disconnected
    display. *)
Definition worthVerifying (storedUserId : option string) : bool :=
  match nonempty storedUserId with
  | Some s => (20 <? String.length s)%nat
  | None => false
  end.

Definition needsAuthentication (u : option string) : bool :=
  match nonempty u with
  | Some s => (String.length s <? 30)%nat
  | None => true
  end.

(** ** Display *)

Definition showMessage (msg : string) (t : msgType) (p : Popup) : Popup :=
  on_ui (set_banner (Some (t, msg))) p.

(** [errorElement.style.display = 'none']. *)
Definition hideError (d : Dom) : Dom :=
  match banner d with
  | Some (error, _) => set_banner None d
  | _ => d
  end.

Definition connectedButton (b : Button) : Button :=
  {| textContent := "✅ Connected to Notion";
     disabled := true;
     classList := {["connected"]} ∪ (classList b ∖ {["connecting"]}) |}.

Definition resetButton (b : Button) : Button :=
  {| textContent := "Connect to Notion";
     disabled := false;
     classList := classList b ∖ {["connected"; "connecting"]} |}.

Definition hasConnectedClass (p : Popup) : bool :=
  bool_decide ("connected" ∈ statusClass (ui p)).

Definition isConnectedToNotion (p : Popup) : bool :=
  backendConnected p && hasConnectedClass p.

Definition isOpenaiKeyValid (p : Popup) : bool :=
  match sync p !! "openaiKeyValid" with
  | Some (VBool true) => true
  | _ => false
  end.

(** [savedOpenaiKey && savedOpenaiKey.trim() && isOpenaiKeyValid], for the
    strings that [saveSettings] stores under the key. *)
Definition hasValidOpenaiKey (p : Popup) : bool :=
  match sync p !! "openaiApiKey" with
  | Some (VStr k) =>
      negb (String.eqb k "") && negb (blank k) && isOpenaiKeyValid p
  | _ => false
  end.

(** [updateUIState], with the three elements it needs present in the
    document.  Its last step, [updateSaveSettingsVisibility], only touches
    the save-settings button. *)
Definition updateUIState (p : Popup) : Popup :=
  let enable :=
    backendConnected p && isConnectedToNotion p && hasValidOpenaiKey p in
  let d1 := set_summarizeBtn (negb enable) (ui p) in
  let d2 :=
    if isConnectedToNotion p then
      set_connectNotion (connectedButton (connectNotion d1)) d1
    else if bool_decide ("connecting" ∈ classList (connectNotion d1)) then d1
    else set_connectNotion (resetButton (connectNotion d1)) d1 in
  set_ui d2 p.

Definition clearStoredSettings (p : Popup) : Popup :=
  on_ui (set_openaiKey "")
    (set_sync (remove_keys ["openaiApiKey"; "openaiKeyValid"] (sync p)) p).

Definition clearExtensionStorage (p : Popup) : Popup :=
  let p1 :=
    set_sync
      (remove_keys ["userId"; "openaiApiKey"; "openaiKeyValid"] (sync p)) p in
  let p2 :=
    set_localStore
      (remove_keys ["notionConnected"; "lastConnectionCheck"] (localStore p1))
      p1 in
  on_ui (set_openaiKey "") (set_userId None p2).

Definition showConnectedState (workspaceName : option string) (p : Popup)
  : Popup :=
  let p1 :=
    on_ui (fun d => set_statusClass {["status"; "connected"]} (hideError d))
      p in
  let p2 := updateUIState p1 in
  if wasConnected (ui p2) then p2
  else
    let msg :=
      match nonempty workspaceName with
      | Some w =>
          "Successfully connected to Notion workspace: " +:+ w
          +:+ "! You can now summarize pages."
      | None => "Successfully connected to Notion! You can now summarize pages."
      end in
    on_ui (set_wasConnected true) (showMessage msg success p2).

(** [showDisconnectedState]; its [reason] argument is not used by the body.
    The final [clearStoredSettings] is started without being awaited: its
    removal request is issued before the method returns. *)
Definition showDisconnectedState (p : Popup) : Popup :=
  let p1 :=
    on_ui (fun d =>
             set_wasConnected false
               (set_statusClass {["status"; "disconnected"]} (hideError d)))
      p in
  clearStoredSettings (updateUIState p1).

Definition forceDisconnectedState (env : Env) (p : Popup) : Popup :=
  let p1 := set_sync (remove_keys ["userId"] (sync p)) p in
  let p2 := generateUserId env (set_userId None p1) in
  let p3 :=
    on_ui (fun d =>
             set_connectNotion (resetButton (connectNotion d))
               (set_wasConnected false
                  (set_statusClass {["status"; "disconnected"]} d)))
      p2 in
  updateUIState (clearStoredSettings p3).

(** ** Connection checks *)

Definition testBackendConnection (env : Env) (p : Popup) : bool * Popup :=
  match fetch_root env with
  | HttpOk _ => (true, set_backendConnected true p)
  | _ => (false, set_backendConnected false p)
  end.

(** [data.reason === 'invalid_token' || data.reason === 'no_token']. *)
Definition tokenRejected (data : StatusData) : bool :=
  bool_decide (reason data = Some "invalid_token")
  || bool_decide (reason data = Some "no_token").

Definition checkNotionConnection (v : variant) (env : Env) (p : Popup)
  : Popup :=
  match nonempty (userId p) with
  | None => showDisconnectedState p
  | Some id =>
      match fetch_status env id with
      | NetworkError =>
          (* caught: 'Error checking connection' *)
          showDisconnectedState p
      | HttpError _ =>
          (* forced, then the thrown error is caught *)
          showDisconnectedState (forceDisconnectedState env p)
      | HttpOk data =>
          if connected data then showConnectedState (workspace_name data) p
          else
            let p1 :=
              if tokenRejected data then
                let q :=
                  generateUserId env
                    (set_userId None
                       (set_sync (remove_keys ["userId"] (sync p)) p)) in
                match v with
                | Local => q
                | Vercel => clearStoredSettings q
                end
              else p in
            let p2 :=
              if bool_decide (action data = Some "clear_extension_storage")
              then clearExtensionStorage p1
              else p1 in
            showDisconnectedState p2
      end
  end.

Definition verifyStoredConnection (env : Env) (p : Popup) : bool :=
  match nonempty (userId p) with
  | None => false
  | Some id =>
      match fetch_status env id with
      | HttpOk data => connected data
      | _ => false
      end
  end.

(** [detectRealUser]: ask the backend for the latest authorised user and,
    when its status is connected, adopt it.  The hosted build skips a
    candidate equal to the identifier already held. *)
Definition detectRealUser (v : variant) (env : Env) (p : Popup)
  : bool * Popup :=
  match fetch_check_completion env with
  | HttpOk data =>
      match (if has_users data then nonempty (latest_user_id data)
             else None) with
      | Some latest =>
          let same :=
            match v with
            | Local => false
            | Vercel => bool_decide (userId p = Some latest)
            end in
          if same then (false, p)
          else
            match fetch_status env latest with
            | HttpOk statusData =>
                if connected statusData
                then (true, setNotionUserId latest p)
                else (false, p)
            | _ => (false, p)
            end
      | None => (false, p)
      end
  | _ => (false, p)
  end.

(** The body shared by both builds once the worker reports a successful
    completion (the hosted build names it [processCompletedOAuth]). *)
Definition processCompletedOAuth (c : CompletionData) (p : Popup) : Popup :=
  defer DeferredCheckNotionConnection
    (showMessage "Successfully connected to Notion!" success
       (sendMessage clearOAuthState (setNotionUserId (completedUserId c) p))).

Definition checkOAuthCompletion (env : Env) (p : Popup) : bool * Popup :=
  match getOAuthStatus env with
  | Some response =>
      match completionData response with
      | Some c =>
          if String.eqb (status c) "success"
          then (true, processCompletedOAuth c p)
          else (false, p)
      | None => (false, p)
      end
  | None => (false, p)
  end.

(** [checkForMissedOAuth] (hosted build).  The status reply is read without
    looking at [response.ok]; an error reply is taken to carry no truthy
    [connected] field. *)
Definition checkForMissedOAuth (env : Env) (p : Popup) : bool * Popup :=
  match stored_string (localStore p !! "lastConnectedUser"),
        localStore p !! "lastConnectionTime" with
  | Some lastConnectedUser, Some (VNum lastConnectionTime) =>
      if (lastConnectionTime =? 0)%Z then (false, p)
      else if (now env - lastConnectionTime <? 30000)%Z then
        match fetch_status env lastConnectedUser with
        | HttpOk data =>
            if connected data then
              (true,
               showMessage "✅ Successfully connected to Notion!" success
                 (updateUIState (setNotionUserId lastConnectedUser p)))
            else (false, p)
        | _ => (false, p)
        end
      else (false, p)
  | _, _ => (false, p)
  end.

(** [checkAllConnections]: the handler of the refresh button.  In the
    localhost build the check of the Notion link is switched off. *)
Definition checkAllConnections (v : variant) (env : Env) (p : Popup)
  : Popup :=
  let '(reachable, p1) := testBackendConnection env p in
  if reachable then
    match v with
    | Local => p1
    | Vercel =>
        let '(detectedNewUser, p2) := detectRealUser v env p1 in
        let p3 :=
          if detectedNewUser then p2 else checkNotionConnection v env p2 in
        snd (checkForMissedOAuth env p3)
    end
  else
    let p2 :=
      on_ui (fun d =>
               set_statusClass {["status"; "disconnected"]} (hideError d))
        p1 in
    let p3 :=
      set_localStore
        (remove_keys ["notionConnected"; "lastConnectionCheck"]
           (localStore p2)) p2 in
    let p4 :=
      match v with
      | Local => p3
      | Vercel => clearStoredSettings p3
      end in
    updateUIState p4.

(** The session-restoring step of [init]: a stored identifier that is long
    enough is checked against the backend; it is adopted when still
    connected (and [init] returns), dropped otherwise. *)
Definition restoreSession (v : variant) (env : Env) (p : Popup)
  : bool * Popup :=
  let storedUserId := getStoredUserId p in
  if worthVerifying storedUserId then
    let p1 := set_userId storedUserId p in
    if verifyStoredConnection env p1 then (true, showConnectedState None p1)
    else
      let q :=
        generateUserId env
          (set_userId None
             (set_sync (remove_keys ["userId"] (sync p1)) p1)) in
      (false,
       match v with
       | Local => q
       | Vercel => clearStoredSettings q
       end)
  else (false, p).

(** The step of [init] that forces the disconnected display while the
    identifier held is missing or too short to be a linked one. *)
Definition requireAuthentication (p : Popup) : Popup :=
  if needsAuthentication (userId p) then
    updateUIState
      (on_ui (fun d =>
                set_wasConnected false
                  (set_statusClass {["status"; "disconnected"]} d))
         p)
  else p.

(** ** The completion poller *)

(** The closure of [startOAuthCompletionPolling]: the attempt counter, whether
    the interval is still registered, and the popup it acts on. *)
Record Session := {
  attempts : nat;
  pollInterval : bool;
  popup : Popup;
}.

Definition maxAttempts (v : variant) : nat :=
  match v with
  | Local => 15
  | Vercel => 20
  end.

(** A tick that saw a connected user: stop, mark the button, refresh. *)
Definition linked (v : variant) (env : Env) (n : nat) (p : Popup) : Session :=
  {| attempts := n;
     pollInterval := false;
     popup :=
       checkNotionConnection v env
         (on_ui (fun d =>
                   set_connectNotion (connectedButton (connectNotion d)) d)
            p) |}.

(** The end of a tick: give up once the counter has reached the limit.
    [announce] is false on the path through the [catch] block, which resets
    the button without a message. *)
Definition timeoutCheck (limit n : nat) (announce : bool) (p : Popup)
  : Session :=
  if (limit <=? n)%nat then
    let p1 :=
      on_ui (fun d => set_connectNotion (resetButton (connectNotion d)) d)
        p in
    {| attempts := n;
       pollInterval := false;
       popup :=
         if announce
         then showMessage "Connection timeout. Please try again." error p1
         else p1 |}
  else {| attempts := n; pollInterval := true; popup := p |}.

(** The last probe of a tick: the status of the identifier currently held. *)
Definition fallbackCheck (limit : nat) (v : variant) (env : Env) (n : nat)
    (p : Popup) : Session :=
  match nonempty (userId p) with
  | Some id =>
      match fetch_status env id with
      | NetworkError => timeoutCheck limit n false p
      | HttpError _ => timeoutCheck limit n true p
      | HttpOk data =>
          if connected data then linked v env n p
          else timeoutCheck limit n true p
      end
  | None => timeoutCheck limit n true p
  end.

(** One run of the interval callback that no other firing interrupts, with
    the limit as a parameter.  Once the interval is cleared the callback is
    not invoked again. *)
Definition pollTick (limit : nat) (v : variant) (env : Env) (s : Session)
  : Session :=
  if pollInterval s then
    let n := S (attempts s) in
    match v with
    | Local =>
        let '(detectedUser, p1) := detectRealUser v env (popup s) in
        if detectedUser then linked v env n p1
        else
          let '(_, p2) := checkOAuthCompletion env p1 in
          fallbackCheck limit v env n p2
    | Vercel =>
        let '(oauthCompleted, p1) := checkOAuthCompletion env (popup s) in
        if oauthCompleted then linked v env n p1
        else
          let '(detectedUser, p2) := detectRealUser v env p1 in
          if detectedUser then linked v env n p2
          else fallbackCheck limit v env n p2
    end
  else s.

(** ** The specification's vocabulary, read off the popup state *)

(** The link is confirmed when the status line carries the class
    [connected]: the flag that [showConnectedState] sets and that
    [updateUIState] reads. *)
Definition confirmed (p : Popup) : bool := hasConnectedClass p.

(** The remote identifier is the one kept in durable storage. *)
Definition remoteId (p : Popup) : option string := getStoredUserId p.

(** The summarize action is enabled after the projection. *)
Definition canAct (p : Popup) : bool :=
  negb (summarizeBtn (ui (updateUIState p))).

(** No probe of this environment reports a link: no status query answers
    [connected], and the worker holds no successful completion. *)
Definition unlinked (env : Env) : Prop :=
  (forall id data, fetch_status env id = HttpOk data -> connected data = false)
  /\ (forall response c,
        getOAuthStatus env = Some response ->
        completionData response = Some c ->
        status c <> "success").

(** A stored summarization credential that [saveSettings] could have
    written: the validity flag is only ever set together with a key that is
    not blank. *)
Definition credentialStored (p : Popup) : Prop :=
  isOpenaiKeyValid p = true ->
  exists k, sync p !! "openaiApiKey" = Some (VStr k) /\ blank k = false.

(** A request failed: no parsed reply came back. *)
Definition failed {A} (r : Response A) : Prop :=
  match r with
  | HttpOk _ => False
  | _ => True
  end.

(** What a step leaves alone: everything in the popup except the two buttons
    and the banner. *)
Record sameLinkState (p q : Popup) : Prop := {
  same_userId : userId q = userId p;
  same_backendConnected : backendConnected q = backendConnected p;
  same_sync : sync q = sync p;
  same_localStore : localStore q = localStore p;
  same_statusClass : statusClass (ui q) = statusClass (ui p);
  same_wasConnected : wasConnected (ui q) = wasConnected (ui p);
  same_openaiKey : openaiKey (ui q) = openaiKey (ui p);
  same_timers : timers q = timers p;
  same_outbox : outbox q = outbox p;
}.

(** ** Sample states and environments *)

Module Sample.

(** The identifier used by the repository's own connection test. *)
Definition user : string := "c425202e-f79f-40e2-98e4-aecacac9ec4e".

Definition button : Button :=
  {| textContent := "Connect to Notion"; disabled := false;
     classList := ∅ |}.

(** A popup that has never been linked. *)
Definition fresh : Popup :=
  {| userId := None; backendConnected := true; sync := ∅;
     localStore := ∅;
     ui := {| statusClass := {["status"; "disconnected"]};
              wasConnected := false; connectNotion := button;
              summarizeBtn := true; openaiKey := ""; banner := None |};
     timers := []; outbox := [] |}.

(** A popup linked as [user], with a validated credential. *)
Definition linkedPopup : Popup :=
  {| userId := Some user; backendConnected := true;
     sync := <["userId" := VStr user]>
               (<["openaiApiKey" := VStr "sk-test"]>
                  (<["openaiKeyValid" := VBool true]> ∅));
     localStore := ∅;
     ui := {| statusClass := {["status"; "connected"]};
              wasConnected := true;
              connectNotion := connectedButton button;
              summarizeBtn := false; openaiKey := "sk-test";
              banner := None |};
     timers := []; outbox := [] |}.

(** The same popup after the periodic probe found the backend down. *)
Definition linkedBackendDown : Popup :=
  set_backendConnected false linkedPopup.

Definition world (root : Response unit) (st : Response StatusData)
    (chk : Response CompletionCheck) : Env :=
  {| fetch_root := root; fetch_status := fun _ => st;
     fetch_check_completion := chk; getOAuthStatus := None;
     toDataURL := "data:image/png;base64,iVBORw0KGgoAAAANSUhEUgAAASwAAACW";
     runtime_id := "abcdefghijklmnopabcdefghijklmnop"; now := 0 |}.

Definition answer (c : bool) (r : option string) : StatusData :=
  {| connected := c; reason := r; action := None; message := None;
     workspace_name := None |}.

(** The backend is unreachable. *)
Definition offline : Env := world NetworkError NetworkError NetworkError.

(** The backend is up but the status route fails. *)
Definition statusFails : Env :=
  world (HttpOk ()) (HttpError 503) (HttpError 503).

(** Every status query answers "not connected", without a reason. *)
Definition notConnected : Env :=
  world (HttpOk ()) (HttpOk (answer false None)) (HttpError 404).

(** Every status query answers that the token is invalid. *)
Definition revoked : Env :=
  world (HttpOk ()) (HttpOk (answer false (Some "invalid_token")))
    (HttpError 404).

(** Discovery proposes ["u-9"], and the status of any user is connected. *)
Definition discovered : Env :=
  world (HttpOk ())
    (HttpOk {| connected := true; reason := None; action := None;
               message := None; workspace_name := Some "Acme" |})
    (HttpOk {| has_users := true; latest_user_id := Some "u-9" |}).

End Sample.

(** * The rest of the extension *)

(** ** Text as UTF-16 code units

    Page text and API keys as the sequences of code units that JavaScript
    string operations see. *)

Module Text.

(** The code units that the regular expression [\s] matches and [trim]
    strips: the white space and line terminators of ECMAScript. *)
Definition isWhiteSpace (c : N) : bool :=
  ((9 <=? c) && (c <=? 13))%N
  || (c =? 32)%N || (c =? 160)%N || (c =? 5760)%N
  || ((8192 <=? c) && (c <=? 8202))%N
  || (c =? 8232)%N || (c =? 8233)%N || (c =? 8239)%N || (c =? 8287)%N
  || (c =? 12288)%N || (c =? 65279)%N.

Definition space : N := 32.
Definition lineFeed : N := 10.
Definition bullet : N := 8226.

(** [text.replace(/\s+/g, ' ')]: every maximal run of white space becomes
    one space.  [inRun] tells that the previous unit was white space. *)
Fixpoint collapseFrom (inRun : bool) (text : list N) : list N :=
  match text with
  | [] => []
  | c :: rest =>
      if isWhiteSpace c then
        if inRun then collapseFrom true rest
        else space :: collapseFrom true rest
      else c :: collapseFrom false rest
  end.

Definition collapseSpaces (text : list N) : list N := collapseFrom false text.

(** [text.replace(/\n+/g, '\n')]: every maximal run of line feeds becomes
    one line feed. *)
Fixpoint squeezeFrom (inRun : bool) (text : list N) : list N :=
  match text with
  | [] => []
  | c :: rest =>
      if (c =? lineFeed)%N then
        if inRun then squeezeFrom true rest
        else lineFeed :: squeezeFrom true rest
      else c :: squeezeFrom false rest
  end.

Definition squeezeNewlines (text : list N) : list N := squeezeFrom false text.

(** Every white-space unit of [t] is a space and no two are adjacent;
    [afterSpace] tells that a white-space unit precedes [t]. *)
Fixpoint singleSpaced (afterSpace : bool) (t : list N) : bool :=
  match t with
  | [] => true
  | c :: rest =>
      if isWhiteSpace c
      then (c =? space)%N && negb afterSpace && singleSpaced true rest
      else singleSpaced false rest
  end.

(** The units that are not white space, in order. *)
Definition words (t : list N) : list N :=
  List.filter (fun c => negb (isWhiteSpace c)) t.

End Text.

(** [trimStart], [trimEnd] and [trim], for any notion of white space. *)
Fixpoint trimStartBy {A} (ws : A -> bool) (l : list A) : list A :=
  match l with
  | [] => []
  | c :: rest => if ws c then trimStartBy ws rest else l
  end.

Definition trimEndBy {A} (ws : A -> bool) (l : list A) : list A :=
  rev (trimStartBy ws (rev l)).

Definition trimBy {A} (ws : A -> bool) (l : list A) : list A :=
  trimEndBy ws (trimStartBy ws l).

(** [s.trim()] on a string of code units below 256. *)
Definition trim (s : string) : string :=
  string_of_list_ascii (trimBy is_space (list_ascii_of_string s)).

(** [haystack.includes(needle)]. *)
Definition includes (needle haystack : string) : bool :=
  match index 0 needle haystack with
  | Some _ => true
  | None => false
  end.

(** ** The content script *)

Module Content.

(** [cleanText]: [None] stands for a [null] or [undefined] argument. *)
Definition cleanText (text : option (list N)) : list N :=
  match text with
  | None => []
  | Some [] => []
  | Some t =>
      trimBy Text.isWhiteSpace
        (Text.squeezeNewlines (Text.collapseSpaces t))
  end.

(** What [Readability] gives, when the library is loaded. *)
Inductive readability :=
| NotLoaded                              (* typeof Readability is undefined *)
| ParseFails                             (* parse throws or yields null *)
| Parsed (textContent : option (list N)).

(** The page as the extraction sees it: the [textContent] of the first
    element matching a selector, and that of the body once the unwanted
    elements are removed from its clone. *)
Record Page := {
  reader : readability;
  querySelector : string -> option (list N);
  strippedBody : list N;
}.

Definition contentSelectors : list string :=
  [".content"; ".post-content"; ".entry-content"; ".article-content";
   ".story-content"; ".post-body"; ".entry-body"; ".article-body"].

Definition extractBodyContent (page : Page) : list N :=
  cleanText (Some (strippedBody page)).

Definition extractWithReadability (page : Page) : list N :=
  match reader page with
  | Parsed textContent => cleanText textContent
  | _ => extractBodyContent page
  end.

(** The loop over [contentSelectors]: the first selector that matches. *)
Fixpoint firstMatch (page : Page) (selectors : list string)
  : option (list N) :=
  match selectors with
  | [] => None
  | selector :: rest =>
      match querySelector page selector with
      | Some textContent => Some textContent
      | None => firstMatch page rest
      end
  end.

Definition extractReadableContent (page : Page) : list N :=
  match reader page with
  | NotLoaded =>
      match querySelector page "article" with
      | Some textContent => cleanText (Some textContent)
      | None =>
          match querySelector page "main" with
          | Some textContent => cleanText (Some textContent)
          | None =>
              match firstMatch page contentSelectors with
              | Some textContent => cleanText (Some textContent)
              | None => extractBodyContent page
              end
          end
      end
  | _ => extractWithReadability page
  end.

(** A text is clean when no white space begins or ends it, every white-space
    unit in it is a space, and no two of them are adjacent. *)
Record clean (t : list N) : Prop := {
  clean_head : forall c rest, t = c :: rest -> Text.isWhiteSpace c = false;
  clean_last :
    forall front c, t = (front ++ [c])%list -> Text.isWhiteSpace c = false;
  clean_spaces :
    forall i c, t !! i = Some c -> Text.isWhiteSpace c = true -> c = Text.space;
  clean_single :
    forall i c d, t !! i = Some c -> t !! S i = Some d ->
                  Text.isWhiteSpace c = true -> Text.isWhiteSpace d = false;
}.

End Content.

(** ** Masking a saved key (hosted build) *)

(** [maskApiKey]: the first seven and the last four units with bullets in
    between.  [None] is the [RangeError] that [repeat] raises on a negative
    count. *)
Definition maskApiKey (key : list N) : option (list N) :=
  if (length key <? 8)%nat then Some key
  else
    let start := take 7 key in
    let ending := drop (length key - 4) key in
    if (length key <? 11)%nat then None
    else
      Some (start
              ++ replicate (32 `min` (length key - 11)) Text.bullet
              ++ ending)%list.

(** ** Settings (localhost build) *)

(** [loadSettings]: the stored key, when there is one, is put in the input
    field. *)
Definition loadSettings (p : Popup) : Popup :=
  match stored_string (sync p !! "openaiApiKey") with
  | Some key => on_ui (set_openaiKey key) p
  | None => p
  end.

(** [validateOpenAIKey] asks the OpenAI API; [validate] is the outcome of
    that request for a key. *)
Definition validateOpenAIKey (validate : string -> Response unit)
    (apiKey : string) : bool :=
  match validate apiKey with
  | HttpOk _ => true
  | _ => false
  end.

(** [saveSettings]: the trimmed content of the input field is stored, with
    the validity flag, once the OpenAI API has accepted it. *)
Definition saveSettings (validate : string -> Response unit) (p : Popup)
  : Popup :=
  let key := trim (openaiKey (ui p)) in
  if String.eqb key "" then
    showMessage "Please enter an OpenAI API key" error p
  else
    let p1 := showMessage "Validating OpenAI API key..." info p in
    if validateOpenAIKey validate key then
      let p2 :=
        set_sync
          (<["openaiKeyValid" := VBool true]>
             (<["openaiApiKey" := VStr key]> (sync p1))) p1 in
      updateUIState
        (showMessage "Settings saved successfully! OpenAI API key validated."
           success p2)
    else
      showMessage
        "Invalid OpenAI API key. Please check your key and try again."
        error p1.

(** The [input] listener of the key field, once the user has changed its
    content to [typed]: the validity flag is withdrawn. *)
Definition onOpenaiKeyInput (typed : string) (p : Popup) : Popup :=
  let p1 := on_ui (set_openaiKey typed) p in
  updateUIState (set_sync (remove_keys ["openaiKeyValid"] (sync p1)) p1).

(** [updateSaveSettingsVisibility]: whether the save button ends up hidden.
    The link is read with [className.includes('connected')]; the class name
    is the tokens of the status class joined by spaces, and the needle has
    no space, so it occurs in the name when it occurs in a token. *)
Definition saveSettingsHidden (p : Popup) : bool :=
  let isConnectedToNotion :=
    existsb (includes "connected") (elements (statusClass (ui p))) in
  match sync p !! "openaiApiKey" with
  | Some (VStr savedOpenaiKey) =>
      negb (String.eqb savedOpenaiKey "") && negb (blank savedOpenaiKey)
      && isOpenaiKeyValid p && isConnectedToNotion
  | _ => false
  end.

(** ** Resetting and connecting (localhost build) *)

Definition forceReset (p : Popup) : Popup :=
  let p1 :=
    set_backendConnected false
      (set_userId None (set_localStore ∅ (set_sync ∅ p))) in
  let p2 :=
    on_ui (fun d =>
             set_openaiKey ""
               (set_wasConnected false
                  (set_statusClass {["status"; "disconnected"]}
                     (set_connectNotion (resetButton (connectNotion d))
                        (hideError d)))))
      p1 in
  showMessage "🔄 Extension reset! Please authenticate again." info
    (updateUIState p2).

(** The double-click listener of the connect button. *)
Definition forceReconnect (env : Env) (p : Popup) : Popup :=
  if bool_decide ("connected" ∈ classList (connectNotion (ui p))) then
    showMessage "Disconnected! You can now reconnect to Notion." success
      (forceDisconnectedState env
         (showMessage "Force reconnecting..." info p))
  else p.

Definition connectingButton (b : Button) : Button :=
  {| textContent := "Connecting...";
     disabled := true;
     classList := {["connecting"]} ∪ classList b |}.

(** [connectToNotion]: [opened] tells whether [window.open] gave a window.
    The second component tells whether the interval that waits for the window
    to close, and then starts the poller, has been registered. *)
Definition connectToNotion (opened : bool) (p : Popup) : Popup * bool :=
  let p1 :=
    sendMessage startOAuth
      (on_ui (fun d =>
                set_connectNotion (connectingButton (connectNotion d)) d)
         p) in
  if opened then
    (showMessage
       ("Connecting to Notion... Please complete the authorization in "
        +:+ "the popup window.")
       success p1,
     true)
  else
    (on_ui (fun d => set_connectNotion (resetButton (connectNotion d)) d)
       (showMessage "Failed to connect to Notion" error
          (on_ui (fun d =>
                    set_connectNotion (resetButton (connectNotion d)) d)
             p1)),
     false).

(** ** Summarizing and saving *)

From Stdlib Require Import DecimalString.

(** The outcome of a [POST]: the request fails, or is refused with a status
    and an error body that may carry a [detail], or succeeds. *)
Inductive Posted (A : Type) :=
| PostThrown
| PostRefused (code : Z) (detail : option string)
| PostOk (body : A).

Arguments PostThrown {A}.
Arguments PostRefused {A} code detail.
Arguments PostOk {A} body.

Record Summary := {
  summary : string;
  category : string;
}.

(** The body of [POST /notion/save]. *)
Record SaveRequest := {
  save_summary : string;
  save_url : string;
  save_title : string;
  save_user_id : option string;
  save_category : string;
}.

(** What the summarize action depends on besides the backend's status
    routes: the two [POST] routes, the text of the error with which a failed
    [fetch] rejects, and the category the user settles on in the dialog
    ([None]: the dialog is never answered). *)
Record Services := {
  summarize_and_categorize : string -> string -> string -> Posted Summary;
  notion_save : SaveRequest -> Posted string;
  fetchFailure : string;
  chooseCategory : string -> option string;
}.

Inductive Result :=
| Failure (message : string)
| Success (page_url : string).

Record SaveOutcome := {
  result : Result;
  posted : option SaveRequest;     (* the save request that was sent *)
  after : Popup;
}.

(** [`HTTP ${response.status}`]. *)
Definition httpStatusText (code : Z) : string :=
  "HTTP " +:+ NilZero.string_of_int (Z.to_int code).

Definition saveToNotionWithCategory (v : variant) (env : Env)
    (services : Services) (summary url title category : string) (p : Popup)
  : SaveOutcome :=
  let fail message posted q :=
    {| result := Failure ("Failed to save to Notion: " +:+ message);
       posted := posted; after := q |} in
  match nonempty (userId p) with
  | None => fail "No user ID available. Please reconnect to Notion." None p
  | Some id =>
      match fetch_status env id with
      | NetworkError => fail (fetchFailure services) None p
      | HttpError _ =>
          fail "Unable to verify Notion connection. Please reconnect." None
            (forceDisconnectedState env p)
      | HttpOk statusData =>
          let '(verified, p1) :=
            if connected statusData then (true, p)
            else detectRealUser v env p in
          if verified then
            let request :=
              {| save_summary := summary; save_url := url;
                 save_title := title; save_user_id := userId p1;
                 save_category := category |} in
            match notion_save services request with
            | PostThrown => fail (fetchFailure services) (Some request) p1
            | PostRefused code detail =>
                let message :=
                  if (code =? 401)%Z then
                    "Authentication failed. Please reconnect to Notion."
                  else if (code =? 500)%Z then
                    "Server error: "
                    +:+ default "Unknown error" (nonempty detail)
                  else
                    default
                      (httpStatusText code +:+ ": Failed to save to Notion")
                      (nonempty detail) in
                fail message (Some request) p1
            | PostOk page_url =>
                {| result := Success page_url; posted := Some request;
                   after := p1 |}
            end
          else
            fail "User not authenticated with Notion. Please reconnect."
              None (forceDisconnectedState env p1)
      end
  end.

Definition summarizeAndCategorizeWithBackend (services : Services)
    (content title openaiKey : string) : string + Summary :=
  let fail message := inl ("Failed to process content: " +:+ message) in
  match
    summarize_and_categorize services content
      (default "Untitled" (nonempty (Some title))) openaiKey
  with
  | PostThrown => fail (fetchFailure services)
  | PostRefused _ detail =>
      fail (default "Failed to summarize and categorize content"
              (nonempty detail))
  | PostOk data => inr data
  end.

Record Tab := {
  url : string;
  title : string;
}.

(** A run of the summarize action either completes or stays suspended in
    the category dialog for ever. *)
Inductive Run :=
| Completed (p : Popup)
| Suspended (p : Popup).

Definition quotation : string := String (ascii_of_nat 34) "".

(** [summarizeCurrentPage] on the active [tab], whose extracted text is
    [content] ([None]: the extraction failed).  The loading indicator and the
    category dialog are not part of the document kept here, and of the
    success message only the text is. *)
Definition summarizeCurrentPage (v : variant) (env : Env)
    (services : Services) (tab : Tab) (content : option string) (p : Popup)
  : Run :=
  let p0 := on_ui (set_summarizeBtn true) p in
  let finish q := Completed (on_ui (set_summarizeBtn false) q) in
  let fail message q := finish (showMessage message error q) in
  match nonempty content with
  | None => fail "Could not extract content from this page" p0
  | Some text =>
      match stored_string (sync p0 !! "openaiApiKey") with
      | None => fail "Please enter your OpenAI API key in settings" p0
      | Some openaiKey =>
          let p1 :=
            showMessage "🤖 Analyzing content and detecting category..."
              info p0 in
          match
            summarizeAndCategorizeWithBackend services text (title tab)
              openaiKey
          with
          | inl message => fail message p1
          | inr summaryData =>
              match chooseCategory services (category summaryData) with
              | None => Suspended p1
              | Some finalCategory =>
                  let p2 := showMessage "💾 Saving to Notion..." info p1 in
                  let saved :=
                    saveToNotionWithCategory v env services
                      (summary summaryData) (url tab) (title tab)
                      finalCategory p2 in
                  match result saved with
                  | Failure message => fail message (after saved)
                  | Success notionPageUrl =>
                      finish
                        (showMessage
                           ("Article summarized and saved to Notion under "
                            +:+ quotation +:+ finalCategory +:+ quotation
                            +:+ " category!")
                           success (after saved))
                  end
              end
          end
      end
  end.

(** ** Opening the popup (localhost build) *)

Definition bindEvents (p : Popup) : Popup := on_ui (set_summarizeBtn true) p.

(** The guarded call shared by [init] and by the focus and visibility
    listeners: the worker is asked for its status, and
    [checkOAuthCompletion] runs only while an authorisation is in
    progress. *)
Definition checkActiveOAuthSession (env : Env) (p : Popup) : Popup :=
  match getOAuthStatus env with
  | Some oauthStatus =>
      if isInProgress oauthStatus
      then snd (checkOAuthCompletion env p)
      else p
  | None => p
  end.

(** [init].  The second component tells whether [setupStatusCheck] was
    reached, which registers the periodic probe of the backend and the
    focus and visibility listeners; the two early returns skip it. *)
Definition init (env : Env) (p : Popup) : Popup * bool :=
  let p0 := generateUserId env (loadSettings (bindEvents p)) in
  let '(reachable, p1) := testBackendConnection env p0 in
  if reachable then
    let p2 :=
      on_ui (fun d =>
               set_wasConnected false
                 (set_statusClass {["status"; "disconnected"]} d))
        p1 in
    let '(restored, p3) := restoreSession Local env p2 in
    if restored then (p3, false)
    else
      let p4 := sendMessage clearOAuthState p3 in
      let p5 := checkActiveOAuthSession env p4 in
      (updateUIState (requireAuthentication p5), true)
  else
    let p2 :=
      on_ui (fun d =>
               set_statusClass {["status"; "disconnected"]} (hideError d))
        p1 in
    (updateUIState
       (set_localStore
          (remove_keys ["notionConnected"; "lastConnectionCheck"]
             (localStore p2)) p2),
     false).

(** ** The handlers of the localhost popup *)

(** What can happen to an open popup: the user's actions and the timers
    and listeners that the popup registers. *)
Inductive popupEvent :=
| Open
| ClickConnect (opened : bool)
| DoubleClickConnect
| ClickSummarize (services : Services) (tab : Tab) (content : option string)
| ClickSaveSettings (validate : string -> Response unit)
| TypeKey (typed : string)
| ClickRefresh
| DoubleClickHeader
| StatusInterval
| Focus
| PollInterval (n : nat)
| DeferredCheck.

(** The popup after the handler of [a] has run to completion in the
    environment [env].  [PollInterval n] is the callback of the completion
    poller after [n] earlier ticks. *)
Definition handle (env : Env) (a : popupEvent) (p : Popup) : Popup :=
  match a with
  | Open => fst (init env p)
  | ClickConnect opened => fst (connectToNotion opened p)
  | DoubleClickConnect => forceReconnect env p
  | ClickSummarize services tab content =>
      match summarizeCurrentPage Local env services tab content p with
      | Completed q | Suspended q => q
      end
  | ClickSaveSettings validate => saveSettings validate p
  | TypeKey typed => onOpenaiKeyInput typed p
  | ClickRefresh => checkAllConnections Local env p
  | DoubleClickHeader => forceReset p
  | StatusInterval => snd (testBackendConnection env p)
  | Focus => checkActiveOAuthSession env p
  | PollInterval n =>
      popup
        (pollTick (maxAttempts Local) Local env
           {| attempts := n; pollInterval := true; popup := p |})
  | DeferredCheck => checkNotionConnection Local env p
  end.

(** A session: the handlers run one after the other, each in the
    environment of its time. *)
Definition session (events : list (Env * popupEvent)) (p : Popup) : Popup :=
  fold_left (fun q e => handle (fst e) (snd e) q) events p.

(** The identifier held is the stored one whenever one is stored. *)
Definition identityInSync (p : Popup) : Prop :=
  forall u, remoteId p = Some u -> userId p = Some u.

(** Going from [p] to [q] keeps the two invariants of a session: the
    identifier held agrees with the stored one, and the validity flag comes
    with a key that is not blank. *)
Definition preserves (p q : Popup) : Prop :=
  (identityInSync p -> identityInSync q)
  /\ (credentialStored p -> credentialStored q).

(** ** The background worker *)

Module Worker.

Record Completion := {
  status : string;
  userId : string;
  timestamp : Z;
}.

(** The module variable [oauthState]. *)
Record OAuthState := {
  isInProgress : bool;
  completionData : option Completion;
  lastCheck : option Z;
}.

(** The worker: its [oauthState], whether [oauthCheckInterval] holds a
    registered interval, the notifications it has raised, and
    [chrome.storage.local], which it shares with the popup. *)
Record State := {
  oauthState : OAuthState;
  oauthCheckInterval : bool;
  notifications : nat;
  store : gmap string value;
}.

Definition idle : OAuthState :=
  {| isInProgress := false; completionData := None; lastCheck := None |}.

(** The worker as the script leaves it when it is loaded. *)
Definition loaded (store : gmap string value) : State :=
  {| oauthState := idle; oauthCheckInterval := false; notifications := 0;
     store := store |}.

Definition checked (now : Z) (s : State) : State :=
  {| oauthState :=
       {| isInProgress := isInProgress (oauthState s);
          completionData := completionData (oauthState s);
          lastCheck := Some now |};
     oauthCheckInterval := oauthCheckInterval s;
     notifications := notifications s;
     store := store s |}.

Definition completed (connectedUserId : string) (now : Z)
    (store' : gmap string value) (s : State) : State :=
  {| oauthState :=
       {| isInProgress := false;
          completionData :=
            Some {| status := "success"; userId := connectedUserId;
                    timestamp := now |};
          lastCheck := Some now |};
     oauthCheckInterval := oauthCheckInterval s;
     notifications := S (notifications s);
     store := store' |}.

(** A status reply read without looking at [response.ok]: an error reply is
    taken to carry no truthy [connected] field. *)
Definition answersConnected (env : Env) (user : string) : bool :=
  match fetch_status env user with
  | HttpOk userData => connected userData
  | _ => false
  end.

(** The loop of the localhost worker over the users of the backend: the
    first one whose status is connected. *)
Fixpoint firstConnected (env : Env) (users : list string) : option string :=
  match users with
  | [] => None
  | user :: rest =>
      if answersConnected env user then Some user
      else firstConnected env rest
  end.

(** [checkOAuthCompletion].  [users] is the reply of [GET /debug/users],
    which only the localhost worker asks for. *)
Definition checkOAuthCompletion (v : variant) (env : Env)
    (users : Response (list string)) (s : State) : State :=
  if isInProgress (oauthState s) then
    match v with
    | Local =>
        match users with
        | HttpOk list =>
            match nonempty (firstConnected env list) with
            | Some connectedUserId =>
                completed connectedUserId (now env) (store s) s
            | None => checked (now env) s
            end
        | _ => checked (now env) s
        end
    | Vercel =>
        match fetch_check_completion env with
        | HttpOk completion =>
            match (if has_users completion
                   then nonempty (latest_user_id completion) else None) with
            | Some latest =>
                if answersConnected env latest then
                  completed latest (now env)
                    (<["lastConnectionTime" := VNum (now env)]>
                       (<["lastConnectedUser" := VStr latest]> (store s)))
                    s
                else checked (now env) s
            | None => checked (now env) s
            end
        | _ => checked (now env) s
        end
    end
  else s.

(** The callback of the monitoring interval. *)
Definition tick (v : variant) (env : Env) (users : Response (list string))
    (s : State) : State :=
  if oauthCheckInterval s && isInProgress (oauthState s)
  then checkOAuthCompletion v env users s
  else s.

(** The message listener, for the two messages that change the state. *)
Definition receive (m : bgMessage) (now : Z) (s : State) : State :=
  match m with
  | startOAuth =>
      {| oauthState :=
           {| isInProgress := true; completionData := None;
              lastCheck := Some now |};
         oauthCheckInterval := true;
         notifications := notifications s;
         store := store s |}
  | clearOAuthState =>
      {| oauthState := idle; oauthCheckInterval := false;
         notifications := notifications s; store := store s |}
  end.

(** *** The worker with its checks in flight

    The interval starts [checkOAuthCompletion] without waiting for it, and
    the check looks at [isInProgress] only when it is entered: what it
    writes when its replies arrive goes to [oauthState] as it is by then. *)

(** Where a check is suspended: in its requests to the backend, or (hosted
    worker) in the write to [chrome.storage.local] that follows a connected
    reply. *)
Inductive check :=
| Probing
| Storing (connectedUserId : string)
| Finished.

Record Live := {
  worker : State;
  checks : list check;
}.

Definition launched (store : gmap string value) : Live :=
  {| worker := loaded store; checks := [] |}.

(** The write of the hosted worker to [chrome.storage.local]. *)
Definition remembered (connectedUserId : string) (now : Z) (s : State)
  : State :=
  {| oauthState := oauthState s;
     oauthCheckInterval := oauthCheckInterval s;
     notifications := notifications s;
     store :=
       <["lastConnectionTime" := VNum now]>
         (<["lastConnectedUser" := VStr connectedUserId]> (store s)) |}.

(** The replies to the requests of a check arrive. *)
Definition probed (v : variant) (env : Env) (users : Response (list string))
    (s : State) : State * check :=
  match v with
  | Local =>
      match users with
      | HttpOk list =>
          match nonempty (firstConnected env list) with
          | Some connectedUserId =>
              (completed connectedUserId (now env) (store s) s, Finished)
          | None => (checked (now env) s, Finished)
          end
      | _ => (checked (now env) s, Finished)
      end
  | Vercel =>
      match fetch_check_completion env with
      | HttpOk completion =>
          match (if has_users completion
                 then nonempty (latest_user_id completion) else None) with
          | Some latest =>
              if answersConnected env latest
              then (remembered latest (now env) s, Storing latest)
              else (checked (now env) s, Finished)
          | None => (checked (now env) s, Finished)
          end
      | _ => (checked (now env) s, Finished)
      end
  end.

(** The interval fires: a check is entered while [isInProgress] is set. *)
Definition fire (l : Live) : Live :=
  if oauthCheckInterval (worker l) && isInProgress (oauthState (worker l))
  then {| worker := worker l; checks := (checks l ++ [Probing])%list |}
  else l.

(** The [i]-th check is resumed. *)
Definition resume (v : variant) (env : Env) (users : Response (list string))
    (i : nat) (l : Live) : Live :=
  match checks l !! i with
  | Some Probing =>
      let '(s, c) := probed v env users (worker l) in
      {| worker := s; checks := <[i := c]> (checks l) |}
  | Some (Storing connectedUserId) =>
      {| worker :=
           completed connectedUserId (now env) (store (worker l)) (worker l);
         checks := <[i := Finished]> (checks l) |}
  | Some Finished | None => l
  end.

Inductive event :=
| Message (m : bgMessage) (now : Z)
| Fire
| Resume (i : nat) (env : Env) (users : Response (list string)).

Definition step (v : variant) (l : Live) (e : event) : Live :=
  match e with
  | Message m now =>
      {| worker := receive m now (worker l); checks := checks l |}
  | Fire => fire l
  | Resume i env users => resume v env users i l
  end.

Definition run (v : variant) (events : list event) (l : Live) : Live :=
  fold_left (step v) events l.

(** What holds of the worker at all times. *)
Record invariant (s : State) : Prop := {
  not_both :
    isInProgress (oauthState s) = true -> completionData (oauthState s) = None;
  monitored :
    isInProgress (oauthState s) = true -> oauthCheckInterval s = true;
  success_only :
    forall c, completionData (oauthState s) = Some c ->
              status c = "success" /\ userId c <> "";
}.

(** The replies that make a check record [connectedUserId]. *)
Definition finds (v : variant) (env : Env) (users : Response (list string))
    (connectedUserId : string) : Prop :=
  match v with
  | Local =>
      exists list,
        users = HttpOk list
        /\ nonempty (firstConnected env list) = Some connectedUserId
  | Vercel =>
      exists completion,
        fetch_check_completion env = HttpOk completion
        /\ has_users completion = true
        /\ nonempty (latest_user_id completion) = Some connectedUserId
        /\ answersConnected env connectedUserId = true
  end.

(** No message arrives in the course of [events]. *)
Definition quiet (events : list event) : Prop :=
  Forall (fun e => match e with
                   | Message _ _ => False
                   | _ => True
                   end) events.

(** A check suspended in its write to storage has a user to record. *)
Definition named (c : check) : Prop :=
  match c with
  | Storing connectedUserId => connectedUserId <> ""
  | _ => True
  end.

(** No check is in flight. *)
Definition settled (l : Live) : Prop :=
  Forall (fun c => c = Finished) (checks l).

End Worker.

(** The reply to [getOAuthStatus], as the popup's listener reads it. *)
Definition oauthStatusOf (s : Worker.State) : OAuthStatus :=
  {| isInProgress := Worker.isInProgress (Worker.oauthState s);
     completionData :=
       match Worker.completionData (Worker.oauthState s) with
       | Some c =>
           Some {| status := Worker.status c;
                   completedUserId := Worker.userId c |}
       | None => None
       end |}.

(** The environment of a popup whose worker is in state [s]. *)
Definition withWorker (s : Worker.State) (env : Env) : Env :=
  {| fetch_root := fetch_root env;
     fetch_status := fetch_status env;
     fetch_check_completion := fetch_check_completion env;
     getOAuthStatus := Some (oauthStatusOf s);
     toDataURL := toDataURL env;
     runtime_id := runtime_id env;
     now := now env |}.

(** The worker after the messages of the popup's outbox have reached it. *)
Definition deliver (messages : list bgMessage) (now : Z) (s : Worker.State)
  : Worker.State :=
  fold_left (fun s m => Worker.receive m now s) messages s.

(** ** The completion poller, firing by firing

    [setInterval] does not wait for the callback it is given: a firing that
    is suspended in a request is still running when the timer fires again.
    The counter [attempts] and the handle [pollInterval] belong to the
    closure that all firings share.  A firing is suspended at the calls that
    the callback awaits; the methods it awaits are the functions above, run
    in the environment in which the firing is resumed. *)

Module Polling.

(** Where a firing is suspended.  The status request of the last probe is
    made for [this.userId] as it is when the request is sent. *)
Inductive firing :=
| AwaitDetectRealUser
| AwaitCheckOAuthCompletion
| AwaitStatus (id : string)
| AwaitCheckNotionConnection
| Returned.

Record State := {
  attempts : nat;
  pollInterval : bool;
  popup : Popup;
  firings : list firing;
}.

(** [startOAuthCompletionPolling]: the interval is registered. *)
Definition startOAuthCompletionPolling (p : Popup) : State :=
  {| attempts := 0; pollInterval := true; popup := p; firings := [] |}.

Definition suspend (i : nat) (f : firing) (p : Popup) (s : State) : State :=
  {| attempts := attempts s; pollInterval := pollInterval s; popup := p;
     firings := <[i := f]> (firings s) |}.

(** A firing saw a connected user: the interval is cleared, the button
    marked, and [checkNotionConnection] awaited. *)
Definition markLinked (i : nat) (p : Popup) (s : State) : State :=
  {| attempts := attempts s;
     pollInterval := false;
     popup :=
       on_ui (fun d =>
                set_connectNotion (connectedButton (connectNotion d)) d)
         p;
     firings := <[i := AwaitCheckNotionConnection]> (firings s) |}.

(** The end of a firing: [if (attempts >= maxAttempts)], on the counter as
    it is by then.  [announce] is false on the path through the [catch]
    block, which resets the button without a message. *)
Definition timeoutEnd (limit : nat) (announce : bool) (i : nat) (p : Popup)
    (s : State) : State :=
  if (limit <=? attempts s)%nat then
    let p1 :=
      on_ui (fun d => set_connectNotion (resetButton (connectNotion d)) d)
        p in
    {| attempts := attempts s;
       pollInterval := false;
       popup :=
         if announce
         then showMessage "Connection timeout. Please try again." error p1
         else p1;
       firings := <[i := Returned]> (firings s) |}
  else suspend i Returned p s.

(** The last probe: [if (this.userId)], the status of that identifier is
    requested. *)
Definition requestStatus (limit : nat) (i : nat) (p : Popup) (s : State)
  : State :=
  match nonempty (userId p) with
  | Some id => suspend i (AwaitStatus id) p s
  | None => timeoutEnd limit true i p s
  end.

(** The timer fires: the counter is incremented and the first call made.
    A cleared interval does not fire. *)
Definition fire (v : variant) (s : State) : State :=
  if pollInterval s then
    {| attempts := S (attempts s);
       pollInterval := true;
       popup := popup s;
       firings :=
         (firings s
          ++ [match v with
              | Local => AwaitDetectRealUser
              | Vercel => AwaitCheckOAuthCompletion
              end])%list |}
  else s.

(** The [i]-th firing is resumed with the replies of [env] and runs to its
    next suspension or to its end. *)
Definition resume (limit : nat) (v : variant) (env : Env) (i : nat)
    (s : State) : State :=
  match firings s !! i with
  | Some AwaitDetectRealUser =>
      let '(detectedUser, p1) := detectRealUser v env (popup s) in
      if detectedUser then markLinked i p1 s
      else
        match v with
        | Local => suspend i AwaitCheckOAuthCompletion p1 s
        | Vercel => requestStatus limit i p1 s
        end
  | Some AwaitCheckOAuthCompletion =>
      let '(oauthCompleted, p1) := checkOAuthCompletion env (popup s) in
      match v with
      | Local => requestStatus limit i p1 s
      | Vercel =>
          if oauthCompleted then markLinked i p1 s
          else suspend i AwaitDetectRealUser p1 s
      end
  | Some (AwaitStatus id) =>
      match fetch_status env id with
      | NetworkError => timeoutEnd limit false i (popup s) s
      | HttpError _ => timeoutEnd limit true i (popup s) s
      | HttpOk data =>
          if connected data then markLinked i (popup s) s
          else timeoutEnd limit true i (popup s) s
      end
  | Some AwaitCheckNotionConnection =>
      suspend i Returned (checkNotionConnection v env (popup s)) s
  | Some Returned | None => s
  end.

Inductive event :=
| Fire
| Resume (i : nat) (env : Env).

Definition step (limit : nat) (v : variant) (s : State) (e : event) : State :=
  match e with
  | Fire => fire v s
  | Resume i env => resume limit v env i s
  end.

Definition run (limit : nat) (v : variant) (events : list event) (s : State)
  : State :=
  fold_left (step limit v) events s.

(** The timer fires and the new firing, the [i]-th, runs to its end before
    anything else happens: it is resumed once in each of [envs]. *)
Definition alone (i : nat) (envs : list Env) : list event :=
  Fire :: map (Resume i) envs.

(** Firings that do not overlap: each runs to its end before the timer fires
    again.  [rounds] gives the environments in which each one is resumed;
    [i] is the number of firings started before. *)
Fixpoint inTurn (i : nat) (rounds : list (list Env)) : list event :=
  match rounds with
  | [] => []
  | envs :: rest => (alone i envs ++ inTurn (S i) rest)%list
  end.

(** The session has timed out: the interval is cleared and the connect
    button is back to its initial, enabled form. *)
Definition timedOut (s : State) : Prop :=
  pollInterval s = false
  /\ textContent (connectNotion (ui (popup s))) = "Connect to Notion"
  /\ disabled (connectNotion (ui (popup s))) = false.

(** No probe made in the course of [events] reports a link. *)
Definition unlinkedEvents (events : list event) : Prop :=
  Forall (fun e => match e with
                   | Fire => True
                   | Resume _ env => unlinked env
                   end) events.

(** A round in which no probe reports a link, long enough for its firing to
    reach its end (three suspensions). *)
Definition unlinkedRound (envs : list Env) : Prop :=
  3 <= length envs /\ Forall unlinked envs.

(** Whether an event resumes the [i]-th firing, and how many times
    [events] do. *)
Definition resumes (i : nat) (e : event) : bool :=
  match e with
  | Resume j _ => (j =? i)%nat
  | Fire => false
  end.

Definition resumptions (i : nat) (events : list event) : nat :=
  length (List.filter (resumes i) events).

(** [s] seen from a later moment of the same closure, at which the firings
    [earlier] had been started before those of [s]. *)
Definition after (earlier : list firing) (s : State) : State :=
  {| attempts := attempts s; pollInterval := pollInterval s;
     popup := popup s; firings := (earlier ++ firings s)%list |}.

(** How many resumptions a firing suspended at [f] needs at most to reach
    its end or to see a link. *)
Definition remaining (v : variant) (f : firing) : nat :=
  match f, v with
  | AwaitDetectRealUser, Local => 3
  | AwaitCheckOAuthCompletion, Local => 2
  | AwaitCheckOAuthCompletion, Vercel => 3
  | AwaitDetectRealUser, Vercel => 2
  | AwaitStatus _, _ => 1
  | AwaitCheckNotionConnection, _ => 0
  | Returned, _ => 0
  end.

End Polling.

(** ** Sample runs *)

Module Scenario.

(** [env] with the clock reading [t]. *)
Definition atTime (t : Z) (env : Env) : Env :=
  {| fetch_root := fetch_root env;
     fetch_status := fetch_status env;
     fetch_check_completion := fetch_check_completion env;
     getOAuthStatus := getOAuthStatus env;
     toDataURL := toDataURL env;
     runtime_id := runtime_id env;
     now := t |}.

(** The popup asked the worker to watch an authorisation; the interval
    fired, and the check found ["u-9"] listed as connected. *)
Definition authorised : list Worker.event :=
  [Worker.Message startOAuth 5%Z; Worker.Fire;
   Worker.Resume 0 Sample.discovered (HttpOk ["u-9"])].

(** The worker reports the completion it recorded for ["u-9"], while every
    status query answers "not connected". *)
Definition reported : Env :=
  withWorker (Worker.worker (Worker.run Local authorised (Worker.launched ∅)))
    Sample.notConnected.

(** A worker that has just been asked to watch. *)
Definition watching : Worker.State :=
  Worker.receive startOAuth 5%Z (Worker.loaded ∅).

(** Services whose summarizer answers, whose user accepts the detected
    category, and whose save route answers [saveReply]. *)
Definition services (saveReply : Posted string) : Services :=
  {| summarize_and_categorize :=
       fun _ _ _ =>
         PostOk {| summary := "A summary"; category := "Technology" |};
     notion_save := fun _ => saveReply;
     fetchFailure := "Failed to fetch";
     chooseCategory := fun detected => Some detected |}.

Definition tab : Tab :=
  {| url := "https://example.org/post"; title := "A post" |}.

End Scenario.
(** * Properties *)

(** ** Strings and the temporary identifier *)

Example btoa_Man : Base64.btoa "Man" = "TWFu".
Proof. reflexivity. Qed.

Example btoa_hello : Base64.btoa "hello" = "aGVsbG8=".
Proof. reflexivity. Qed.

Example btoa_M : Base64.btoa "M" = "TQ==".
Proof. reflexivity. Qed.

Lemma length_string_of_list (l : list ascii) :
  String.length (string_of_list_ascii l) = length l.
Proof. induction l as [|c l IH]; simpl; [done | by rewrite IH]. Qed.

Lemma length_list_of_string (s : string) :
  length (list_ascii_of_string s) = String.length s.
Proof. induction s as [|c s IH]; simpl; [done | by rewrite IH]. Qed.

Lemma length_append (s t : string) :
  String.length (s +:+ t) = String.length s + String.length t.
Proof. induction s as [|c s IH]; simpl; [done | by rewrite IH]. Qed.

Lemma length_substring_0 (n : nat) (s : string) :
  String.length (substring 0 n s) = n `min` String.length s.
Proof.
  revert s. induction n as [|n IH]; intros [|c s]; simpl; try done.
  by rewrite IH.
Qed.

Lemma prefix_length (s t : string) :
  String.prefix s t = true -> String.length s <= String.length t.
Proof.
  revert t. induction s as [|c s IH]; intros [|d t]; simpl; try lia; try done.
  destruct (ascii_dec c d); [|done]. intros H. apply IH in H. lia.
Qed.

(** Lists taken three elements at a time, as the encoder reads them. *)
Lemma list_ind3 {A} (P : list A -> Prop) :
  P [] -> (forall a, P [a]) -> (forall a b, P [a; b]) ->
  (forall a b c l, P l -> P (a :: b :: c :: l)) ->
  forall l, P l.
Proof.
  intros H0 H1 H2 H3 l.
  cut (P l /\ (forall a, P (a :: l)) /\ (forall a b, P (a :: b :: l))).
  { tauto. }
  induction l as [|x l (IHa & IHb & IHc)]; repeat split; auto.
Qed.

Lemma encode_length (l : list ascii) :
  length (Base64.encode l) = 4 * ((length l + 2) `div` 3).
Proof.
  induction l as [| a | a b | a b c l IH] using list_ind3; try reflexivity.
  cbn [Base64.encode length]. rewrite IH.
  replace (S (S (S (length l))) + 2) with ((length l + 2) + 1 * 3) by lia.
  rewrite Nat.div_add by lia. lia.
Qed.

Lemma btoa_length (s : string) :
  String.length (Base64.btoa s) = 4 * ((String.length s + 2) `div` 3).
Proof.
  unfold Base64.btoa.
  by rewrite length_string_of_list, encode_length, length_list_of_string.
Qed.

(** Whatever the fingerprint, the temporary identifier has at most sixteen
    characters. *)
Lemma temporaryId_length_le env : String.length (temporaryId env) <= 16.
Proof. unfold temporaryId. rewrite length_substring_0. lia. Qed.

Lemma temporaryId_length env :
  10 <= String.length (toDataURL env +:+ extensionId env) ->
  String.length (temporaryId env) = 16.
Proof.
  intros H. unfold temporaryId. rewrite length_substring_0, btoa_length.
  assert (4 <= (String.length (toDataURL env +:+ extensionId env) + 2) `div` 3).
  { apply Nat.div_le_lower_bound; lia. }
  lia.
Qed.

(** The guards of [init] reject every identifier of at most sixteen
    characters, so the temporary identifier never passes them. *)
Lemma short_id_not_recognised (u : option string) :
  (forall s, u = Some s -> String.length s <= 16) ->
  worthVerifying u = false /\ needsAuthentication u = true.
Proof.
  intros H. unfold worthVerifying, needsAuthentication.
  destruct u as [s|]; [|done]. specialize (H s eq_refl).
  simpl. destruct (String.eqb s ""); [done|].
  split; [apply Nat.ltb_ge | apply Nat.ltb_lt]; lia.
Qed.

(** ** Frames *)

(** The projection writes the two buttons and nothing else. *)
Lemma updateUIState_frame p :
  sameLinkState p (updateUIState p)
  /\ banner (ui (updateUIState p)) = banner (ui p).
Proof.
  unfold updateUIState.
  destruct (isConnectedToNotion p); [|case_bool_decide]; by repeat split.
Qed.

Lemma updateUIState_sync p : sync (updateUIState p) = sync p.
Proof. apply updateUIState_frame. Qed.

Lemma updateUIState_userId p : userId (updateUIState p) = userId p.
Proof. apply updateUIState_frame. Qed.

Lemma updateUIState_statusClass p :
  statusClass (ui (updateUIState p)) = statusClass (ui p).
Proof. apply updateUIState_frame. Qed.

Create Rewrite HintDb frame.

#[local] Hint Rewrite
  updateUIState_sync updateUIState_userId updateUIState_statusClass : frame.

Lemma remove_keys_lookup (keys : list string) (m : gmap string value) k :
  k ∈ keys -> remove_keys keys m !! k = None.
Proof.
  unfold remove_keys. induction keys as [|k' keys IH]; simpl.
  - by intros ?%elem_of_nil.
  - intros [->|Hin]%elem_of_cons.
    + apply lookup_delete_eq.
    + destruct (decide (k' = k)) as [->|Hne].
      * apply lookup_delete_eq.
      * rewrite lookup_delete_ne by done. auto.
Qed.

Lemma remove_keys_lookup_other (keys : list string) (m : gmap string value)
    k :
  k ∉ keys -> remove_keys keys m !! k = m !! k.
Proof.
  unfold remove_keys. induction keys as [|k' keys IH]; simpl; [done|].
  intros [Hne Hnin]%not_elem_of_cons.
  rewrite lookup_delete_ne by done. auto.
Qed.

Lemma showDisconnectedState_spec p :
  let p' := showDisconnectedState p in
  confirmed p' = false
  /\ sync p' = remove_keys ["openaiApiKey"; "openaiKeyValid"] (sync p)
  /\ userId p' = userId p
  /\ localStore p' = localStore p.
Proof.
  unfold showDisconnectedState, clearStoredSettings, confirmed,
    hasConnectedClass.
  cbn -[updateUIState remove_keys]. autorewrite with frame.
  repeat split.
Qed.

Lemma credential_cleared (m : gmap string value) :
  remove_keys ["openaiApiKey"; "openaiKeyValid"] m !! "openaiApiKey" = None
  /\ remove_keys ["openaiApiKey"; "openaiKeyValid"] m !! "openaiKeyValid"
     = None.
Proof. split; apply remove_keys_lookup; set_solver. Qed.

Lemma credential_cleared_userId (m : gmap string value) :
  remove_keys ["openaiApiKey"; "openaiKeyValid"] m !! "userId" = m !! "userId".
Proof.
  apply remove_keys_lookup_other.
  intros [H|[H|H%elem_of_nil]%elem_of_cons]%elem_of_cons; done.
Qed.

Lemma generateUserId_fresh env p :
  sync p !! "userId" = None ->
  generateUserId env p = set_userId (Some (temporaryId env)) p.
Proof. intros H. unfold generateUserId, loadStoredUserId. by rewrite H. Qed.

Lemma forceDisconnectedState_spec env p :
  let p' := forceDisconnectedState env p in
  confirmed p' = false
  /\ sync p' = remove_keys ["openaiApiKey"; "openaiKeyValid"]
                 (remove_keys ["userId"] (sync p))
  /\ userId p' = Some (temporaryId env)
  /\ localStore p' = localStore p.
Proof.
  unfold forceDisconnectedState.
  rewrite generateUserId_fresh by (apply remove_keys_lookup; set_solver).
  unfold clearStoredSettings, confirmed, hasConnectedClass.
  cbn -[updateUIState remove_keys]. autorewrite with frame.
  repeat split.
Qed.

(** ** The temporary identifier *)

(** C9. When no identifier is stored, [loadStoredUserId] generates one from
    the canvas data URL and the extension id; it has exactly sixteen
    characters, so it fails the length test that lets a stored identifier be
    verified (more than 20) and meets the one that forces the disconnected
    display (fewer than 30): it is never taken for a linked identity. *)
Theorem temporary_id_never_recognised (env : Env) (p : Popup) :
  getStoredUserId p = None ->
  String.prefix "data:image/png;base64," (toDataURL env) = true ->
  exists t,
    userId (loadStoredUserId env p) = Some t
    /\ t = substring 0 16 (Base64.btoa (toDataURL env +:+ extensionId env))
    /\ String.length t = 16
    /\ worthVerifying (Some t) = false
    /\ needsAuthentication (Some t) = true
    /\ confirmed (requireAuthentication (loadStoredUserId env p)) = false.
Proof.
  intros Hnone Hurl. exists (temporaryId env).
  unfold loadStoredUserId, getStoredUserId in *. rewrite Hnone.
  cbn [userId set_userId].
  split; [done|]. split; [done|].
  assert (Hlen : String.length (temporaryId env) = 16).
  { apply temporaryId_length. rewrite length_append.
    apply prefix_length in Hurl. simpl in Hurl. lia. }
  split; [done|].
  destruct (short_id_not_recognised (Some (temporaryId env))) as [Hw Hn].
  { intros s [= <-]. lia. }
  split; [done|]. split; [done|].
  unfold requireAuthentication. cbn [userId set_userId]. rewrite Hn.
  unfold confirmed, hasConnectedClass.
  by rewrite updateUIState_statusClass.
Qed.

Lemma temporary_id_never_recognised_witness :
  getStoredUserId Sample.fresh = None
  /\ String.prefix "data:image/png;base64," (toDataURL Sample.offline) = true
  /\ exists t,
       userId (loadStoredUserId Sample.offline Sample.fresh) = Some t
       /\ t = substring 0 16
                (Base64.btoa
                   (toDataURL Sample.offline +:+ extensionId Sample.offline))
       /\ String.length t = 16
       /\ worthVerifying (Some t) = false
       /\ needsAuthentication (Some t) = true
       /\ confirmed
            (requireAuthentication
               (loadStoredUserId Sample.offline Sample.fresh)) = false.
Proof.
  split; [reflexivity|]. split; [reflexivity|].
  apply (temporary_id_never_recognised Sample.offline Sample.fresh);
    reflexivity.
Defined.

(** ** Reconciliation *)

Lemma detectRealUser_unchanged_or_set v env p :
  detectRealUser v env p = (false, p)
  \/ exists latest data,
       fetch_status env latest = HttpOk data /\ connected data = true
       /\ detectRealUser v env p = (true, setNotionUserId latest p).
Proof.
  unfold detectRealUser.
  destruct (fetch_check_completion env) as [| |chk]; auto.
  destruct (if has_users chk then _ else _) as [latest|]; auto.
  destruct (match v with Local => _ | Vercel => _ end); auto.
  destruct (fetch_status env latest) as [| |data] eqn:E; auto.
  destruct (connected data) eqn:C; [right; by exists latest, data | auto].
Qed.

(** C1, as the code has it.  A failed status query is not a no-op in
    [checkNotionConnection]: on a network error the link is shown as
    disconnected and the stored credential is cleared, while the identifier
    stays; on a non-success HTTP status the stored identifier is removed as
    well and the temporary one takes its place in memory.  Only
    [detectRealUser] leaves the state untouched (and answers false) when one
    of its queries fails. *)
Theorem failed_status_query (v : variant) (env : Env) (p : Popup)
    (id : string) :
  nonempty (userId p) = Some id ->
  (fetch_status env id = NetworkError ->
   let p' := checkNotionConnection v env p in
   confirmed p' = false
   /\ userId p' = userId p
   /\ sync p' !! "userId" = sync p !! "userId"
   /\ sync p' !! "openaiApiKey" = None
   /\ sync p' !! "openaiKeyValid" = None)
  /\ (forall code, fetch_status env id = HttpError code ->
      let p' := checkNotionConnection v env p in
      confirmed p' = false
      /\ userId p' = Some (temporaryId env)
      /\ sync p' !! "userId" = None
      /\ sync p' !! "openaiApiKey" = None
      /\ sync p' !! "openaiKeyValid" = None)
  /\ (failed (fetch_check_completion env)
      \/ (forall candidate, failed (fetch_status env candidate)) ->
      detectRealUser v env p = (false, p)).
Proof.
  intros Hid. unfold checkNotionConnection. rewrite Hid.
  split; [|split].
  - intros ->. cbv zeta.
    destruct (showDisconnectedState_spec p) as (Hc & Hs & Hu & _).
    rewrite Hc, Hs, Hu, credential_cleared_userId.
    destruct (credential_cleared (sync p)). by repeat split.
  - intros code ->. cbv zeta.
    destruct (showDisconnectedState_spec (forceDisconnectedState env p))
      as (Hc & Hs & Hu & _).
    destruct (forceDisconnectedState_spec env p) as (_ & Hs' & Hu' & _).
    rewrite Hc, Hs, Hu, Hs', Hu', credential_cleared_userId.
    destruct (credential_cleared
                (remove_keys ["openaiApiKey"; "openaiKeyValid"]
                   (remove_keys ["userId"] (sync p)))).
    repeat split; try done.
    rewrite credential_cleared_userId. apply remove_keys_lookup. set_solver.
  - intros Hfail.
    destruct (detectRealUser_unchanged_or_set v env p)
      as [E|(latest & data & Hst & _ & E)]; [done|].
    destruct Hfail as [Hfail|Hfail].
    + unfold detectRealUser in E.
      destruct (fetch_check_completion env); [done|done|destruct Hfail].
    + specialize (Hfail latest). rewrite Hst in Hfail. destruct Hfail.
Qed.

Lemma failed_status_query_witness :
  nonempty (userId Sample.linkedPopup) = Some Sample.user
  /\ fetch_status Sample.statusFails Sample.user = HttpError 503
  /\ (let p' :=
        checkNotionConnection Vercel Sample.statusFails Sample.linkedPopup in
      confirmed p' = false
      /\ userId p' = Some (temporaryId Sample.statusFails)
      /\ sync p' !! "userId" = None
      /\ sync p' !! "openaiApiKey" = None
      /\ sync p' !! "openaiKeyValid" = None).
Proof.
  split; [reflexivity|]. split; [reflexivity|].
  exact (proj1 (proj2 (failed_status_query Vercel Sample.statusFails
                         Sample.linkedPopup Sample.user eq_refl))
           503%Z eq_refl).
Defined.

(** C1 fails on the code: a popup linked as [Sample.user] whose status query
    is answered with HTTP 503, or not answered at all, is no longer confirmed
    after [checkNotionConnection]; after the 503 its stored identifier is
    gone too. *)
Lemma failed_query_demotes :
  confirmed Sample.linkedPopup = true
  /\ remoteId Sample.linkedPopup = Some Sample.user
  /\ fetch_status Sample.statusFails Sample.user = HttpError 503
  /\ (let p' :=
        checkNotionConnection Local Sample.statusFails Sample.linkedPopup in
      confirmed p' = false /\ remoteId p' = None)
  /\ fetch_status Sample.offline Sample.user = NetworkError
  /\ (let p' :=
        checkNotionConnection Local Sample.offline Sample.linkedPopup in
      confirmed p' = false).
Proof. repeat split; vm_compute; reflexivity. Qed.

(** C2, as the code has it.  When the status query for the identifier held
    answers "not connected", [checkNotionConnection] leaves the link
    unconfirmed.  With the reason [invalid_token] or [no_token] it removes
    the stored identifier, and the identifier in memory is the regenerated
    temporary one, unless the reply also asks to clear the extension
    storage, in which case none is held.  With that action, whatever the
    reason, the stored identifier is removed and none is held.  With any
    other reason and no such action, the identifier is kept, in storage and
    in memory. *)
Theorem revoke_convergence (v : variant) (env : Env) (p : Popup)
    (R : string) (data : StatusData) :
  nonempty (userId p) = Some R ->
  fetch_status env R = HttpOk data ->
  connected data = false ->
  let p' := checkNotionConnection v env p in
  let clears := bool_decide (action data = Some "clear_extension_storage") in
  confirmed p' = false
  /\ (tokenRejected data = true ->
      sync p' !! "userId" = None
      /\ remoteId p' = None
      /\ userId p' = if clears then None else Some (temporaryId env))
  /\ (clears = true ->
      sync p' !! "userId" = None
      /\ remoteId p' = None
      /\ userId p' = None)
  /\ (tokenRejected data = false -> clears = false ->
      sync p' !! "userId" = sync p !! "userId"
      /\ remoteId p' = remoteId p
      /\ userId p' = userId p).
Proof.
  intros Hid Hst Hc. cbv zeta. unfold checkNotionConnection.
  rewrite Hid, Hst, Hc.
  match goal with |- context [showDisconnectedState ?q] =>
    destruct (showDisconnectedState_spec q) as (Hc' & Hs' & Hu' & _);
    set (p2 := q) in *
  end.
  cbv zeta in Hc', Hs', Hu'.
  assert (Hrem : remoteId (showDisconnectedState p2)
                 = stored_string (sync p2 !! "userId")).
  { unfold remoteId, getStoredUserId.
    by rewrite Hs', credential_cleared_userId. }
  assert (Hkey : sync (showDisconnectedState p2) !! "userId"
                 = sync p2 !! "userId").
  { by rewrite Hs', credential_cleared_userId. }
  rewrite Hrem, Hkey, Hu'. clear Hrem Hkey Hu' Hs'.
  split; [done|].
  assert (Hdrop :
    forall q, sync q = remove_keys ["userId"] (sync p) ->
              sync q !! "userId" = None).
  { intros q ->. apply remove_keys_lookup. set_solver. }
  split; [|split].
  - intros Hrej. subst p2. rewrite Hrej.
    rewrite generateUserId_fresh by (apply remove_keys_lookup; set_solver).
    destruct v; case_bool_decide; cbn -[remove_keys];
      rewrite ?credential_cleared_userId;
      rewrite ?(remove_keys_lookup ["userId"; "openaiApiKey"; "openaiKeyValid"])
        by set_solver;
      rewrite ?(remove_keys_lookup ["userId"]) by set_solver;
      done.
  - intros Hclear. subst p2. rewrite Hclear.
    match goal with |- context [clearExtensionStorage ?q] =>
      generalize q end.
    intros q. cbn -[remove_keys].
    rewrite (remove_keys_lookup ["userId"; "openaiApiKey"; "openaiKeyValid"])
      by set_solver.
    done.
  - intros Hrej Hclear. subst p2. rewrite Hrej, Hclear. done.
Qed.

Lemma revoke_convergence_witness :
  let data := Sample.answer false (Some "invalid_token") in
  nonempty (userId Sample.linkedPopup) = Some Sample.user
  /\ fetch_status Sample.revoked Sample.user = HttpOk data
  /\ connected data = false
  /\ tokenRejected data = true
  /\ (let p' :=
        checkNotionConnection Local Sample.revoked Sample.linkedPopup in
      confirmed p' = false
      /\ sync p' !! "userId" = None
      /\ remoteId p' = None
      /\ userId p' = Some (temporaryId Sample.revoked)).
Proof.
  cbv zeta.
  split; [reflexivity|]. split; [reflexivity|]. split; [reflexivity|].
  split; [reflexivity|].
  destruct (revoke_convergence Local Sample.revoked Sample.linkedPopup
              Sample.user (Sample.answer false (Some "invalid_token"))
              eq_refl eq_refl eq_refl)
    as (Hc & Hrej & _).
  destruct (Hrej eq_refl) as (Hs & Hr & Hu).
  split; [exact Hc|]. split; [exact Hs|]. split; [exact Hr|]. exact Hu.
Defined.

(** C2 fails on the code: a popup linked as [Sample.user] whose status query
    answers "not connected" without one of the two reasons keeps that
    identifier, in storage and in memory. *)
Lemma revoke_without_reason_keeps_id :
  confirmed Sample.linkedPopup = true
  /\ remoteId Sample.linkedPopup = Some Sample.user
  /\ fetch_status Sample.notConnected Sample.user
     = HttpOk (Sample.answer false None)
  /\ (let p' :=
        checkNotionConnection Local Sample.notConnected Sample.linkedPopup in
      remoteId p' = Some Sample.user /\ userId p' = Some Sample.user)
  /\ (let p' :=
        checkNotionConnection Vercel Sample.notConnected Sample.linkedPopup in
      remoteId p' = Some Sample.user /\ userId p' = Some Sample.user).
Proof. repeat split; vm_compute; reflexivity. Qed.

Lemma setNotionUserId_twice id p :
  setNotionUserId id (setNotionUserId id p) = setNotionUserId id p.
Proof.
  unfold setNotionUserId, set_sync, set_userId. cbn.
  by rewrite insert_insert_eq.
Qed.

Lemma showConnectedState_spec w p :
  let p' := showConnectedState w p in
  confirmed p' = true /\ sync p' = sync p /\ userId p' = userId p.
Proof.
  unfold showConnectedState. cbv zeta.
  match goal with |- context [updateUIState ?q] =>
    destruct (updateUIState_frame q) as [[] _]; set (p1 := q) in *
  end.
  assert (Hcls : statusClass (ui p1) = {["status"; "connected"]}) by done.
  unfold confirmed, hasConnectedClass.
  destruct (wasConnected (ui (updateUIState p1))); cbn -[updateUIState];
    rewrite ?same_statusClass0, ?Hcls, ?same_sync0, ?same_userId0; done.
Qed.

Lemma missed_oauth_statusClass env p :
  statusClass (ui (snd (checkForMissedOAuth env p))) = statusClass (ui p).
Proof.
  unfold checkForMissedOAuth.
  repeat case_match; cbn -[updateUIState]; try done.
  by rewrite updateUIState_statusClass.
Qed.

(** C3, as the code has it.  When the completion check proposes a candidate
    [C] and the status query for [C] answers "connected", [detectRealUser]
    answers true and makes [C] the identifier in memory and in storage; in
    the hosted build only when [C] is not the identifier already held in
    memory, and otherwise it answers false and changes nothing.
    [detectRealUser] does not touch the confirmation: the link is confirmed
    by the [checkNotionConnection] that the poller runs after a detection,
    when the status of [C] still answers "connected"; the hosted refresh
    skips that check after a detection and leaves the confirmation as it
    was. *)
Theorem discovery_promotion (v : variant) (env : Env) (p : Popup)
    (check : CompletionCheck) (C : string) (data : StatusData) :
  fetch_check_completion env = HttpOk check ->
  has_users check = true ->
  nonempty (latest_user_id check) = Some C ->
  fetch_status env C = HttpOk data ->
  connected data = true ->
  let r := detectRealUser v env p in
  let held :=
    match v with
    | Local => false
    | Vercel => bool_decide (userId p = Some C)
    end in
  (held = true -> r = (false, p))
  /\ (held = false ->
      fst r = true
      /\ userId (snd r) = Some C
      /\ sync (snd r) !! "userId" = Some (VStr C)
      /\ remoteId (snd r) = Some C
      /\ confirmed (snd r) = confirmed p
      /\ (forall env' data' n,
            fetch_status env' C = HttpOk data' -> connected data' = true ->
            let s := linked v env' n (snd r) in
            pollInterval s = false
            /\ confirmed (popup s) = true
            /\ userId (popup s) = Some C
            /\ remoteId (popup s) = Some C)
      /\ (v = Vercel -> fetch_root env = HttpOk () ->
          confirmed (checkAllConnections Vercel env p) = confirmed p)).
Proof.
  intros Hchk Hhas Hlatest Hst Hconn. cbv zeta.
  assert (HC : nonempty (Some C) = Some C).
  { destruct (latest_user_id check) as [s|]; [|done]. simpl in Hlatest.
    destruct (String.eqb s "") eqn:E; [done|]. injection Hlatest as ->.
    simpl. by rewrite E. }
  assert (Hdetect : forall q,
            match v with
            | Local => false
            | Vercel => bool_decide (userId q = Some C)
            end = false ->
            detectRealUser v env q = (true, setNotionUserId C q)).
  { intros q Hq. unfold detectRealUser. rewrite Hchk, Hhas, Hlatest, Hq.
    by rewrite Hst, Hconn. }
  split.
  { intros Hheld. unfold detectRealUser. rewrite Hchk, Hhas, Hlatest.
    by rewrite Hheld. }
  intros Hheld. rewrite (Hdetect p Hheld). cbn [fst snd].
  assert (Hrem : forall q,
            sync q !! "userId" = Some (VStr C) -> remoteId q = Some C).
  { intros q Hq. unfold remoteId, getStoredUserId. rewrite Hq.
    simpl in *. destruct (String.eqb C ""); done. }
  assert (Hsync : sync (setNotionUserId C p) !! "userId" = Some (VStr C)).
  { apply lookup_insert_eq. }
  split; [done|]. split; [done|]. split; [done|]. split; [by apply Hrem|].
  split; [done|]. split.
  - intros env' data' n Hst' Hconn'.
    unfold linked, checkNotionConnection. cbn [popup pollInterval].
    cbn [userId on_ui set_ui setNotionUserId set_sync set_userId].
    rewrite HC, Hst', Hconn'.
    match goal with |- context [showConnectedState ?w ?q] =>
      destruct (showConnectedState_spec w q) as (Hc' & Hs' & Hu') end.
    cbv zeta in Hc', Hs', Hu'.
    split; [done|]. split; [done|]. split; [by rewrite Hu'|].
    apply Hrem. by rewrite Hs'.
  - intros -> Hroot. unfold checkAllConnections, testBackendConnection.
    rewrite Hroot. rewrite (Hdetect (set_backendConnected true p)) by done.
    match goal with |- context [checkForMissedOAuth env ?q] =>
      generalize (missed_oauth_statusClass env q) end.
    unfold confirmed, hasConnectedClass. by intros ->.
Qed.

Lemma discovery_promotion_witness :
  let check := {| has_users := true; latest_user_id := Some "u-9" |} in
  let data :=
    {| connected := true; reason := None; action := None; message := None;
       workspace_name := Some "Acme" |} in
  fetch_check_completion Sample.discovered = HttpOk check
  /\ nonempty (latest_user_id check) = Some "u-9"
  /\ fetch_status Sample.discovered "u-9" = HttpOk data
  /\ (let r := detectRealUser Vercel Sample.discovered Sample.fresh in
      fst r = true
      /\ userId (snd r) = Some "u-9"
      /\ sync (snd r) !! "userId" = Some (VStr "u-9")
      /\ remoteId (snd r) = Some "u-9"
      /\ confirmed (snd r) = confirmed Sample.fresh
      /\ forall n,
           let s := linked Vercel Sample.discovered n (snd r) in
           pollInterval s = false
           /\ confirmed (popup s) = true
           /\ userId (popup s) = Some "u-9"
           /\ remoteId (popup s) = Some "u-9").
Proof.
  cbv zeta.
  split; [reflexivity|]. split; [reflexivity|]. split; [reflexivity|].
  destruct (discovery_promotion Vercel Sample.discovered Sample.fresh
              {| has_users := true; latest_user_id := Some "u-9" |} "u-9"
              {| connected := true; reason := None; action := None;
                 message := None; workspace_name := Some "Acme" |}
              eq_refl eq_refl eq_refl eq_refl eq_refl)
    as (_ & H).
  destruct (H eq_refl) as (H1 & H2 & H3 & H4 & H5 & H6 & _).
  split; [exact H1|]. split; [exact H2|]. split; [exact H3|].
  split; [exact H4|]. split; [exact H5|].
  intros n. exact (H6 Sample.discovered _ n eq_refl eq_refl).
Defined.

(** C3 fails on the code.  With nothing stored, a candidate whose status is
    connected is stored by [detectRealUser] but the link is not confirmed,
    and it stays unconfirmed through the hosted refresh; and when the hosted
    popup already holds the candidate in memory, nothing is stored at
    all. *)
Lemma discovery_alone_is_unconfirmed :
  remoteId Sample.fresh = None
  /\ (let q := snd (detectRealUser Local Sample.discovered Sample.fresh) in
      remoteId q = Some "u-9" /\ confirmed q = false)
  /\ (let q := snd (detectRealUser Vercel Sample.discovered Sample.fresh) in
      remoteId q = Some "u-9" /\ confirmed q = false)
  /\ (let q := checkAllConnections Vercel Sample.discovered Sample.fresh in
      remoteId q = Some "u-9" /\ confirmed q = false)
  /\ (let p := set_userId (Some "u-9") Sample.fresh in
      remoteId p = None
      /\ detectRealUser Vercel Sample.discovered p = (false, p)).
Proof. repeat split; vm_compute; reflexivity. Qed.

(** C5. Under one environment, running [detectRealUser] on its own result
    changes nothing further: the state after two runs is the state after
    one.  In the localhost build the answer is the same as well. *)
Theorem detectRealUser_idempotent (v : variant) (env : Env) (p : Popup) :
  snd (detectRealUser v env (snd (detectRealUser v env p)))
  = snd (detectRealUser v env p)
  /\ (v = Local ->
      detectRealUser v env (snd (detectRealUser v env p))
      = detectRealUser v env p).
Proof.
  destruct (detectRealUser_unchanged_or_set v env p)
    as [E|(latest & data & Hst & Hc & E)].
  - rewrite E. cbn [snd]. rewrite E. done.
  - rewrite E. cbn [snd].
    destruct (detectRealUser_unchanged_or_set v env
                (setNotionUserId latest p))
      as [E'|(latest' & data' & Hst' & Hc' & E')].
    + rewrite E'. split; [done|]. intros ->.
      unfold detectRealUser in E, E'.
      destruct (fetch_check_completion env) as [| |chk]; try done.
      destruct (if has_users chk then _ else _) as [l|]; try done.
      destruct (fetch_status env l) as [| |d]; try done.
      destruct (connected d); done.
    + rewrite E'.
      assert (latest' = latest) as ->.
      { unfold detectRealUser in E, E'.
        destruct (fetch_check_completion env) as [| |chk]; try done.
        destruct (if has_users chk then _ else _) as [l|]; try done.
        repeat case_match; simplify_eq; done. }
      by rewrite setNotionUserId_twice.
Qed.

Lemma hasValidOpenaiKey_iff p :
  hasValidOpenaiKey p = true <->
  exists k, sync p !! "openaiApiKey" = Some (VStr k)
            /\ blank k = false
            /\ sync p !! "openaiKeyValid" = Some (VBool true).
Proof.
  unfold hasValidOpenaiKey, isOpenaiKeyValid. split.
  - destruct (sync p !! "openaiApiKey") as [[k| |]|]; try done.
    destruct (sync p !! "openaiKeyValid") as [[|[]|]|];
      rewrite ?andb_false_r; try done.
    intros [[_ Hb%negb_true_iff]%andb_prop _]%andb_prop. by exists k.
  - intros (k & -> & Hb & ->). rewrite Hb.
    destruct k; [done|]. done.
Qed.

Lemma summarizeBtn_updateUIState p :
  summarizeBtn (ui (updateUIState p))
  = negb (backendConnected p && hasConnectedClass p && hasValidOpenaiKey p).
Proof.
  unfold updateUIState, isConnectedToNotion.
  destruct (backendConnected p), (hasConnectedClass p); cbn;
    try case_bool_decide; done.
Qed.

(** C6, as the code has it.  The projection enables the summarize action
    exactly when the backend was last seen reachable, the link is confirmed,
    and a credential that is not blank is stored together with its validity
    flag. *)
Theorem canAct_spec (p : Popup) :
  canAct p = backendConnected p && confirmed p && hasValidOpenaiKey p
  /\ (canAct p = true <->
      backendConnected p = true
      /\ confirmed p = true
      /\ exists k, sync p !! "openaiApiKey" = Some (VStr k)
                   /\ blank k = false
                   /\ sync p !! "openaiKeyValid" = Some (VBool true)).
Proof.
  assert (E : canAct p
              = backendConnected p && confirmed p && hasValidOpenaiKey p).
  { unfold canAct, confirmed. rewrite summarizeBtn_updateUIState.
    apply negb_involutive. }
  split; [done|]. rewrite E, <- hasValidOpenaiKey_iff.
  rewrite !andb_true_iff. tauto.
Qed.

(** With the backend reachable and a credential as [saveSettings] stores it,
    the projection is the conjunction of the confirmed flag and the validity
    flag. *)
Lemma canAct_when_backend_up (p : Popup) :
  backendConnected p = true ->
  credentialStored p ->
  canAct p = confirmed p && isOpenaiKeyValid p.
Proof.
  intros Hb Hstored. unfold canAct, confirmed.
  rewrite summarizeBtn_updateUIState, negb_involutive, Hb. cbn.
  f_equal. destruct (isOpenaiKeyValid p) eqn:Hv.
  - apply hasValidOpenaiKey_iff. destruct (Hstored Hv) as (k & Hk & Hk').
    exists k. repeat split; try done.
    unfold isOpenaiKeyValid in Hv.
    destruct (sync p !! "openaiKeyValid") as [[|[]|]|]; done.
  - unfold hasValidOpenaiKey. rewrite Hv.
    destruct (sync p !! "openaiApiKey") as [[k| |]|]; try done.
    apply andb_false_r.
Qed.

(** C6 fails on the code: with a confirmed link and a valid credential the
    action stays disabled while the backend is marked unreachable. *)
Lemma canAct_needs_backend :
  confirmed Sample.linkedBackendDown = true
  /\ hasValidOpenaiKey Sample.linkedBackendDown = true
  /\ isOpenaiKeyValid Sample.linkedBackendDown = true
  /\ canAct Sample.linkedBackendDown = false.
Proof. repeat split; vm_compute; reflexivity. Qed.

Lemma connectNotion_updateUIState p :
  connectNotion (ui (updateUIState p))
  = if backendConnected p && hasConnectedClass p
    then connectedButton (connectNotion (ui p))
    else if bool_decide ("connecting" ∈ classList (connectNotion (ui p)))
         then connectNotion (ui p)
         else resetButton (connectNotion (ui p)).
Proof.
  unfold updateUIState, isConnectedToNotion.
  destruct (backendConnected p && hasConnectedClass p); cbn;
    try case_bool_decide; done.
Qed.

(** C7, as the code has it.  The projection writes its result into the two
    buttons and touches nothing else.  That result is determined by the
    backend flag, the confirmed flag, the stored credential with its validity
    flag, and the connect button as it was: two popups that agree on these
    get the same buttons, whatever else differs. *)
Theorem projection_deterministic (p q : Popup) :
  backendConnected p = backendConnected q ->
  confirmed p = confirmed q ->
  sync p !! "openaiApiKey" = sync q !! "openaiApiKey" ->
  sync p !! "openaiKeyValid" = sync q !! "openaiKeyValid" ->
  connectNotion (ui p) = connectNotion (ui q) ->
  summarizeBtn (ui (updateUIState p)) = summarizeBtn (ui (updateUIState q))
  /\ connectNotion (ui (updateUIState p))
     = connectNotion (ui (updateUIState q))
  /\ canAct p = canAct q
  /\ sameLinkState p (updateUIState p)
  /\ banner (ui (updateUIState p)) = banner (ui p).
Proof.
  unfold confirmed, canAct. intros Hb Hc Hk Hv Hbtn.
  rewrite !summarizeBtn_updateUIState, !connectNotion_updateUIState.
  assert (hasValidOpenaiKey p = hasValidOpenaiKey q) as ->.
  { unfold hasValidOpenaiKey, isOpenaiKeyValid. by rewrite Hk, Hv. }
  rewrite Hb, Hc, Hbtn. repeat split; apply updateUIState_frame.
Qed.

Lemma projection_deterministic_witness :
  backendConnected Sample.linkedPopup
  = backendConnected (set_userId None Sample.linkedPopup)
  /\ connectNotion (ui Sample.linkedPopup)
     = connectNotion (ui (set_userId None Sample.linkedPopup))
  /\ summarizeBtn (ui (updateUIState Sample.linkedPopup))
     = summarizeBtn (ui (updateUIState (set_userId None Sample.linkedPopup)))
  /\ connectNotion (ui (updateUIState Sample.linkedPopup))
     = connectNotion
         (ui (updateUIState (set_userId None Sample.linkedPopup)))
  /\ canAct Sample.linkedPopup = canAct (set_userId None Sample.linkedPopup)
  /\ sameLinkState Sample.linkedPopup (updateUIState Sample.linkedPopup)
  /\ banner (ui (updateUIState Sample.linkedPopup))
     = banner (ui Sample.linkedPopup).
Proof.
  split; [reflexivity|]. split; [reflexivity|].
  apply (projection_deterministic Sample.linkedPopup
           (set_userId None Sample.linkedPopup)); reflexivity.
Defined.

(** C7 fails on the code: two popups with the same identity and the same
    credential get different projections when only one of them has the
    backend marked reachable. *)
Lemma projection_depends_on_backend :
  userId Sample.linkedBackendDown = userId Sample.linkedPopup
  /\ sync Sample.linkedBackendDown = sync Sample.linkedPopup
  /\ confirmed Sample.linkedBackendDown = confirmed Sample.linkedPopup
  /\ hasValidOpenaiKey Sample.linkedBackendDown
     = hasValidOpenaiKey Sample.linkedPopup
  /\ canAct Sample.linkedPopup = true
  /\ canAct Sample.linkedBackendDown = false.
Proof. repeat split; vm_compute; reflexivity. Qed.

(** C10, as the code has it.  [showDisconnectedState] and
    [forceDisconnectedState] always remove the stored credential and its
    validity flag, and so does every run of [checkNotionConnection] that does
    not end with a confirmed link. *)
Theorem disconnected_state_clears_credential (v : variant) (env : Env)
    (p : Popup) :
  (let p' := showDisconnectedState p in
   confirmed p' = false
   /\ sync p' !! "openaiApiKey" = None
   /\ sync p' !! "openaiKeyValid" = None
   /\ hasValidOpenaiKey p' = false)
  /\ (let p' := forceDisconnectedState env p in
      confirmed p' = false
      /\ sync p' !! "openaiApiKey" = None
      /\ sync p' !! "openaiKeyValid" = None
      /\ hasValidOpenaiKey p' = false)
  /\ (let p' := checkNotionConnection v env p in
      confirmed p' = true
      \/ (sync p' !! "openaiApiKey" = None
          /\ sync p' !! "openaiKeyValid" = None
          /\ hasValidOpenaiKey p' = false)).
Proof.
  assert (Hshow : forall q,
            confirmed (showDisconnectedState q) = false
            /\ sync (showDisconnectedState q) !! "openaiApiKey" = None
            /\ sync (showDisconnectedState q) !! "openaiKeyValid" = None
            /\ hasValidOpenaiKey (showDisconnectedState q) = false).
  { intros q. destruct (showDisconnectedState_spec q) as (Hc & Hs & _).
    destruct (credential_cleared (sync q)) as [Hk Hv].
    unfold hasValidOpenaiKey. rewrite Hc, Hs, Hk, Hv. done. }
  split; [apply Hshow|]. split.
  - destruct (forceDisconnectedState_spec env p) as (Hc & Hs & _).
    destruct (credential_cleared (remove_keys ["userId"] (sync p))) as [Hk Hv].
    cbv zeta. unfold hasValidOpenaiKey. rewrite Hc, Hs, Hk, Hv. done.
  - cbv zeta. unfold checkNotionConnection.
    destruct (nonempty (userId p)) as [id|]; [|right; apply Hshow].
    destruct (fetch_status env id) as [| |data]; try (right; apply Hshow).
    destruct (connected data); [|right; apply Hshow].
    left. apply showConnectedState_spec.
Qed.

(** C10 fails on the code: in the localhost build the refresh handler,
    finding the backend unreachable, turns a confirmed link into the
    disconnected state and leaves the stored credential and its flag in
    place. *)
Lemma backend_down_keeps_credential :
  confirmed Sample.linkedPopup = true
  /\ fetch_root Sample.offline = NetworkError
  /\ confirmed (checkAllConnections Local Sample.offline Sample.linkedPopup)
     = false
  /\ sync (checkAllConnections Local Sample.offline Sample.linkedPopup)
       !! "openaiApiKey" = Some (VStr "sk-test")
  /\ isOpenaiKeyValid
       (checkAllConnections Local Sample.offline Sample.linkedPopup) = true.
Proof. repeat split; vm_compute; reflexivity. Qed.

(** The hosted build answers true only for a candidate it did not hold yet:
    on its own result it reports nothing new, and changes nothing. *)
Example hosted_build_answers_once :
  fst (detectRealUser Vercel Sample.discovered Sample.fresh) = true
  /\ fst (detectRealUser Vercel Sample.discovered
            (snd (detectRealUser Vercel Sample.discovered Sample.fresh)))
     = false.
Proof. split; reflexivity. Qed.

(** ** The poller *)

Lemma unlinked_detectRealUser v env p :
  unlinked env -> detectRealUser v env p = (false, p).
Proof.
  intros [Hst _].
  destruct (detectRealUser_unchanged_or_set v env p)
    as [E|(latest & data & Hq & Hc & _)]; [done|].
  apply Hst in Hq. congruence.
Qed.

Lemma unlinked_checkOAuthCompletion env p :
  unlinked env -> checkOAuthCompletion env p = (false, p).
Proof.
  intros [_ Hbg]. unfold checkOAuthCompletion.
  destruct (getOAuthStatus env) as [response|] eqn:E; [|done].
  destruct (completionData response) as [c|] eqn:Ec; [|done].
  destruct (String.eqb_spec (status c) "success") as [Hs|]; [|done].
  by destruct (Hbg response c).
Qed.

Lemma unlinked_world root st chk :
  (forall data, st = HttpOk data -> connected data = false) ->
  unlinked (Sample.world root st chk).
Proof.
  intros H. split; [intros id data; apply H | intros response c; discriminate].
Qed.

Lemma unlinked_samples :
  Forall unlinked
    [Sample.notConnected; Sample.offline; Sample.statusFails;
     Sample.notConnected].
Proof.
  repeat constructor; apply unlinked_world; intros data; try discriminate.
  all: by intros [= <-].
Qed.

(** *** Firings that overlap *)

Lemma run_app limit v (a b : list Polling.event) s :
  Polling.run limit v (a ++ b)%list s
  = Polling.run limit v b (Polling.run limit v a s).
Proof. apply fold_left_app. Qed.

Lemma lookup_last_fired {A} (l : list A) (x : A) :
  (l ++ [x])%list !! length l = Some x.
Proof. by rewrite (list_lookup_middle l [] x). Qed.

Lemma insert_last_fired {A} (l : list A) (x y : A) :
  <[length l := y]> (l ++ [x])%list = (l ++ [y])%list.
Proof.
  replace (length l) with (length l + 0) by lia.
  by rewrite insert_app_r.
Qed.

(** The end of a firing only touches the interval, the connect button and
    the banner. *)
Lemma timeoutEnd_spec limit announce i p s :
  let s' := Polling.timeoutEnd limit announce i p s in
  Polling.attempts s' = Polling.attempts s
  /\ Polling.firings s' = <[i := Polling.Returned]> (Polling.firings s)
  /\ Polling.pollInterval s'
     = Polling.pollInterval s && negb (limit <=? Polling.attempts s)%nat
  /\ sameLinkState p (Polling.popup s')
  /\ ((limit <=? Polling.attempts s)%nat = true ->
      textContent (connectNotion (ui (Polling.popup s'))) = "Connect to Notion"
      /\ disabled (connectNotion (ui (Polling.popup s'))) = false)
  /\ ((limit <=? Polling.attempts s)%nat = false -> Polling.popup s' = p).
Proof.
  unfold Polling.timeoutEnd.
  destruct (limit <=? Polling.attempts s)%nat; [destruct announce|]; cbn;
    rewrite ?andb_false_r, ?andb_true_r; by repeat split.
Qed.

Lemma sameLinkState_refl p : sameLinkState p p.
Proof. by split. Qed.

Lemma sameLinkState_trans p q r :
  sameLinkState p q -> sameLinkState q r -> sameLinkState p r.
Proof.
  intros [H1 H2 H3 H4 H5 H6 H7 H8 H9] [K1 K2 K3 K4 K5 K6 K7 K8 K9].
  split; congruence.
Qed.

(** What a resumption does when no probe of its environment reports a
    link: the firing moves on to its next request, or ends in the check of
    the counter. *)
Lemma unlinked_resume limit v env i s :
  unlinked env ->
  Polling.firings s !! i <> Some Polling.AwaitCheckNotionConnection ->
  let s' := Polling.resume limit v env i s in
  s' = s
  \/ (exists f, f <> Polling.AwaitCheckNotionConnection
                /\ s' = Polling.suspend i f (Polling.popup s) s)
  \/ (exists announce,
        s' = Polling.timeoutEnd limit announce i (Polling.popup s) s).
Proof.
  intros Henv Hf. cbv zeta. unfold Polling.resume.
  destruct (Polling.firings s !! i) as [[| |id| |]|]; [| | |done|by left..].
  - rewrite (unlinked_detectRealUser v env _ Henv).
    destruct v; [right; left; eexists; (split; [|reflexivity]); done|].
    unfold Polling.requestStatus.
    destruct (nonempty _); right; [left; eexists; (split; [|reflexivity]); done | right; by eexists].
  - rewrite (unlinked_checkOAuthCompletion env _ Henv).
    destruct v; [|right; left; eexists; (split; [|reflexivity]); done].
    unfold Polling.requestStatus.
    destruct (nonempty _); right; [left; eexists; (split; [|reflexivity]); done | right; by eexists].
  - destruct Henv as [Hst _].
    destruct (fetch_status env id) as [| |data] eqn:E;
      [right; right; by eexists..|].
    rewrite (Hst id data E). right; right; by eexists.
Qed.

(** What holds throughout a session in which no probe reports a link,
    however its firings overlap. *)
Lemma unlinked_session limit v events p :
  Polling.unlinkedEvents events ->
  let s :=
    Polling.run limit v events (Polling.startOAuthCompletionPolling p) in
  sameLinkState p (Polling.popup s)
  /\ Polling.attempts s = length (Polling.firings s)
  /\ (forall i,
        Polling.firings s !! i <> Some Polling.AwaitCheckNotionConnection)
  /\ (Polling.pollInterval s = false ->
      limit <= Polling.attempts s /\ Polling.timedOut s).
Proof.
  intros Hall. cbv zeta.
  assert (Hstart :
    sameLinkState p (Polling.popup (Polling.startOAuthCompletionPolling p))
    /\ Polling.attempts (Polling.startOAuthCompletionPolling p)
       = length (Polling.firings (Polling.startOAuthCompletionPolling p))
    /\ (forall i,
          Polling.firings (Polling.startOAuthCompletionPolling p) !! i
          <> Some Polling.AwaitCheckNotionConnection)
    /\ (Polling.pollInterval (Polling.startOAuthCompletionPolling p)
        = false ->
        limit <= Polling.attempts (Polling.startOAuthCompletionPolling p)
        /\ Polling.timedOut (Polling.startOAuthCompletionPolling p))).
  { cbn. split; [apply sameLinkState_refl|]. by repeat split. }
  revert Hstart. generalize (Polling.startOAuthCompletionPolling p).
  unfold Polling.run.
  induction Hall as [|e events He _ IH]; intros s Hs; [done|].
  cbn [fold_left]. apply IH. clear IH.
  pose proof Hs as (Hsame & Hcount & Hnone & Hstop).
  destruct e as [|i env]; cbn [Polling.step].
  - assert (Polling.pollInterval s = true \/ Polling.pollInterval s = false)
      as [Hp|Hp] by (destruct (Polling.pollInterval s); auto).
    2: { replace (Polling.fire v s) with s; [exact Hs|].
         unfold Polling.fire. by rewrite Hp. }
    unfold Polling.fire. rewrite Hp. cbn.
    split; [done|]. split; [rewrite length_app; cbn; lia|]. split; [|done].
    intros i Hi. apply lookup_app_Some in Hi as [Hi | [_ Hi]].
    + by apply (Hnone i).
    + destruct (i - length (Polling.firings s)) as [|[|?]], v; done.
  - destruct (unlinked_resume limit v env i s He (Hnone i))
      as [-> | [(f & Hf & ->) | (announce & ->)]]; [exact Hs | |].
    + cbn. split; [done|]. split; [by rewrite length_insert|].
      split; [|done]. intros j Hj.
      apply list_lookup_insert_Some in Hj as [(_ & ? & _) | [_ Hj]];
        [congruence | by apply (Hnone j)].
    + destruct (timeoutEnd_spec limit announce i (Polling.popup s) s)
        as (Ha & Hfs & Hpi & Hframe & Hreset & Hkeep).
      cbv zeta in *. rewrite Ha, Hfs, Hpi.
      split; [by eapply sameLinkState_trans|].
      split; [by rewrite length_insert|]. split.
      * intros j Hj.
        apply list_lookup_insert_Some in Hj as [(_ & ? & _) | [_ Hj]];
          [congruence | by apply (Hnone j)].
      * intros Hoff. unfold Polling.timedOut. rewrite Hpi.
        destruct (limit <=? Polling.attempts s)%nat eqn:Hle.
        -- apply Nat.leb_le in Hle. destruct (Hreset eq_refl).
           by rewrite andb_false_r.
        -- rewrite andb_true_r in Hoff. destruct (Hstop Hoff) as [? Hto].
           apply Nat.leb_gt in Hle. lia.
Qed.

(** Resuming a firing that has returned does nothing. *)
Lemma resume_returned limit v envs i s :
  Polling.firings s !! i = Some Polling.Returned ->
  Polling.run limit v (map (Polling.Resume i) envs) s = s.
Proof.
  intros Hi. unfold Polling.run.
  induction envs as [|env envs IH]; [done|].
  cbn. unfold Polling.resume. by rewrite Hi.
Qed.

(** A firing that runs alone while no probe reports a link: it is counted,
    returns, and clears the interval exactly when the counter has reached
    the limit. *)
Lemma alone_unlinked limit v envs s :
  Polling.unlinkedRound envs ->
  Polling.pollInterval s = true ->
  let s' :=
    Polling.run limit v (Polling.alone (length (Polling.firings s)) envs) s in
  Polling.attempts s' = S (Polling.attempts s)
  /\ length (Polling.firings s') = S (length (Polling.firings s))
  /\ Polling.pollInterval s' = negb (limit <=? S (Polling.attempts s))%nat
  /\ sameLinkState (Polling.popup s) (Polling.popup s')
  /\ (Polling.pollInterval s' = false -> Polling.timedOut s')
  /\ (Polling.pollInterval s' = true -> Polling.popup s' = Polling.popup s).
Proof.
  intros [Hlen Hall] Hrun. destruct s as [n b p l]. cbn in Hrun. subst b.
  cbn [Polling.firings Polling.attempts Polling.popup].
  destruct envs as [|e1 [|e2 [|e3 rest]]]; try (cbn in Hlen; lia).
  apply Forall_cons in Hall as [H1 Hall].
  apply Forall_cons in Hall as [H2 Hall].
  apply Forall_cons in Hall as [H3 _].
  assert (Hend : forall announce f q,
    let t := Polling.timeoutEnd limit announce (length l) q
               {| Polling.attempts := S n; Polling.pollInterval := true;
                  Polling.popup := q;
                  Polling.firings := (l ++ [f])%list |} in
    forall envs',
      let s' := Polling.run limit v (map (Polling.Resume (length l)) envs') t
      in
      Polling.attempts s' = S n
      /\ length (Polling.firings s') = S (length l)
      /\ Polling.pollInterval s' = negb (limit <=? S n)%nat
      /\ sameLinkState q (Polling.popup s')
      /\ (Polling.pollInterval s' = false -> Polling.timedOut s')
      /\ (Polling.pollInterval s' = true -> Polling.popup s' = q)).
  { intros announce f q t envs'. subst t. cbv zeta.
    destruct (timeoutEnd_spec limit announce (length l) q
                {| Polling.attempts := S n; Polling.pollInterval := true;
                   Polling.popup := q;
                   Polling.firings := (l ++ [f])%list |})
      as (Ha & Hfs & Hpi & Hframe & Hreset & Hkeep).
    cbv zeta in *. cbn [Polling.attempts Polling.firings Polling.pollInterval]
      in *.
    rewrite insert_last_fired in Hfs.
    rewrite resume_returned by (rewrite Hfs; apply lookup_last_fired).
    rewrite Ha, Hfs, Hpi, length_app. cbn [length andb].
    split; [done|]. split; [lia|]. split; [done|]. split; [done|].
    unfold Polling.timedOut. rewrite Hpi. cbn [andb].
    split.
    - intros Hoff. split; [done|]. apply Hreset. by apply negb_false_iff.
    - intros Hon. apply negb_true_iff in Hon. by apply Hkeep. }
  unfold Polling.alone, Polling.run. cbn [map fold_left Polling.step].
  unfold Polling.fire. cbn [Polling.pollInterval Polling.attempts
                            Polling.popup Polling.firings].
  assert (Hstatus : forall id e,
    unlinked e ->
    exists announce,
      Polling.resume limit v e (length l)
        {| Polling.attempts := S n; Polling.pollInterval := true;
           Polling.popup := p;
           Polling.firings := (l ++ [Polling.AwaitStatus id])%list |}
      = Polling.timeoutEnd limit announce (length l) p
          {| Polling.attempts := S n; Polling.pollInterval := true;
             Polling.popup := p;
             Polling.firings := (l ++ [Polling.AwaitStatus id])%list |}).
  { intros id e [Hst _]. unfold Polling.resume.
    cbn [Polling.firings Polling.popup]. rewrite lookup_last_fired.
    destruct (fetch_status e id) as [| |data] eqn:E; [by eexists..|].
    rewrite (Hst id data E). by eexists. }
  assert (Hrequest : forall f e envs',
    unlinked e ->
    let t := Polling.requestStatus limit (length l) p
               {| Polling.attempts := S n; Polling.pollInterval := true;
                  Polling.popup := p;
                  Polling.firings := (l ++ [f])%list |} in
    let s' :=
      Polling.run limit v (map (Polling.Resume (length l)) (e :: envs')) t in
    Polling.attempts s' = S n
    /\ length (Polling.firings s') = S (length l)
    /\ Polling.pollInterval s' = negb (limit <=? S n)%nat
    /\ sameLinkState p (Polling.popup s')
    /\ (Polling.pollInterval s' = false -> Polling.timedOut s')
    /\ (Polling.pollInterval s' = true -> Polling.popup s' = p)).
  { intros f e envs' He. cbv zeta. unfold Polling.requestStatus.
    destruct (nonempty (userId p)) as [id|].
    - unfold Polling.suspend. cbn [Polling.firings Polling.attempts
                                   Polling.pollInterval].
      rewrite insert_last_fired. cbn [map].
      unfold Polling.run. cbn [fold_left Polling.step].
      destruct (Hstatus id e He) as [announce ->].
      apply (Hend announce (Polling.AwaitStatus id) p envs').
    - apply (Hend true f p (e :: envs')). }
  assert (E : exists f,
    Polling.resume limit v e2 (length l)
      (Polling.resume limit v e1 (length l)
         {| Polling.attempts := S n; Polling.pollInterval := true;
            Polling.popup := p;
            Polling.firings :=
              (l ++ [match v with
                     | Local => Polling.AwaitDetectRealUser
                     | Vercel => Polling.AwaitCheckOAuthCompletion
                     end])%list |})
    = Polling.requestStatus limit (length l) p
        {| Polling.attempts := S n; Polling.pollInterval := true;
           Polling.popup := p; Polling.firings := (l ++ [f])%list |}).
  { destruct v; eexists.
    - unfold Polling.resume at 2. cbn [Polling.firings Polling.popup].
      rewrite lookup_last_fired, (unlinked_detectRealUser Local e1 p H1).
      unfold Polling.suspend. cbn [Polling.firings Polling.attempts
                                   Polling.pollInterval].
      rewrite insert_last_fired.
      unfold Polling.resume. cbn [Polling.firings Polling.popup].
      rewrite lookup_last_fired, (unlinked_checkOAuthCompletion e2 p H2).
      reflexivity.
    - unfold Polling.resume at 2. cbn [Polling.firings Polling.popup].
      rewrite lookup_last_fired, (unlinked_checkOAuthCompletion e1 p H1).
      unfold Polling.suspend. cbn [Polling.firings Polling.attempts
                                   Polling.pollInterval].
      rewrite insert_last_fired.
      unfold Polling.resume. cbn [Polling.firings Polling.popup].
      rewrite lookup_last_fired, (unlinked_detectRealUser Vercel e2 p H2).
      reflexivity. }
  destruct E as [f E]. rewrite E.
  apply (Hrequest f e3 rest H3).
Qed.

(** Once the interval is cleared, the rounds that the timer would still
    have started do nothing. *)
Lemma stopped_inTurn limit v rounds i s :
  Polling.pollInterval s = false ->
  length (Polling.firings s) <= i ->
  Polling.run limit v (Polling.inTurn i rounds) s = s.
Proof.
  intros Hoff. revert i.
  induction rounds as [|envs rounds IH]; intros i Hi; [done|].
  cbn [Polling.inTurn]. rewrite run_app.
  assert (Polling.run limit v (Polling.alone i envs) s = s) as ->.
  { unfold Polling.alone, Polling.run. cbn [fold_left Polling.step].
    unfold Polling.fire. rewrite Hoff.
    induction envs as [|env envs IHe]; [done|].
    cbn [map fold_left Polling.step].
    replace (Polling.resume limit v env i s) with s; [done|].
    unfold Polling.resume. by rewrite (lookup_ge_None_2 _ i) by lia. }
  apply IH. lia.
Qed.

Section Poller.

Variable limit : nat.
Variable v : variant.

(** While the counter is below the limit, rounds that report no link leave
    the poller pending. *)
Lemma unlinked_rounds_pending rounds s :
  Forall Polling.unlinkedRound rounds ->
  Polling.pollInterval s = true ->
  Polling.attempts s + length rounds < limit ->
  let s' :=
    Polling.run limit v (Polling.inTurn (length (Polling.firings s)) rounds) s
  in
  Polling.pollInterval s' = true
  /\ Polling.attempts s' = Polling.attempts s + length rounds
  /\ Polling.popup s' = Polling.popup s.
Proof.
  revert s. induction rounds as [|envs rounds IH]; intros s Hall Hrun Hlt.
  { cbn. repeat split; first [done | lia]. }
  apply Forall_cons in Hall as [Henvs Hall]. cbn [length] in Hlt.
  destruct (alone_unlinked limit v envs s Henvs Hrun)
    as (Ha & Hl & Hp & _ & _ & Hsame).
  cbv zeta in *. cbn [Polling.inTurn]. rewrite run_app.
  set (s1 := Polling.run limit v
               (Polling.alone (length (Polling.firings s)) envs) s) in *.
  clearbody s1.
  assert (Hrun' : Polling.pollInterval s1 = true).
  { rewrite Hp. apply negb_true_iff, Nat.leb_gt. lia. }
  rewrite <- Hl.
  destruct (IH s1 Hall Hrun') as (H1 & H2 & H3); [lia|].
  split; [done|]. split; [cbn [length]; lia|]. rewrite H3. by apply Hsame.
Qed.

(** At the limit they time out, and the rounds after that count nothing. *)
Lemma unlinked_rounds_time_out rounds s :
  Forall Polling.unlinkedRound rounds ->
  Polling.pollInterval s = true ->
  Polling.attempts s < limit ->
  limit <= Polling.attempts s + length rounds ->
  let s' :=
    Polling.run limit v (Polling.inTurn (length (Polling.firings s)) rounds) s
  in
  Polling.timedOut s'
  /\ Polling.attempts s' = limit
  /\ sameLinkState (Polling.popup s) (Polling.popup s').
Proof.
  revert s. induction rounds as [|envs rounds IH]; intros s Hall Hrun Hlt Hge.
  { cbn in Hge. lia. }
  apply Forall_cons in Hall as [Henvs Hall]. cbn [length] in Hge.
  destruct (alone_unlinked limit v envs s Henvs Hrun)
    as (Ha & Hl & Hp & Hframe & Hout & Hsame).
  cbv zeta in *. cbn [Polling.inTurn]. rewrite run_app.
  set (s1 := Polling.run limit v
               (Polling.alone (length (Polling.firings s)) envs) s) in *.
  clearbody s1.
  destruct (decide (S (Polling.attempts s) = limit)) as [Heq|Hne].
  - assert (Hstop : Polling.pollInterval s1 = false).
    { rewrite Hp. apply negb_false_iff, Nat.leb_le. lia. }
    rewrite stopped_inTurn by (done || lia).
    split; [by apply Hout|]. split; [lia | done].
  - assert (Hrun' : Polling.pollInterval s1 = true).
    { rewrite Hp. apply negb_true_iff, Nat.leb_gt. lia. }
    rewrite <- Hl.
    destruct (IH s1 Hall Hrun') as (H1 & H2 & H3); [lia | lia |].
    split; [done|]. split; [done|]. by eapply sameLinkState_trans.
Qed.

(** C4, as the code has it.  A poller whose limit is [limit], whose probes
    never report a link and whose firings do not overlap is still pending
    after every firing before the [limit]-th, times out at the [limit]-th,
    and counts no firing after it, however long the timer would have gone
    on. *)
Theorem watcher_termination (rounds : list (list Env)) (p : Popup) :
  0 < limit ->
  Forall Polling.unlinkedRound rounds ->
  limit <= length rounds ->
  let s :=
    Polling.run limit v (Polling.inTurn 0 rounds)
      (Polling.startOAuthCompletionPolling p) in
  Polling.timedOut s
  /\ Polling.attempts s = limit
  /\ forall k, k < limit ->
       let s_k :=
         Polling.run limit v (Polling.inTurn 0 (take k rounds))
           (Polling.startOAuthCompletionPolling p) in
       Polling.pollInterval s_k = true /\ Polling.attempts s_k = k.
Proof.
  intros Hpos Hall Hlen. cbv zeta.
  destruct (unlinked_rounds_time_out rounds
              (Polling.startOAuthCompletionPolling p) Hall eq_refl)
    as (Hout & Hn & _); [done | done |].
  split; [done|]. split; [done|]. intros k Hk.
  destruct (unlinked_rounds_pending (take k rounds)
              (Polling.startOAuthCompletionPolling p))
    as (Hrun & Hat & _).
  - by apply Forall_take.
  - done.
  - rewrite length_take. cbn. lia.
  - split; [done|]. cbn in Hat. rewrite Hat, length_take. lia.
Qed.

End Poller.

Lemma unlinked_rounds :
  Forall Polling.unlinkedRound
    [[Sample.notConnected; Sample.notConnected; Sample.notConnected];
     [Sample.offline; Sample.offline; Sample.offline];
     [Sample.statusFails; Sample.notConnected; Sample.offline];
     [Sample.notConnected; Sample.notConnected; Sample.notConnected]].
Proof.
  repeat constructor; apply unlinked_world; intros data; try discriminate.
  all: by intros [= <-].
Qed.

Lemma watcher_termination_witness :
  let rounds :=
    [[Sample.notConnected; Sample.notConnected; Sample.notConnected];
     [Sample.offline; Sample.offline; Sample.offline];
     [Sample.statusFails; Sample.notConnected; Sample.offline];
     [Sample.notConnected; Sample.notConnected; Sample.notConnected]] in
  0 < 3
  /\ Forall Polling.unlinkedRound rounds
  /\ 3 <= length rounds
  /\ let s :=
       Polling.run 3 Local (Polling.inTurn 0 rounds)
         (Polling.startOAuthCompletionPolling Sample.linkedPopup) in
     Polling.timedOut s
     /\ Polling.attempts s = 3
     /\ forall k, k < 3 ->
          let s_k :=
            Polling.run 3 Local (Polling.inTurn 0 (take k rounds))
              (Polling.startOAuthCompletionPolling Sample.linkedPopup) in
          Polling.pollInterval s_k = true /\ Polling.attempts s_k = k.
Proof.
  cbv zeta.
  split; [lia|]. split; [exact unlinked_rounds|]. split; [simpl; lia|].
  apply (watcher_termination 3 Local _ Sample.linkedPopup);
    [lia | exact unlinked_rounds | simpl; lia].
Defined.

(** C4 fails on the code: the timer does not wait for a firing.  Under a
    limit of three, with every status query answering "not connected", four
    firings start before the first one has its replies; each is counted, and
    the interval is cleared only when a firing ends, by which time the
    counter stands at four. *)
Lemma watcher_overshoots :
  let e := Sample.notConnected in
  let fired :=
    Polling.run 3 Local [Polling.Fire; Polling.Fire; Polling.Fire]
      (Polling.startOAuthCompletionPolling Sample.linkedPopup) in
  let s :=
    Polling.run 3 Local
      [Polling.Fire; Polling.Resume 0 e; Polling.Resume 0 e;
       Polling.Resume 0 e]
      fired in
  unlinked e
  /\ Polling.attempts fired = 3 /\ Polling.pollInterval fired = true
  /\ Polling.attempts s = 4 /\ Polling.timedOut s.
Proof.
  cbv zeta. split.
  { apply unlinked_world. by intros data [= <-]. }
  repeat split; vm_compute; reflexivity.
Qed.

Lemma inTurn_unlinked rounds i :
  Forall Polling.unlinkedRound rounds ->
  Polling.unlinkedEvents (Polling.inTurn i rounds).
Proof.
  intros Hall. revert i. unfold Polling.unlinkedEvents.
  induction Hall as [|envs rounds [_ Henvs] _ IH]; intros i; [constructor|].
  cbn [Polling.inTurn]. apply Forall_app. split; [|apply IH].
  unfold Polling.alone. constructor; [done|].
  apply Forall_fmap. by eapply Forall_impl.
Qed.

(** C8, as the code has it.  In a session in which no status query answers
    "connected" and the worker reports no successful completion, the
    identity is at every moment as it was when the session started, however
    the firings overlap: the identifier in memory, both stores, the status
    class and the connected mark are unchanged, and so are the remote
    identifier and the confirmed flag read off them; when the interval is
    cleared, the session has timed out with the counter at or past the
    limit.  The end of a firing itself, whatever came before it, touches
    only the interval, the connect button and the banner. *)
Theorem timeout_leaves_identity (limit : nat) (v : variant)
    (events : list Polling.event) (p : Popup) :
  Polling.unlinkedEvents events ->
  let s :=
    Polling.run limit v events (Polling.startOAuthCompletionPolling p) in
  sameLinkState p (Polling.popup s)
  /\ remoteId (Polling.popup s) = remoteId p
  /\ confirmed (Polling.popup s) = confirmed p
  /\ (Polling.pollInterval s = false ->
      Polling.timedOut s /\ limit <= Polling.attempts s)
  /\ forall announce i q t,
       let q' := Polling.popup (Polling.timeoutEnd limit announce i q t) in
       sameLinkState q q'
       /\ remoteId q' = remoteId q
       /\ confirmed q' = confirmed q.
Proof.
  intros Hall. cbv zeta.
  assert (Hids : forall q q',
            sameLinkState q q' ->
            remoteId q' = remoteId q /\ confirmed q' = confirmed q).
  { intros q q' [_ _ Hsync _ Hcls _ _ _ _].
    unfold remoteId, getStoredUserId, confirmed, hasConnectedClass.
    by rewrite Hsync, Hcls. }
  destruct (unlinked_session limit v events p Hall)
    as (Hsame & _ & _ & Hstop).
  cbv zeta in Hsame, Hstop.
  destruct (Hids _ _ Hsame) as [Hr Hc].
  split; [done|]. split; [done|]. split; [done|]. split.
  - intros Hoff. by destruct (Hstop Hoff).
  - intros announce i q t.
    destruct (timeoutEnd_spec limit announce i q t)
      as (_ & _ & _ & Hframe & _).
    cbv zeta in Hframe. split; [done|]. by apply Hids.
Qed.

Lemma timeout_leaves_identity_witness :
  let rounds :=
    [[Sample.notConnected; Sample.notConnected; Sample.notConnected];
     [Sample.offline; Sample.offline; Sample.offline];
     [Sample.statusFails; Sample.notConnected; Sample.offline];
     [Sample.notConnected; Sample.notConnected; Sample.notConnected]] in
  let s :=
    Polling.run 3 Vercel (Polling.inTurn 0 rounds)
      (Polling.startOAuthCompletionPolling Sample.linkedPopup) in
  Polling.unlinkedEvents (Polling.inTurn 0 rounds)
  /\ Polling.pollInterval s = false
  /\ Polling.timedOut s
  /\ sameLinkState Sample.linkedPopup (Polling.popup s)
  /\ remoteId (Polling.popup s) = remoteId Sample.linkedPopup
  /\ confirmed (Polling.popup s) = confirmed Sample.linkedPopup.
Proof.
  cbv zeta.
  pose proof (inTurn_unlinked _ 0 unlinked_rounds) as Hall.
  destruct (timeout_leaves_identity 3 Vercel _ Sample.linkedPopup Hall)
    as (H1 & H2 & H3 & H4 & _).
  assert (Hoff :
    Polling.pollInterval
      (Polling.run 3 Vercel
         (Polling.inTurn 0
            [[Sample.notConnected; Sample.notConnected; Sample.notConnected];
             [Sample.offline; Sample.offline; Sample.offline];
             [Sample.statusFails; Sample.notConnected; Sample.offline];
             [Sample.notConnected; Sample.notConnected;
              Sample.notConnected]])
         (Polling.startOAuthCompletionPolling Sample.linkedPopup)) = false)
    by (vm_compute; reflexivity).
  split; [exact Hall|]. split; [exact Hoff|].
  split; [exact (proj1 (H4 Hoff))|].
  split; [exact H1|]. split; [exact H2 | exact H3].
Defined.

(** C8 fails on the code: in the localhost build the poller does not stop
    when [checkOAuthCompletion] adopts the user of a completion that the
    worker reports.  With every status query answering "not connected", the
    first firing stores ["u-9"], and the session times out at the limit of
    the build with the stored identifier replaced. *)
Lemma timeout_after_adoption :
  let n := Sample.notConnected in
  let rounds := [n; Scenario.reported; n] :: replicate 14 [n; n; n] in
  let s :=
    Polling.run (maxAttempts Local) Local (Polling.inTurn 0 rounds)
      (Polling.startOAuthCompletionPolling Sample.fresh) in
  (forall id,
     fetch_status n id = HttpOk (Sample.answer false None)
     /\ fetch_status Scenario.reported id = HttpOk (Sample.answer false None))
  /\ Polling.timedOut s
  /\ Polling.attempts s = maxAttempts Local
  /\ remoteId Sample.fresh = None
  /\ remoteId (Polling.popup s) = Some "u-9"
  /\ userId (Polling.popup s) = Some "u-9"
  /\ confirmed (Polling.popup s) = false.
Proof.
  cbv zeta. split; [done|]. repeat split; vm_compute; reflexivity.
Qed.

(** *** A firing that nothing interrupts

    [pollTick] is the firing that runs alone and whose requests are all
    answered in one environment. *)

(** A firing does not look at the firings started before it. *)
Lemma resume_after limit v env earlier j s :
  Polling.resume limit v env (length earlier + j) (Polling.after earlier s)
  = Polling.after earlier (Polling.resume limit v env j s).
Proof.
  unfold Polling.resume, Polling.after.
  cbn [Polling.firings Polling.popup Polling.attempts Polling.pollInterval].
  rewrite lookup_app_r by lia.
  replace (length earlier + j - length earlier) with j by lia.
  destruct (Polling.firings s !! j) as [[| |id| |]|]; [| | | |done..];
    unfold Polling.requestStatus, Polling.timeoutEnd, Polling.markLinked,
      Polling.suspend;
    cbn [Polling.firings Polling.popup Polling.attempts Polling.pollInterval];
    repeat case_match; simplify_eq;
    cbn [Polling.firings Polling.popup Polling.attempts Polling.pollInterval];
    by rewrite ?insert_app_r.
Qed.

Lemma fire_after v earlier s :
  Polling.fire v (Polling.after earlier s)
  = Polling.after earlier (Polling.fire v s).
Proof.
  unfold Polling.fire, Polling.after.
  cbn [Polling.firings Polling.popup Polling.attempts Polling.pollInterval].
  destruct (Polling.pollInterval s) eqn:E;
    cbn [Polling.firings Polling.popup Polling.attempts Polling.pollInterval];
    by rewrite <- ?app_assoc, ?E.
Qed.

Lemma resumes_after limit v earlier j envs s :
  Polling.run limit v (map (Polling.Resume (length earlier + j)) envs)
    (Polling.after earlier s)
  = Polling.after earlier
      (Polling.run limit v (map (Polling.Resume j) envs) s).
Proof.
  revert s. unfold Polling.run.
  induction envs as [|env envs IH]; intros s; [done|].
  cbn [map fold_left Polling.step]. by rewrite resume_after, IH.
Qed.

Lemma uninterrupted_firing limit v env s :
  let t :=
    pollTick limit v env
      {| attempts := Polling.attempts s;
         pollInterval := Polling.pollInterval s;
         popup := Polling.popup s |} in
  let s' :=
    Polling.run limit v
      (Polling.alone (length (Polling.firings s)) [env; env; env; env]) s in
  Polling.attempts s' = attempts t
  /\ Polling.pollInterval s' = pollInterval t
  /\ Polling.popup s' = popup t.
Proof.
  destruct s as [n b p l]. cbv zeta.
  cbn [Polling.attempts Polling.pollInterval Polling.popup Polling.firings].
  set (s0 := {| Polling.attempts := n; Polling.pollInterval := b;
                Polling.popup := p; Polling.firings := [] |}).
  replace {| Polling.attempts := n; Polling.pollInterval := b;
             Polling.popup := p; Polling.firings := l |}
    with (Polling.after l s0)
    by (unfold Polling.after, s0; cbn; by rewrite app_nil_r).
  change (Polling.run limit v (Polling.alone (length l) [env; env; env; env])
            (Polling.after l s0))
    with (Polling.run limit v
            (map (Polling.Resume (length l)) [env; env; env; env])
            (Polling.fire v (Polling.after l s0))).
  rewrite fire_after.
  pose proof (resumes_after limit v l 0 [env; env; env; env]
                (Polling.fire v s0)) as E.
  rewrite Nat.add_0_r in E. rewrite E. clear E.
  cbn [Polling.after Polling.attempts Polling.pollInterval Polling.popup].
  unfold pollTick, Polling.run, Polling.fire, s0.
  cbn [attempts pollInterval popup Polling.attempts Polling.pollInterval
       Polling.popup Polling.firings].
  destruct b; [|done].
  cbn [map fold_left Polling.step app].
  unfold fallbackCheck, timeoutCheck, linked.
  destruct v;
    repeat first
      [ progress
          (unfold Polling.requestStatus, Polling.timeoutEnd,
             Polling.markLinked, Polling.suspend;
           cbn -[detectRealUser checkOAuthCompletion checkNotionConnection
                 Nat.leb showMessage on_ui])
      | match goal with
        | |- context [detectRealUser ?v ?e ?q] =>
            destruct (detectRealUser v e q) as [[] ?]
        | |- context [checkOAuthCompletion ?e ?q] =>
            destruct (checkOAuthCompletion e q) as [[] ?]
        | |- context [nonempty (userId ?q)] =>
            destruct (nonempty (userId q))
        | |- context [fetch_status ?e ?id] =>
            destruct (fetch_status e id) as [| |[[] ? ? ? ?]]
        | |- context [(?a <=? ?b)%nat] => destruct (a <=? b)%nat
        end ];
    done.
Qed.
(** * Properties of the rest of the extension *)

(** ** Trimming *)

Section Trim.

Context {A : Type} (ws : A -> bool).

Lemma trimStartBy_head c rest l :
  trimStartBy ws l = c :: rest -> ws c = false.
Proof.
  induction l as [|d l IH]; simpl; [done|].
  destruct (ws d) eqn:E; [done|]. by intros [= <- _].
Qed.

Lemma trimStartBy_fixed c rest :
  ws c = false -> trimStartBy ws (c :: rest) = c :: rest.
Proof. intros H. simpl. by rewrite H. Qed.

(** What [trimStart] removes is white space, and it removes a prefix. *)
Lemma trimStartBy_split l :
  exists front, l = (front ++ trimStartBy ws l)%list /\ forallb ws front = true.
Proof.
  induction l as [|d l (front & E & H)]; simpl.
  - by exists [].
  - destruct (ws d) eqn:Hd.
    + exists (d :: front). simpl. rewrite Hd, H. split; [by f_equal|done].
    + by exists [].
Qed.

Lemma trimEndBy_split l :
  exists back, l = (trimEndBy ws l ++ back)%list /\ forallb ws back = true.
Proof.
  unfold trimEndBy. destruct (trimStartBy_split (rev l)) as (front & E & H).
  exists (rev front). split.
  - rewrite <- rev_app_distr, <- E. by rewrite rev_involutive.
  - rewrite forallb_forall in *. intros x Hx. apply H. by apply in_rev.
Qed.

Lemma trimEndBy_last front c l :
  trimEndBy ws l = (front ++ [c])%list -> ws c = false.
Proof.
  unfold trimEndBy. intros E.
  apply (f_equal (@rev A)) in E. rewrite rev_involutive, rev_app_distr in E.
  simpl in E. by apply trimStartBy_head in E.
Qed.

Lemma trimEndBy_fixed front c :
  ws c = false -> trimEndBy ws (front ++ [c]) = (front ++ [c])%list.
Proof.
  intros H. unfold trimEndBy. rewrite rev_app_distr. simpl. rewrite H.
  change (c :: rev front) with (rev [c] ++ rev front)%list.
  by rewrite <- rev_app_distr, rev_involutive.
Qed.

Lemma trimEndBy_nil : trimEndBy ws [] = [].
Proof. done. Qed.

(** [trimEnd] keeps the first unit of a text that does not start with white
    space. *)
Lemma trimEndBy_head c rest :
  ws c = false -> exists rest', trimEndBy ws (c :: rest) = c :: rest'.
Proof.
  intros Hc. destruct (trimEndBy_split (c :: rest)) as (back & E & Hb).
  destruct (trimEndBy ws (c :: rest)) as [|d rest'] eqn:Et.
  - simpl in E. subst back. simpl in Hb. by rewrite Hc in Hb.
  - simpl in E. injection E as <- _. by exists rest'.
Qed.

Lemma trimBy_idempotent l : trimBy ws (trimBy ws l) = trimBy ws l.
Proof.
  unfold trimBy. set (m := trimStartBy ws l).
  destruct (trimEndBy ws m) as [|c rest] eqn:E; [done|].
  assert (Hc : ws c = false).
  { destruct m as [|d m'] eqn:Em; [done|].
    assert (Hd : ws d = false) by (by eapply trimStartBy_head).
    destruct (trimEndBy_head d m' Hd) as (r & Er). rewrite Er in E.
    by injection E as <- _. }
  rewrite trimStartBy_fixed by done. rewrite <- E.
  induction (trimEndBy ws m) as [|x xs _] eqn:E' using rev_ind; [done|].
  apply trimEndBy_fixed. by eapply trimEndBy_last.
Qed.

End Trim.

(** ** The content script *)

Section CleanText.

Import Text.

Lemma collapseFrom_singleSpaced b t : singleSpaced b (collapseFrom b t) = true.
Proof.
  revert b. induction t as [|c t IH]; intros b; simpl; [done|].
  destruct (isWhiteSpace c) eqn:Hc.
  - destruct b; [apply IH|]. simpl. by rewrite IH.
  - simpl. rewrite Hc. apply IH.
Qed.

Lemma singleSpaced_fixed b t :
  singleSpaced b t = true -> collapseFrom b t = t.
Proof.
  revert b. induction t as [|c t IH]; intros b; simpl; [done|].
  destruct (isWhiteSpace c) eqn:Hc.
  - intros [[Hs Hb%negb_true_iff]%andb_prop Ht]%andb_prop. subst b.
    apply N.eqb_eq in Hs. subst c. f_equal. by apply IH.
  - intros Ht. f_equal. by apply IH.
Qed.

Lemma singleSpaced_no_newline b t :
  singleSpaced b t = true -> Forall (fun c => c <> lineFeed) t.
Proof.
  revert b. induction t as [|c t IH]; intros b; simpl; [constructor|].
  destruct (isWhiteSpace c) eqn:Hc.
  - intros [[Hs _]%andb_prop Ht]%andb_prop. apply N.eqb_eq in Hs. subst c.
    constructor; [done | by eapply IH].
  - intros Ht. constructor; [|by eapply IH].
    intros ->. done.
Qed.

Lemma squeezeFrom_no_newline b t :
  Forall (fun c => c <> lineFeed) t -> squeezeFrom b t = t.
Proof.
  revert b. induction t as [|c t IH]; intros b; simpl; [done|].
  intros [Hc Ht]%Forall_cons. apply N.eqb_neq in Hc. rewrite Hc.
  f_equal. by apply IH.
Qed.

Lemma singleSpaced_weaken b t :
  singleSpaced b t = true -> singleSpaced false t = true.
Proof.
  destruct t as [|c t]; simpl; [done|].
  destruct (isWhiteSpace c); [|done].
  intros [[-> _]%andb_prop ->]%andb_prop. done.
Qed.

Lemma singleSpaced_trimStart b t :
  singleSpaced b t = true ->
  singleSpaced false (trimStartBy isWhiteSpace t) = true.
Proof.
  revert b. induction t as [|c t IH]; intros b; [done|].
  cbn [trimStartBy]. destruct (isWhiteSpace c) eqn:Hc.
  - simpl. rewrite Hc. intros [_ Ht]%andb_prop. by eapply IH.
  - apply singleSpaced_weaken.
Qed.

Lemma singleSpaced_prefix b t back :
  singleSpaced b (t ++ back) = true -> singleSpaced b t = true.
Proof.
  revert b. induction t as [|c t IH]; intros b; simpl; [done|].
  destruct (isWhiteSpace c).
  - intros [-> Ht]%andb_prop. simpl. by eapply IH.
  - apply IH.
Qed.

Lemma singleSpaced_trim t :
  singleSpaced false t = true ->
  singleSpaced false (trimBy isWhiteSpace t) = true.
Proof.
  intros H. unfold trimBy.
  apply (singleSpaced_trimStart false) in H.
  destruct (trimEndBy_split isWhiteSpace (trimStartBy isWhiteSpace t))
    as (back & E & _).
  rewrite E in H. by apply singleSpaced_prefix in H.
Qed.

Lemma singleSpaced_lookup b t i c :
  singleSpaced b t = true -> t !! i = Some c -> isWhiteSpace c = true ->
  c = space /\ forall d, t !! S i = Some d -> isWhiteSpace d = false.
Proof.
  revert b i. induction t as [|x t IH]; intros b i; [done|].
  destruct i as [|i]; simpl.
  - intros H [= ->] Hc. rewrite Hc in H.
    apply andb_prop in H as [[Hs _]%andb_prop Ht]. apply N.eqb_eq in Hs.
    split; [done|]. intros d Hd. destruct t as [|y t]; [done|].
    simpl in Hd. injection Hd as ->. simpl in Ht.
    destruct (isWhiteSpace d); [|done].
    by rewrite andb_false_r in Ht.
  - destruct (isWhiteSpace x).
    + intros [_ Ht]%andb_prop. by eapply IH.
    + by eapply IH.
Qed.

(** The first replacement leaves no line feed, so the second one never finds
    a run to squeeze. *)
Lemma squeeze_after_collapse t :
  squeezeNewlines (collapseSpaces t) = collapseSpaces t.
Proof.
  apply squeezeFrom_no_newline, (singleSpaced_no_newline false),
    collapseFrom_singleSpaced.
Qed.

Lemma cleanText_unfold t :
  Content.cleanText (Some t) = trimBy isWhiteSpace (collapseSpaces t).
Proof.
  unfold Content.cleanText. rewrite squeeze_after_collapse.
  by destruct t.
Qed.

Lemma cleanText_singleSpaced text :
  singleSpaced false (Content.cleanText text) = true.
Proof.
  destruct text as [t|]; [|done]. rewrite cleanText_unfold.
  apply singleSpaced_trim, collapseFrom_singleSpaced.
Qed.

Lemma words_app s t : words (s ++ t) = (words s ++ words t)%list.
Proof. apply List.filter_app. Qed.

Lemma words_blank t : forallb isWhiteSpace t = true -> words t = [].
Proof.
  induction t as [|c t IH]; simpl; [done|].
  intros [-> Ht]%andb_prop. simpl. by apply IH.
Qed.

Lemma words_trim t : words (trimBy isWhiteSpace t) = words t.
Proof.
  unfold trimBy.
  destruct (trimStartBy_split isWhiteSpace t) as (front & E1 & H1).
  destruct (trimEndBy_split isWhiteSpace (trimStartBy isWhiteSpace t))
    as (back & E2 & H2).
  rewrite E1 at 2. rewrite E2 at 2.
  rewrite !words_app, (words_blank front), (words_blank back) by done.
  by rewrite app_nil_r.
Qed.

Lemma words_collapse b t : words (collapseFrom b t) = words t.
Proof.
  revert b. induction t as [|c t IH]; intros b; simpl; [done|].
  destruct (isWhiteSpace c) eqn:Hc; simpl.
  - destruct b; simpl; apply IH.
  - rewrite Hc. simpl. f_equal. apply IH.
Qed.

End CleanText.

Lemma cleanText_normal_form (text : option (list N)) :
  Content.clean (Content.cleanText text).
Proof.
  pose proof (cleanText_singleSpaced text) as Hs.
  split.
  - destruct text as [t|]; [|done]. rewrite cleanText_unfold. unfold trimBy.
    intros c rest E.
    destruct (trimStartBy Text.isWhiteSpace (Text.collapseSpaces t))
      as [|d m] eqn:Em; [done|].
    assert (Hd : Text.isWhiteSpace d = false) by (by eapply trimStartBy_head).
    destruct (trimEndBy_head Text.isWhiteSpace d m Hd) as (r & Er).
    rewrite Er in E. by injection E as <- _.
  - destruct text as [t|]; [|by intros [|??] ?]. rewrite cleanText_unfold.
    intros front c E. by eapply trimEndBy_last.
  - intros i c Hi Hc. by eapply singleSpaced_lookup.
  - intros i c d Hi Hd Hc.
    by eapply (singleSpaced_lookup false (Content.cleanText text) i c).
Qed.

(** X1. Cleaned text is in normal form: it neither begins nor ends with
    white space, its only white-space unit is the space, and no two spaces
    are adjacent; in particular it has no line break. *)
Theorem cleanText_clean (text : option (list N)) :
  Content.clean (Content.cleanText text).
Proof. apply cleanText_normal_form. Qed.

Lemma cleanText_fixed (text : option (list N)) :
  Content.cleanText (Some (Content.cleanText text)) = Content.cleanText text.
Proof.
  rewrite cleanText_unfold. unfold Text.collapseSpaces.
  rewrite singleSpaced_fixed by apply cleanText_singleSpaced.
  destruct text as [t|]; [|done]. rewrite cleanText_unfold.
  apply trimBy_idempotent.
Qed.

(** X2. Cleaning is idempotent: cleaning a cleaned text gives it back. *)
Theorem cleanText_idempotent (text : option (list N)) :
  Content.cleanText (Some (Content.cleanText text)) = Content.cleanText text.
Proof. apply cleanText_fixed. Qed.

(** X3. Cleaning only touches white space: the other units of the text come
    out unchanged and in the same order. *)
Theorem cleanText_keeps_words (t : list N) :
  Text.words (Content.cleanText (Some t)) = Text.words t.
Proof.
  rewrite cleanText_unfold, words_trim. apply words_collapse.
Qed.

(** X4. The second replacement of [cleanText] is dead code: after the runs
    of white space are collapsed, squeezing line feeds changes nothing, for
    every text. *)
Theorem newline_squeeze_is_dead (t : list N) :
  Text.squeezeNewlines (Text.collapseSpaces t) = Text.collapseSpaces t
  /\ Forall (fun c => c <> Text.lineFeed) (Text.collapseSpaces t).
Proof.
  split; [apply squeeze_after_collapse|].
  apply (singleSpaced_no_newline false), collapseFrom_singleSpaced.
Qed.

Lemma extraction_is_cleaned (page : Content.Page) :
  exists text,
    Content.extractReadableContent page = Content.cleanText text.
Proof.
  unfold Content.extractReadableContent, Content.extractWithReadability,
    Content.extractBodyContent.
  destruct (Content.reader page); eauto.
  repeat (case_match; eauto).
Qed.

(** X5. Whatever strategy applies (Readability, an article or main element,
    a content selector or the stripped body), the extracted content is clean
    text, and cleaning it once more leaves it as it is. *)
Theorem extractReadableContent_clean (page : Content.Page) :
  Content.clean (Content.extractReadableContent page)
  /\ Content.cleanText (Some (Content.extractReadableContent page))
     = Content.extractReadableContent page.
Proof.
  destruct (extraction_is_cleaned page) as (text & ->).
  split; [apply cleanText_normal_form | apply cleanText_fixed].
Qed.

(** ** Masking a saved key *)

(** X6. [maskApiKey] raises exactly on keys of eight to ten units (the
    bullet count is negative), and shows a key in full when it has fewer than
    eight units or exactly eleven. *)
Theorem maskApiKey_edges (key : list N) :
  (maskApiKey key = None <-> 8 <= length key <= 10)
  /\ (length key < 8 \/ length key = 11 -> maskApiKey key = Some key).
Proof.
  unfold maskApiKey. split.
  - destruct (length key <? 8)%nat eqn:E8.
    { apply Nat.ltb_lt in E8. split; [done | lia]. }
    apply Nat.ltb_ge in E8.
    destruct (length key <? 11)%nat eqn:E11.
    + apply Nat.ltb_lt in E11. split; [lia | done].
    + apply Nat.ltb_ge in E11. split; [done | lia].
  - intros [H|H].
    + apply Nat.ltb_lt in H. by rewrite H.
    + rewrite H. cbn [Nat.ltb Nat.leb Nat.sub Nat.min replicate].
      f_equal. cbn [app]. apply take_drop.
Qed.

(** X7. For a key of at least eleven units the masked form shows its first
    seven and its last four units in clear, has bullets everywhere else, and
    is at most 43 units long. *)
Theorem maskApiKey_shape (key : list N) :
  11 <= length key ->
  exists masked,
    maskApiKey key = Some masked
    /\ length masked = 11 + 32 `min` (length key - 11)
    /\ length masked <= 43
    /\ take 7 masked = take 7 key
    /\ drop (length masked - 4) masked = drop (length key - 4) key
    /\ forall i, 7 <= i < length masked - 4 ->
         masked !! i = Some Text.bullet.
Proof.
  intros Hlen. unfold maskApiKey.
  destruct (length key <? 8)%nat eqn:E8; [apply Nat.ltb_lt in E8; lia|].
  destruct (length key <? 11)%nat eqn:E11; [apply Nat.ltb_lt in E11; lia|].
  eexists. split; [done|].
  set (n := 32 `min` (length key - 11)).
  assert (H7 : length (take 7 key) = 7) by (rewrite length_take; lia).
  assert (H4 : length (drop (length key - 4) key) = 4)
    by (rewrite length_drop; lia).
  assert (HL : length (take 7 key ++ replicate n Text.bullet
                         ++ drop (length key - 4) key) = 11 + n).
  { rewrite !length_app, length_replicate, H7, H4. lia. }
  rewrite HL. split; [done|]. split; [lia|]. split; [|split].
  - rewrite take_app_le by lia. rewrite take_ge by lia. done.
  - rewrite drop_app_ge by lia. rewrite H7.
    rewrite drop_app_ge by (rewrite length_replicate; lia).
    rewrite length_replicate.
    replace (11 + n - 4 - 7 - n) with 0 by lia. done.
  - intros i Hi. rewrite lookup_app_r by lia. rewrite H7.
    rewrite lookup_app_l by (rewrite length_replicate; lia).
    apply lookup_replicate_2. lia.
Qed.

Lemma maskApiKey_shape_witness :
  11 <= length (replicate 51 115%N)
  /\ exists masked,
       maskApiKey (replicate 51 115%N) = Some masked
       /\ length masked = 11 + 32 `min` (length (replicate 51 115%N) - 11)
       /\ length masked <= 43
       /\ take 7 masked = take 7 (replicate 51 115%N)
       /\ drop (length masked - 4) masked
          = drop (length (replicate 51 115%N) - 4) (replicate 51 115%N)
       /\ forall i, 7 <= i < length masked - 4 ->
            masked !! i = Some Text.bullet.
Proof.
  split; [simpl; lia|].
  apply (maskApiKey_shape (replicate 51 115%N)). simpl. lia.
Defined.

(** ** The temporary identifier, again *)

Lemma prefix_split (s t : string) :
  String.prefix s t = true -> exists rest, t = s +:+ rest.
Proof.
  revert t. induction s as [|c s IH]; intros [|d t]; simpl; try done.
  - by exists "".
  - by exists (String d t).
  - destruct (ascii_dec c d) as [->|]; [|done].
    intros H. apply IH in H as (rest & ->). by exists rest.
Qed.

(** X8. The temporary identifier is the same for every installation: the
    sixteen characters kept from the encoding cover only the first twelve
    units of the data URL, so neither the canvas pixels nor the extension id
    reach it. *)
Theorem temporary_id_is_constant (env : Env) :
  String.prefix "data:image/png;base64," (toDataURL env) = true ->
  temporaryId env = "ZGF0YTppbWFnZS9w".
Proof.
  intros (rest & E)%prefix_split. unfold temporaryId, Base64.btoa.
  rewrite E. cbn [String.append list_ascii_of_string Base64.encode].
  cbn [string_of_list_ascii substring].
  reflexivity.
Qed.

Lemma temporary_id_is_constant_witness :
  String.prefix "data:image/png;base64," (toDataURL Sample.offline) = true
  /\ temporaryId Sample.offline = "ZGF0YTppbWFnZS9w".
Proof.
  split; [reflexivity|].
  apply (temporary_id_is_constant Sample.offline). reflexivity.
Defined.

(** ** Settings *)

Lemma trimBy_nonblank {A} (ws : A -> bool) (l : list A) :
  trimBy ws l <> [] -> forallb ws (trimBy ws l) = false.
Proof.
  unfold trimBy. set (m := trimStartBy ws l).
  destruct m as [|d m'] eqn:Em; [done|]. intros _.
  assert (Hd : ws d = false) by (by eapply trimStartBy_head).
  destruct (trimEndBy_head ws d m' Hd) as (r & ->). simpl. by rewrite Hd.
Qed.

(** A trimmed string is blank only when it is empty. *)
Lemma trim_nonblank (s : string) : trim s <> "" -> blank (trim s) = false.
Proof.
  unfold trim, blank. rewrite list_ascii_of_string_of_list_ascii.
  intros H. apply trimBy_nonblank. intros E. apply H. by rewrite E.
Qed.

Lemma hasValidOpenaiKey_intro p k :
  sync p !! "openaiApiKey" = Some (VStr k) ->
  blank k = false ->
  sync p !! "openaiKeyValid" = Some (VBool true) ->
  hasValidOpenaiKey p = true.
Proof. intros. apply hasValidOpenaiKey_iff. by exists k. Qed.

(** X9. [saveSettings] writes nothing unless the trimmed input is not empty
    and the OpenAI API accepts it: otherwise storage and the summarize
    button stay as they were and an error is shown. *)
Theorem saveSettings_rejects (validate : string -> Response unit)
    (p : Popup) :
  trim (openaiKey (ui p)) = ""
  \/ validateOpenAIKey validate (trim (openaiKey (ui p))) = false ->
  let p' := saveSettings validate p in
  sync p' = sync p
  /\ summarizeBtn (ui p') = summarizeBtn (ui p)
  /\ connectNotion (ui p') = connectNotion (ui p)
  /\ exists message, banner (ui p') = Some (error, message).
Proof.
  intros H. unfold saveSettings. cbv zeta.
  destruct (String.eqb_spec (trim (openaiKey (ui p))) "") as [E|E].
  - repeat split. eauto.
  - destruct H as [H|H]; [done|]. rewrite H. repeat split. eauto.
Qed.

Lemma saveSettings_rejects_witness :
  trim (openaiKey (ui (on_ui (set_openaiKey "   ") Sample.linkedPopup))) = ""
  /\ let p := on_ui (set_openaiKey "   ") Sample.linkedPopup in
     let p' := saveSettings (fun _ => HttpOk ()) p in
     sync p' = sync p
     /\ summarizeBtn (ui p') = summarizeBtn (ui p)
     /\ connectNotion (ui p') = connectNotion (ui p)
     /\ exists message, banner (ui p') = Some (error, message).
Proof.
  split; [vm_compute; reflexivity|].
  apply (saveSettings_rejects (fun _ => HttpOk ())
           (on_ui (set_openaiKey "   ") Sample.linkedPopup)).
  left. vm_compute. reflexivity.
Defined.

Lemma saveSettings_accepted (validate : string -> Response unit)
    (p : Popup) :
  trim (openaiKey (ui p)) <> "" ->
  validateOpenAIKey validate (trim (openaiKey (ui p))) = true ->
  let p' := saveSettings validate p in
  sync p' !! "openaiApiKey" = Some (VStr (trim (openaiKey (ui p))))
  /\ sync p' !! "openaiKeyValid" = Some (VBool true)
  /\ hasValidOpenaiKey p' = true
  /\ summarizeBtn (ui p') = negb (backendConnected p && confirmed p)
  /\ sync p' !! "userId" = sync p !! "userId"
  /\ userId p' = userId p.
Proof.
  intros Hne Hok. unfold saveSettings. cbv zeta.
  destruct (String.eqb_spec (trim (openaiKey (ui p))) "") as [E|_]; [done|].
  rewrite Hok.
  match goal with |- context [updateUIState ?q] => set (p2 := q) end.
  assert (Hk : sync p2 !! "openaiApiKey"
               = Some (VStr (trim (openaiKey (ui p))))).
  { subst p2. cbn. rewrite lookup_insert_ne by done. apply lookup_insert_eq. }
  assert (Hv : sync p2 !! "openaiKeyValid" = Some (VBool true)).
  { subst p2. cbn. apply lookup_insert_eq. }
  assert (Hvalid : hasValidOpenaiKey p2 = true).
  { eapply hasValidOpenaiKey_intro; eauto. by apply trim_nonblank. }
  rewrite summarizeBtn_updateUIState, Hvalid, andb_true_r.
  rewrite !updateUIState_sync, updateUIState_userId.
  split; [done|]. split; [done|]. split.
  { eapply hasValidOpenaiKey_intro; rewrite ?updateUIState_sync; eauto.
    by apply trim_nonblank. }
  split; [done|]. subst p2. cbn. by rewrite !lookup_insert_ne.
Qed.

(** X10. When the OpenAI API accepts the trimmed input, [saveSettings]
    stores exactly that text with the validity flag; the credential then
    counts as valid, and the summarize button is enabled just when the
    backend is reachable and the link confirmed.  The identifier is not
    touched. *)
Theorem saveSettings_stores (validate : string -> Response unit)
    (p : Popup) :
  trim (openaiKey (ui p)) <> "" ->
  validateOpenAIKey validate (trim (openaiKey (ui p))) = true ->
  let p' := saveSettings validate p in
  sync p' !! "openaiApiKey" = Some (VStr (trim (openaiKey (ui p))))
  /\ sync p' !! "openaiKeyValid" = Some (VBool true)
  /\ hasValidOpenaiKey p' = true
  /\ summarizeBtn (ui p') = negb (backendConnected p && confirmed p)
  /\ sync p' !! "userId" = sync p !! "userId"
  /\ userId p' = userId p.
Proof. apply saveSettings_accepted. Qed.

Lemma saveSettings_stores_witness :
  let p := on_ui (set_openaiKey " sk-new ") Sample.fresh in
  trim (openaiKey (ui p)) <> ""
  /\ validateOpenAIKey (fun _ => HttpOk ()) (trim (openaiKey (ui p))) = true
  /\ let p' := saveSettings (fun _ => HttpOk ()) p in
     sync p' !! "openaiApiKey" = Some (VStr (trim (openaiKey (ui p))))
     /\ sync p' !! "openaiKeyValid" = Some (VBool true)
     /\ hasValidOpenaiKey p' = true
     /\ summarizeBtn (ui p') = negb (backendConnected p && confirmed p)
     /\ sync p' !! "userId" = sync p !! "userId"
     /\ userId p' = userId p.
Proof.
  split; [vm_compute; discriminate|]. split; [vm_compute; reflexivity|].
  apply (saveSettings_stores (fun _ => HttpOk ())
           (on_ui (set_openaiKey " sk-new ") Sample.fresh));
    [vm_compute; discriminate | vm_compute; reflexivity].
Defined.

(** X11. Round trip through storage: after a successful [saveSettings], any
    popup opened on that storage has the trimmed key put back in the input
    field by [loadSettings]. *)
Theorem saved_key_is_loaded (validate : string -> Response unit)
    (p q : Popup) :
  trim (openaiKey (ui p)) <> "" ->
  validateOpenAIKey validate (trim (openaiKey (ui p))) = true ->
  sync q = sync (saveSettings validate p) ->
  openaiKey (ui (loadSettings q)) = trim (openaiKey (ui p)).
Proof.
  intros Hne Hok Hq.
  destruct (saveSettings_accepted validate p Hne Hok) as (Hk & _).
  unfold loadSettings. rewrite Hq, Hk. simpl.
  destruct (String.eqb_spec (trim (openaiKey (ui p))) ""); done.
Qed.

Lemma saved_key_is_loaded_witness :
  let p := on_ui (set_openaiKey " sk-new ") Sample.fresh in
  let q := saveSettings (fun _ => HttpOk ()) p in
  trim (openaiKey (ui p)) <> ""
  /\ validateOpenAIKey (fun _ => HttpOk ()) (trim (openaiKey (ui p))) = true
  /\ sync q = sync (saveSettings (fun _ => HttpOk ()) p)
  /\ openaiKey (ui (loadSettings q)) = trim (openaiKey (ui p)).
Proof.
  split; [vm_compute; discriminate|]. split; [vm_compute; reflexivity|].
  split; [exact eq_refl|].
  apply (saved_key_is_loaded (fun _ => HttpOk ())
           (on_ui (set_openaiKey " sk-new ") Sample.fresh));
    [vm_compute; discriminate | vm_compute; reflexivity | exact eq_refl].
Defined.

(** X12. Any edit of the key field withdraws the validity flag: the
    summarize button is disabled and the credential no longer counts as
    valid, although the stored key itself stays. *)
Theorem key_input_invalidates (typed : string) (p : Popup) :
  let p' := onOpenaiKeyInput typed p in
  summarizeBtn (ui p') = true
  /\ hasValidOpenaiKey p' = false
  /\ sync p' !! "openaiKeyValid" = None
  /\ sync p' !! "openaiApiKey" = sync p !! "openaiApiKey"
  /\ sync p' !! "userId" = sync p !! "userId".
Proof.
  unfold onOpenaiKeyInput. cbv zeta.
  match goal with |- context [updateUIState ?q] => set (p2 := q) end.
  assert (Hv : sync p2 !! "openaiKeyValid" = None).
  { subst p2. cbn -[remove_keys]. apply remove_keys_lookup. set_solver. }
  assert (Hvalid : hasValidOpenaiKey p2 = false).
  { unfold hasValidOpenaiKey, isOpenaiKeyValid. rewrite Hv.
    destruct (sync p2 !! "openaiApiKey") as [[]|]; try done.
    apply andb_false_r. }
  rewrite summarizeBtn_updateUIState, Hvalid, andb_false_r.
  rewrite !updateUIState_sync. split; [done|]. split.
  { unfold hasValidOpenaiKey, isOpenaiKeyValid. rewrite !updateUIState_sync.
    rewrite Hv. destruct (sync p2 !! "openaiApiKey") as [[]|]; try done.
    apply andb_false_r. }
  split; [done|]. subst p2. cbn -[remove_keys].
  split; apply remove_keys_lookup_other; by intros [=]%list_elem_of_singleton.
Qed.

(** X13. In the localhost build the visibility of the save button does not
    depend on the link: the test [className.includes('connected')] also
    holds of the class name [status disconnected], so under either class
    name the button is hidden exactly when a valid credential is stored. *)
Theorem saveSettingsHidden_ignores_link (p : Popup) :
  statusClass (ui p) = {["status"; "connected"]}
  \/ statusClass (ui p) = {["status"; "disconnected"]} ->
  saveSettingsHidden p = hasValidOpenaiKey p.
Proof.
  intros H. unfold saveSettingsHidden, hasValidOpenaiKey.
  assert (E : existsb (includes "connected") (elements (statusClass (ui p)))
              = true).
  { destruct H as [-> | ->]; vm_compute; reflexivity. }
  rewrite E. destruct (sync p !! "openaiApiKey") as [[]|]; try done.
  apply andb_true_r.
Qed.

Lemma saveSettingsHidden_ignores_link_witness :
  let p :=
    set_sync (sync Sample.linkedPopup)
      (showDisconnectedState Sample.linkedPopup) in
  statusClass (ui p) = {["status"; "disconnected"]}
  /\ saveSettingsHidden p = hasValidOpenaiKey p
  /\ saveSettingsHidden p = true.
Proof.
  cbv zeta. split; [vm_compute; reflexivity|].
  split; [|vm_compute; reflexivity].
  apply (saveSettingsHidden_ignores_link
           (set_sync (sync Sample.linkedPopup)
              (showDisconnectedState Sample.linkedPopup))).
  right. vm_compute. reflexivity.
Defined.

(** ** Resetting and connecting *)

(** X14. [forceReset] leaves a clean slate: both stores are empty, no
    identifier is held, the link is unconfirmed and the summarize action
    disabled, with the connect button ready.  A connection check made next
    does not reach the backend: its result is the same in every
    environment. *)
Theorem forceReset_clean_slate (p : Popup) :
  let p' := forceReset p in
  sync p' = ∅
  /\ localStore p' = ∅
  /\ userId p' = None
  /\ backendConnected p' = false
  /\ confirmed p' = false
  /\ summarizeBtn (ui p') = true
  /\ connectNotion (ui p') = resetButton (connectNotion (ui p))
  /\ forall v env env',
       checkNotionConnection v env p' = checkNotionConnection v env' p'.
Proof.
  unfold forceReset. cbv zeta.
  match goal with |- context [updateUIState ?q] => set (p2 := q) end.
  assert (Hb : backendConnected p2 = false) by done.
  assert (Hbtn : connectNotion (ui (updateUIState p2))
                 = resetButton (connectNotion (ui p))).
  { rewrite connectNotion_updateUIState, Hb. cbn.
    case_bool_decide as Hin; [exfalso; set_solver|].
    unfold resetButton. cbn. f_equal. set_solver. }
  unfold confirmed, hasConnectedClass, showMessage, on_ui. cbn -[updateUIState].
  rewrite summarizeBtn_updateUIState, Hb.
  destruct (updateUIState_frame p2) as [[Hu Hbc Hs Hl Hc _ _ _ _] _].
  rewrite Hs, Hl, Hu, Hbc, Hc.
  repeat split; done.
Qed.

(** X15. While the connect button is in its connecting form, the projection
    leaves it alone unless the link is confirmed: after [connectToNotion]
    opened the window, neither [updateUIState] nor an edit of the key field
    re-enables the button. *)
Theorem connecting_button_is_kept (typed : string) (p : Popup) :
  isConnectedToNotion p = false ->
  let p' := fst (connectToNotion true p) in
  connectNotion (ui p') = connectingButton (connectNotion (ui p))
  /\ disabled (connectNotion (ui p')) = true
  /\ connectNotion (ui (updateUIState p')) = connectNotion (ui p')
  /\ connectNotion (ui (onOpenaiKeyInput typed p')) = connectNotion (ui p')
  /\ outbox p' = (outbox p ++ [startOAuth])%list.
Proof.
  intros Hnot. unfold isConnectedToNotion in Hnot. cbv zeta.
  set (p' := fst (connectToNotion true p)).
  assert (Hbtn : connectNotion (ui p')
                 = connectingButton (connectNotion (ui p))) by done.
  assert (Hin : bool_decide ("connecting" ∈ classList (connectNotion (ui p')))
                = true).
  { apply bool_decide_eq_true_2. rewrite Hbtn. cbn. set_solver. }
  assert (Hnot' : backendConnected p' && hasConnectedClass p' = false)
    by exact Hnot.
  split; [done|]. split; [done|]. split; [|split; [|done]].
  - by rewrite connectNotion_updateUIState, Hnot', Hin.
  - unfold onOpenaiKeyInput. cbv zeta.
    rewrite connectNotion_updateUIState.
    match goal with |- context [backendConnected ?q && hasConnectedClass ?q] =>
      change (backendConnected q && hasConnectedClass q)
        with (backendConnected p' && hasConnectedClass p')
    end.
    rewrite Hnot'. cbn [ui set_sync on_ui set_ui connectNotion set_openaiKey].
    by rewrite Hin.
Qed.

Lemma connecting_button_is_kept_witness :
  isConnectedToNotion Sample.fresh = false
  /\ let p' := fst (connectToNotion true Sample.fresh) in
     connectNotion (ui p')
     = connectingButton (connectNotion (ui Sample.fresh))
     /\ disabled (connectNotion (ui p')) = true
     /\ connectNotion (ui (updateUIState p')) = connectNotion (ui p')
     /\ connectNotion (ui (onOpenaiKeyInput "sk" p')) = connectNotion (ui p')
     /\ outbox p' = (outbox Sample.fresh ++ [startOAuth])%list.
Proof.
  split; [vm_compute; reflexivity|].
  apply (connecting_button_is_kept "sk" Sample.fresh).
  vm_compute. reflexivity.
Defined.

(** ** The background worker *)

Lemma firstConnected_spec env users u :
  Worker.firstConnected env users = Some u ->
  u ∈ users /\ Worker.answersConnected env u = true.
Proof.
  induction users as [|x users IH]; simpl; [done|].
  destruct (Worker.answersConnected env x) eqn:E.
  - intros [= <-]. split; [left | done].
  - intros [Hin Hc]%IH. split; [by right | done].
Qed.

Lemma answersConnected_spec env u :
  Worker.answersConnected env u = true ->
  exists data, fetch_status env u = HttpOk data /\ connected data = true.
Proof.
  unfold Worker.answersConnected.
  destruct (fetch_status env u) as [| |data]; try done. by exists data.
Qed.

Lemma nonempty_Some o s : nonempty o = Some s -> o = Some s /\ s <> "".
Proof.
  destruct o as [t|]; simpl; [|done].
  destruct (String.eqb_spec t ""); [done|]. by intros [= <-].
Qed.

(** What a completion check does: nothing, a time stamp, or a completion
    for a user that the backend reports as connected. *)
Lemma checkOAuthCompletion_cases v env users s :
  let s' := Worker.checkOAuthCompletion v env users s in
  s' = s
  \/ (Worker.isInProgress (Worker.oauthState s) = true
      /\ s' = Worker.checked (now env) s)
  \/ (Worker.isInProgress (Worker.oauthState s) = true
      /\ exists u store',
           s' = Worker.completed u (now env) store' s
           /\ u <> ""
           /\ Worker.answersConnected env u = true
           /\ match v with
              | Local =>
                  store' = Worker.store s
                  /\ exists list, users = HttpOk list /\ u ∈ list
              | Vercel =>
                  store' = <["lastConnectionTime" := VNum (now env)]>
                             (<["lastConnectedUser" := VStr u]>
                                (Worker.store s))
                  /\ exists chk,
                       fetch_check_completion env = HttpOk chk
                       /\ latest_user_id chk = Some u
              end).
Proof.
  unfold Worker.checkOAuthCompletion. cbv zeta.
  destruct (Worker.isInProgress (Worker.oauthState s)) eqn:Hp; [|by left].
  right. destruct v.
  - destruct users as [| |list]; try (by left).
    destruct (nonempty (Worker.firstConnected env list)) as [u|] eqn:E;
      [|by left].
    apply nonempty_Some in E as [E Hu].
    apply firstConnected_spec in E as [Hin Hc].
    right. split; [done|]. exists u, (Worker.store s). eauto 10.
  - destruct (fetch_check_completion env) as [| |chk] eqn:Ec; try (by left).
    destruct (if has_users chk then _ else _) as [u|] eqn:E; [|by left].
    destruct (Worker.answersConnected env u) eqn:Hc; [|by left].
    destruct (has_users chk); [|done].
    apply nonempty_Some in E as [E Hu].
    right. split; [done|]. eexists u, _. eauto 10.
Qed.

Lemma receive_invariant m now s : Worker.invariant (Worker.receive m now s).
Proof. destruct m; split; cbn; done. Qed.

Lemma checked_invariant now s :
  Worker.invariant s -> Worker.invariant (Worker.checked now s).
Proof. intros [H1 H2 H3]. by split. Qed.

Lemma completed_invariant u now store' s :
  u <> "" -> Worker.invariant (Worker.completed u now store' s).
Proof. intros Hu. split; cbn; try done. by intros c [= <-]. Qed.

Lemma remembered_invariant u now s :
  Worker.invariant s -> Worker.invariant (Worker.remembered u now s).
Proof. intros [H1 H2 H3]. by split. Qed.


Lemma probed_invariant v env users s :
  Worker.invariant s ->
  Worker.invariant (fst (Worker.probed v env users s))
  /\ Worker.named (snd (Worker.probed v env users s)).
Proof.
  intros Hs. unfold Worker.probed. destruct v.
  - destruct users as [| |list]; cbn; auto using checked_invariant.
    destruct (nonempty (Worker.firstConnected env list)) as [u|] eqn:E; cbn;
      auto using checked_invariant.
    apply nonempty_Some in E as [_ Hu]. auto using completed_invariant.
  - destruct (fetch_check_completion env) as [| |chk]; cbn;
      auto using checked_invariant.
    destruct (if has_users chk then _ else _) as [u|] eqn:E; cbn;
      auto using checked_invariant.
    destruct (Worker.answersConnected env u); cbn;
      auto using checked_invariant.
    split; [by apply remembered_invariant|].
    destruct (has_users chk); [|done]. by apply nonempty_Some in E as [_ ?].
Qed.

(** What holds of the worker and of its checks in flight, whatever the
    order in which messages, firings and replies arrive. *)
Lemma step_invariant v l e :
  Worker.invariant (Worker.worker l) ->
  Forall Worker.named (Worker.checks l) ->
  Worker.invariant (Worker.worker (Worker.step v l e))
  /\ Forall Worker.named (Worker.checks (Worker.step v l e)).
Proof.
  intros Hs Hc. destruct e as [m now| |i env users]; cbn [Worker.step].
  - cbn. split; [apply receive_invariant | done].
  - unfold Worker.fire. case_match; [|done]. cbn. split; [done|].
    apply Forall_app. split; [done|]. by constructor.
  - unfold Worker.resume.
    destruct (Worker.checks l !! i) as [[|u|]|] eqn:Hi; [| |done..].
    + destruct (probed_invariant v env users (Worker.worker l) Hs)
        as [Hs' Hn].
      destruct (Worker.probed v env users (Worker.worker l)) as [s c].
      cbn in *. split; [done|]. by apply Forall_insert.
    + cbn. split.
      * apply completed_invariant.
        by apply (Forall_lookup_1 _ _ _ _ Hc Hi).
      * by apply Forall_insert.
Qed.

Lemma run_invariant v events l :
  Worker.invariant (Worker.worker l) ->
  Forall Worker.named (Worker.checks l) ->
  Worker.invariant (Worker.worker (Worker.run v events l))
  /\ Forall Worker.named (Worker.checks (Worker.run v events l)).
Proof.
  revert l. unfold Worker.run.
  induction events as [|e events IH]; intros l Hs Hc; [done|].
  cbn [fold_left]. by apply IH; apply step_invariant.
Qed.

Lemma launched_invariant v events store :
  Worker.invariant
    (Worker.worker (Worker.run v events (Worker.launched store))).
Proof. apply run_invariant; [by split | constructor]. Qed.

(** X16. Whatever the order in which messages, firings of the interval and
    the replies to the checks in flight arrive, the worker is never both
    waiting for a completion and holding one; while it waits its interval is
    registered; and a completion it holds has status [success] and names a
    non-empty user. *)
Theorem worker_invariant (v : variant) (events : list Worker.event)
    (store : gmap string value) :
  Worker.invariant
    (Worker.worker (Worker.run v events (Worker.launched store))).
Proof. apply launched_invariant. Qed.

(** A check that nothing interrupts is [Worker.tick]. *)
Lemma uninterrupted_check v env users l :
  Worker.worker
    (Worker.run v
       [Worker.Fire;
        Worker.Resume (length (Worker.checks l)) env users;
        Worker.Resume (length (Worker.checks l)) env users] l)
  = Worker.tick v env users (Worker.worker l).
Proof.
  destruct l as [s cs]. unfold Worker.run, Worker.tick.
  cbn [fold_left Worker.step Worker.worker Worker.checks].
  unfold Worker.fire. cbn [Worker.worker Worker.checks].
  destruct (Worker.oauthCheckInterval s && _) eqn:Hg.
  - apply andb_prop in Hg as [_ Hp].
    unfold Worker.checkOAuthCompletion. rewrite Hp.
    unfold Worker.resume at 2. cbn [Worker.worker Worker.checks].
    rewrite lookup_last_fired. unfold Worker.probed.
    destruct v.
    + assert (forall s',
        Worker.worker
          (Worker.resume Local env users (length cs)
             {| Worker.worker := s';
                Worker.checks :=
                  <[length cs := Worker.Finished]> (cs ++ [Worker.Probing])%list
             |}) = s') as Hdone.
      { intros s'. unfold Worker.resume. cbn [Worker.checks].
        by rewrite insert_last_fired, lookup_last_fired. }
      repeat case_match; simplify_eq; apply Hdone.
    + assert (forall s',
        Worker.worker
          (Worker.resume Vercel env users (length cs)
             {| Worker.worker := s';
                Worker.checks :=
                  <[length cs := Worker.Finished]> (cs ++ [Worker.Probing])%list
             |}) = s') as Hdone.
      { intros s'. unfold Worker.resume. cbn [Worker.checks].
        by rewrite insert_last_fired, lookup_last_fired. }
      repeat case_match; simplify_eq; try apply Hdone.
      unfold Worker.resume. cbn [Worker.checks Worker.worker].
      rewrite insert_last_fired, lookup_last_fired. cbn. done.
  - assert (Hnone : forall l',
              Worker.checks l' !! length cs = None ->
              Worker.resume v env users (length cs) l' = l').
    { intros l' E. unfold Worker.resume. by rewrite E. }
    set (l0 := {| Worker.worker := s; Worker.checks := cs |}).
    assert (E : Worker.resume v env users (length cs) l0 = l0).
    { apply Hnone, lookup_ge_None_2. cbn. lia. }
    by rewrite !E.
Qed.

(** X17. A tick of the worker either leaves the completion record as it was
    or records the user of a status query that answered connected in that
    tick: for the localhost worker one of the users the backend lists, for
    the hosted one the latest user of the completion check. *)
Theorem completion_names_connected_user (v : variant) (env : Env)
    (users : Response (list string)) (s : Worker.State) :
  let s' := Worker.tick v env users s in
  Worker.completionData (Worker.oauthState s')
  = Worker.completionData (Worker.oauthState s)
  \/ exists u data,
       Worker.completionData (Worker.oauthState s')
       = Some {| Worker.status := "success"; Worker.userId := u;
                 Worker.timestamp := now env |}
       /\ fetch_status env u = HttpOk data
       /\ connected data = true
       /\ Worker.notifications s' = S (Worker.notifications s)
       /\ match v with
          | Local => exists list, users = HttpOk list /\ u ∈ list
          | Vercel =>
              exists chk,
                fetch_check_completion env = HttpOk chk
                /\ latest_user_id chk = Some u
          end.
Proof.
  cbv zeta. unfold Worker.tick.
  destruct (Worker.oauthCheckInterval s && _); [|by left].
  destruct (checkOAuthCompletion_cases v env users s)
    as [-> | [[_ ->] | [_ (u & store' & -> & Hu & Hc & Hv)]]];
    [by left | by left |].
  right. apply answersConnected_spec in Hc as (data & Hst & Hc).
  exists u, data. repeat split; try done. destruct v; tauto.
Qed.


(** What a step that is not a message does to a worker that holds a
    completion: it still holds one, and no check is started. *)
Lemma held_step v l e c :
  Worker.isInProgress (Worker.oauthState (Worker.worker l)) = false ->
  Worker.completionData (Worker.oauthState (Worker.worker l)) = Some c ->
  Worker.status c = "success" ->
  Worker.quiet [e] ->
  let l' := Worker.step v l e in
  Worker.isInProgress (Worker.oauthState (Worker.worker l')) = false
  /\ (exists c',
        Worker.completionData (Worker.oauthState (Worker.worker l'))
        = Some c'
        /\ Worker.status c' = "success")
  /\ length (Worker.checks l') = length (Worker.checks l).
Proof.
  intros Hp Hc Hs Hq. apply Forall_cons in Hq as [Hq _]. cbv zeta.
  destruct e as [m now| |i env users]; [done | |]; cbn [Worker.step].
  - unfold Worker.fire. rewrite Hp, andb_false_r. eauto.
  - unfold Worker.resume.
    destruct (Worker.checks l !! i) as [[|u|]|] eqn:Hi; [| |eauto..].
    + unfold Worker.probed.
      repeat case_match; simplify_eq; cbn; rewrite ?length_insert; eauto.
    + cbn. rewrite length_insert. eauto.
Qed.

Lemma held_quiet v events l c :
  Worker.isInProgress (Worker.oauthState (Worker.worker l)) = false ->
  Worker.completionData (Worker.oauthState (Worker.worker l)) = Some c ->
  Worker.status c = "success" ->
  Worker.quiet events ->
  let l' := Worker.run v events l in
  Worker.isInProgress (Worker.oauthState (Worker.worker l')) = false
  /\ (exists c',
        Worker.completionData (Worker.oauthState (Worker.worker l'))
        = Some c'
        /\ Worker.status c' = "success")
  /\ length (Worker.checks l') = length (Worker.checks l).
Proof.
  intros Hp Hc Hs Hq. revert l c Hp Hc Hs. unfold Worker.run.
  induction Hq as [|e events He _ IH]; intros l c Hp Hc Hs; [by eauto|].
  cbn [fold_left].
  destruct (held_step v l e c Hp Hc Hs) as (Hp' & (c' & Hc' & Hs') & Hl).
  { by repeat constructor. }
  destruct (IH _ c' Hp' Hc' Hs') as (H1 & H2 & H3).
  cbv zeta in *. split; [done|]. split; [done|]. by rewrite H3.
Qed.

(** With no check in flight and none being started, nothing but a message
    changes the worker. *)
Lemma settled_quiet v events l :
  Worker.settled l ->
  Worker.isInProgress (Worker.oauthState (Worker.worker l)) = false ->
  Worker.quiet events ->
  Worker.run v events l = l.
Proof.
  intros Hset Hp Hq. unfold Worker.run.
  induction Hq as [|e events He _ IH]; [done|].
  cbn [fold_left]. replace (Worker.step v l e) with l; [done|].
  destruct e as [m now| |i env users]; [done | |]; cbn [Worker.step].
  - unfold Worker.fire. by rewrite Hp, andb_false_r.
  - unfold Worker.resume.
    destruct (Worker.checks l !! i) as [c|] eqn:Hi; [|done].
    by rewrite (Forall_lookup_1 _ _ _ _ Hset Hi).
Qed.

(** X18. Once the worker holds a completion, and as long as no message
    arrives, it goes on holding a successful completion and starts no new
    check, whatever the firings of its interval and the replies to the
    checks in flight; a check in flight may still replace the completion it
    holds, and once none is in flight the worker no longer changes. *)
Theorem completion_is_kept (v : variant) (events more : list Worker.event)
    (store : gmap string value) (c : Worker.Completion) :
  let l := Worker.run v events (Worker.launched store) in
  Worker.completionData (Worker.oauthState (Worker.worker l)) = Some c ->
  Worker.quiet more ->
  let l' := Worker.run v more l in
  Worker.isInProgress (Worker.oauthState (Worker.worker l')) = false
  /\ (exists c',
        Worker.completionData (Worker.oauthState (Worker.worker l'))
        = Some c'
        /\ Worker.status c' = "success")
  /\ length (Worker.checks l') = length (Worker.checks l)
  /\ (Worker.settled l -> l' = l).
Proof.
  cbv zeta. intros Hc Hq.
  destruct (launched_invariant v events store) as [Hnot _ Hok].
  set (l := Worker.run v events (Worker.launched store)) in *.
  assert (Hp : Worker.isInProgress (Worker.oauthState (Worker.worker l))
               = false).
  { destruct (Worker.isInProgress _) eqn:E; [|done].
    specialize (Hnot eq_refl). congruence. }
  destruct (Hok c Hc) as [Hs _].
  destruct (held_quiet v more l c Hp Hc Hs Hq) as (H1 & H2 & H3).
  split; [done|]. split; [done|]. split; [done|].
  intros Hset. by apply settled_quiet.
Qed.

Lemma completion_is_kept_witness :
  let l := Worker.run Local Scenario.authorised (Worker.launched ∅) in
  let more := [Worker.Fire; Worker.Resume 0 Sample.offline NetworkError] in
  Worker.completionData (Worker.oauthState (Worker.worker l)) <> None
  /\ Worker.quiet more
  /\ Worker.settled l
  /\ Worker.run Local more l = l.
Proof.
  cbv zeta.
  assert (Hq : Worker.quiet
                 [Worker.Fire; Worker.Resume 0 Sample.offline NetworkError])
    by (by repeat constructor).
  assert (Hset : Worker.settled
                   (Worker.run Local Scenario.authorised (Worker.launched ∅)))
    by (by repeat constructor).
  split; [by vm_compute|]. split; [exact Hq|]. split; [exact Hset|].
  destruct (completion_is_kept Local Scenario.authorised _ ∅ _ eq_refl Hq)
    as (_ & _ & _ & H).
  exact (H Hset).
Defined.

(** X19. With no check in flight, the popup consumes a completion of the
    worker exactly once: asked while the worker holds one,
    [checkOAuthCompletion] adopts and stores the completed user and sends
    [clearOAuthState]; once that message has reached the worker, the worker
    is idle and stays idle until the next message, and the same question
    finds nothing and changes nothing. *)
Theorem completion_consumed_once (v : variant)
    (events more : list Worker.event) (store : gmap string value)
    (c : Worker.Completion) (env : Env) (now' : Z) (p : Popup) :
  let l := Worker.run v events (Worker.launched store) in
  Worker.completionData (Worker.oauthState (Worker.worker l)) = Some c ->
  Worker.settled l ->
  Worker.quiet more ->
  let r := checkOAuthCompletion (withWorker (Worker.worker l) env) p in
  let sent :=
    map (fun m => Worker.Message m now')
      (drop (length (outbox p)) (outbox (snd r))) in
  let l' := Worker.run v (sent ++ more)%list l in
  fst r = true
  /\ userId (snd r) = Some (Worker.userId c)
  /\ remoteId (snd r) = Some (Worker.userId c)
  /\ outbox (snd r) = (outbox p ++ [clearOAuthState])%list
  /\ Worker.oauthState (Worker.worker l') = Worker.idle
  /\ Worker.oauthCheckInterval (Worker.worker l') = false
  /\ checkOAuthCompletion (withWorker (Worker.worker l') env) (snd r)
     = (false, snd r).
Proof.
  cbv zeta. intros Hc Hset Hq.
  destruct (launched_invariant v events store) as [_ _ Hok].
  set (l := Worker.run v events (Worker.launched store)) in *.
  destruct (Hok c Hc) as [Hst Hne].
  assert (Hr : checkOAuthCompletion (withWorker (Worker.worker l) env) p
               = (true,
                  processCompletedOAuth
                    {| status := "success";
                       completedUserId := Worker.userId c |} p)).
  { unfold checkOAuthCompletion. cbn. rewrite Hc. cbn. by rewrite Hst. }
  rewrite Hr. cbn [fst snd].
  assert (Hsent : drop (length (outbox p))
                    (outbox (processCompletedOAuth
                               {| status := "success";
                                  completedUserId := Worker.userId c |} p))
                  = [clearOAuthState]).
  { unfold processCompletedOAuth. cbn. by rewrite drop_app_length. }
  rewrite Hsent. cbn [map app].
  change (Worker.run v (Worker.Message clearOAuthState now' :: more) l)
    with (Worker.run v more
            {| Worker.worker :=
                 Worker.receive clearOAuthState now' (Worker.worker l);
               Worker.checks := Worker.checks l |}).
  rewrite settled_quiet by done.
  split; [done|]. split; [done|]. split.
  { unfold remoteId, getStoredUserId, processCompletedOAuth. cbn.
    rewrite lookup_insert_eq. cbn.
    by destruct (String.eqb_spec (Worker.userId c) ""). }
  split; [by unfold processCompletedOAuth|]. done.
Qed.

Lemma completion_consumed_once_witness :
  let l := Worker.run Local Scenario.authorised (Worker.launched ∅) in
  let more := [Worker.Fire; Worker.Resume 0 Sample.discovered NetworkError] in
  let r :=
    checkOAuthCompletion (withWorker (Worker.worker l) Sample.discovered)
      Sample.fresh in
  let l' :=
    Worker.run Local (Worker.Message clearOAuthState 9%Z :: more) l in
  Worker.settled l
  /\ Worker.quiet more
  /\ fst r = true
  /\ Worker.oauthState (Worker.worker l') = Worker.idle
  /\ checkOAuthCompletion (withWorker (Worker.worker l') Sample.discovered)
       (snd r)
     = (false, snd r).
Proof.
  cbv zeta.
  assert (Hq : Worker.quiet
                 [Worker.Fire;
                  Worker.Resume 0 Sample.discovered NetworkError])
    by (by repeat constructor).
  assert (Hset : Worker.settled
                   (Worker.run Local Scenario.authorised (Worker.launched ∅)))
    by (by repeat constructor).
  pose proof
    (completion_consumed_once Local Scenario.authorised _ ∅ _
       Sample.discovered 9%Z Sample.fresh eq_refl Hset Hq)
    as (H1 & _ & _ & _ & H5 & _ & H7).
  split; [exact Hset|]. split; [exact Hq|].
  split; [exact H1 | split; [exact H5 | exact H7]].
Defined.

(** X30. A check that is in flight when [clearOAuthState] arrives still
    records what it finds: the worker ends with its interval cleared and a
    successful completion for the user found, and raises the notification;
    the next [checkOAuthCompletion] of a popup adopts and stores that
    user. *)
Theorem cleared_worker_records_completion (v : variant) (l : Worker.Live)
    (env : Env) (users : Response (list string)) (u : string) (now' : Z) :
  Worker.oauthCheckInterval (Worker.worker l) = true ->
  Worker.isInProgress (Worker.oauthState (Worker.worker l)) = true ->
  Worker.finds v env users u ->
  let i := length (Worker.checks l) in
  let l' :=
    Worker.run v
      [Worker.Fire; Worker.Message clearOAuthState now';
       Worker.Resume i env users; Worker.Resume i env users] l in
  Worker.oauthCheckInterval (Worker.worker l') = false
  /\ Worker.isInProgress (Worker.oauthState (Worker.worker l')) = false
  /\ Worker.completionData (Worker.oauthState (Worker.worker l'))
     = Some {| Worker.status := "success"; Worker.userId := u;
               Worker.timestamp := now env |}
  /\ Worker.notifications (Worker.worker l')
     = S (Worker.notifications (Worker.worker l))
  /\ forall env' p,
       let r := checkOAuthCompletion (withWorker (Worker.worker l') env') p in
       fst r = true
       /\ userId (snd r) = Some u
       /\ remoteId (snd r) = Some u.
Proof.
  intros Hi Hp Hfind. cbv zeta. destruct l as [s cs].
  cbn [Worker.worker Worker.checks] in *.
  unfold Worker.run. cbn [fold_left Worker.step].
  unfold Worker.fire. cbn [Worker.worker Worker.checks].
  rewrite Hi, Hp. cbn [andb Worker.worker Worker.checks].
  set (s1 := Worker.receive clearOAuthState now' s).
  assert (Hu : u <> "").
  { destruct v; cbn in Hfind.
    - destruct Hfind as (list & _ & E). by apply nonempty_Some in E as [_ ?].
    - destruct Hfind as (chk & _ & _ & E & _).
      by apply nonempty_Some in E as [_ ?]. }
  assert (Hend : exists store',
    Worker.worker
      (Worker.resume v env users (length cs)
         (Worker.resume v env users (length cs)
            {| Worker.worker := s1;
               Worker.checks := (cs ++ [Worker.Probing])%list |}))
    = Worker.completed u (now env) store' s1).
  { unfold Worker.resume at 2. cbn [Worker.worker Worker.checks].
    rewrite lookup_last_fired. unfold Worker.probed. destruct v; cbn in Hfind.
    - destruct Hfind as (list & -> & ->). eexists.
      unfold Worker.resume. cbn [Worker.worker Worker.checks].
      rewrite insert_last_fired, lookup_last_fired. reflexivity.
    - destruct Hfind as (chk & -> & -> & -> & ->). eexists.
      unfold Worker.resume. cbn [Worker.worker Worker.checks].
      rewrite insert_last_fired, lookup_last_fired. reflexivity. }
  destruct Hend as [store' ->]. cbn.
  split; [done|]. split; [done|]. split; [done|]. split; [done|].
  intros env' p. unfold checkOAuthCompletion. cbn.
  split; [done|]. split; [done|].
  unfold remoteId, getStoredUserId, processCompletedOAuth. cbn.
  rewrite lookup_insert_eq. cbn. by destruct (String.eqb_spec u "").
Qed.

Lemma cleared_worker_records_completion_witness :
  let l :=
    {| Worker.worker := Scenario.watching; Worker.checks := [] |} in
  let l' :=
    Worker.run Local
      [Worker.Fire; Worker.Message clearOAuthState 7%Z;
       Worker.Resume 0 Sample.discovered (HttpOk ["u-9"]);
       Worker.Resume 0 Sample.discovered (HttpOk ["u-9"])] l in
  Worker.finds Local Sample.discovered (HttpOk ["u-9"]) "u-9"
  /\ Worker.oauthCheckInterval (Worker.worker l') = false
  /\ Worker.completionData (Worker.oauthState (Worker.worker l')) <> None
  /\ fst (checkOAuthCompletion
            (withWorker (Worker.worker l') Sample.notConnected) Sample.fresh)
     = true.
Proof.
  cbv zeta.
  assert (Hf : Worker.finds Local Sample.discovered (HttpOk ["u-9"]) "u-9").
  { exists ["u-9"]. split; reflexivity. }
  destruct (cleared_worker_records_completion Local
              {| Worker.worker := Scenario.watching; Worker.checks := [] |}
              Sample.discovered (HttpOk ["u-9"]) "u-9" 7%Z
              eq_refl eq_refl Hf)
    as (H1 & _ & _ & _ & H5).
  split; [exact Hf|]. split; [exact H1|].
  split; [by vm_compute|].
  exact (proj1 (H5 Sample.notConnected Sample.fresh)).
Defined.

(** ** The hosted worker and [checkForMissedOAuth] *)

(** X20. [checkForMissedOAuth] adopts a user only when the worker recorded
    it with a time stamp other than 0 that is less than 30 seconds old and
    the status of that user answers connected; then the recorded user is the
    identifier held and stored.  In every other case it changes nothing. *)
Theorem missed_oauth_window (env : Env) (p : Popup) :
  let r := checkForMissedOAuth env p in
  (fst r = false /\ snd r = p)
  \/ exists user time data,
       fst r = true
       /\ stored_string (localStore p !! "lastConnectedUser") = Some user
       /\ localStore p !! "lastConnectionTime" = Some (VNum time)
       /\ time <> 0%Z
       /\ (now env - time < 30000)%Z
       /\ fetch_status env user = HttpOk data
       /\ connected data = true
       /\ userId (snd r) = Some user
       /\ remoteId (snd r) = Some user
       /\ localStore (snd r) = localStore p.
Proof.
  cbv zeta. unfold checkForMissedOAuth.
  destruct (stored_string (localStore p !! "lastConnectedUser"))
    as [user|] eqn:Hu; [|by left].
  destruct (localStore p !! "lastConnectionTime") as [[| |time]|] eqn:Ht;
    try (by left).
  destruct (Z.eqb_spec time 0); [by left|].
  destruct (Z.ltb_spec (now env - time) 30000); [|by left].
  destruct (fetch_status env user) as [| |data] eqn:Hs; try (by left).
  destruct (connected data) eqn:Hc; [|by left].
  right. exists user, time, data.
  assert (user <> "") as Hne.
  { destruct (localStore p !! "lastConnectedUser") as [[s| |]|]; try done.
    cbn in Hu. destruct (String.eqb_spec s ""); [done|]. by simplify_eq. }
  repeat split; try done.
  unfold remoteId, getStoredUserId. cbn -[updateUIState].
  rewrite updateUIState_sync. cbn. rewrite lookup_insert_eq. cbn.
  by destruct (String.eqb_spec user "").
Qed.

(** X21. A completion recorded by a tick of the hosted worker reaches a
    popup that is opened afterwards: if the popup reads the worker's local
    storage less than 30 seconds after the completion and the user still
    answers connected, [checkForMissedOAuth] adopts that user. *)
Theorem hosted_completion_reaches_popup (env : Env)
    (users : Response (list string)) (s : Worker.State)
    (c : Worker.Completion) (env' : Env) (p : Popup) :
  let s' := Worker.tick Vercel env users s in
  Worker.completionData (Worker.oauthState s) = None ->
  Worker.completionData (Worker.oauthState s') = Some c ->
  now env <> 0%Z ->
  (now env' - now env < 30000)%Z ->
  Worker.answersConnected env' (Worker.userId c) = true ->
  localStore p = Worker.store s' ->
  let r := checkForMissedOAuth env' p in
  fst r = true
  /\ userId (snd r) = Some (Worker.userId c)
  /\ remoteId (snd r) = Some (Worker.userId c).
Proof.
  cbv zeta. intros Hnone Hc Hnow Hwin Hans Hstore.
  revert Hc Hstore. unfold Worker.tick.
  destruct (Worker.oauthCheckInterval s && _); [|congruence].
  destruct (checkOAuthCompletion_cases Vercel env users s)
    as [-> | [[_ ->] | [_ (u & store' & -> & Hu & _ & -> & _)]]];
    [congruence | cbn; congruence |].
  cbn. intros [= <-] Hstore. cbn in Hans |- *.
  apply answersConnected_spec in Hans as (data & Hst & Hcon).
  unfold checkForMissedOAuth. rewrite Hstore.
  rewrite lookup_insert_ne by done. rewrite lookup_insert_eq.
  rewrite lookup_insert_eq. cbn.
  destruct (String.eqb_spec u ""); [done|].
  destruct (Z.eqb_spec (now env) 0); [done|].
  destruct (Z.ltb_spec (now env' - now env) 30000); [|lia].
  rewrite Hst, Hcon. cbn -[updateUIState].
  rewrite updateUIState_userId. split; [done|]. split; [done|].
  unfold remoteId, getStoredUserId. cbn -[updateUIState].
  rewrite updateUIState_sync. cbn. rewrite lookup_insert_eq. cbn.
  by destruct (String.eqb_spec u "").
Qed.

Lemma hosted_completion_reaches_popup_witness :
  let env := Scenario.atTime 1000 Sample.discovered in
  let env' := Scenario.atTime 2000 Sample.discovered in
  let s' := Worker.tick Vercel env NetworkError Scenario.watching in
  let p := set_localStore (Worker.store s') Sample.fresh in
  Worker.completionData (Worker.oauthState Scenario.watching) = None
  /\ Worker.completionData (Worker.oauthState s') <> None
  /\ (let r := checkForMissedOAuth env' p in
      fst r = true /\ userId (snd r) = Some "u-9"
      /\ remoteId (snd r) = Some "u-9").
Proof.
  cbv zeta. split; [reflexivity|]. split; [by vm_compute|].
  apply (hosted_completion_reaches_popup
           (Scenario.atTime 1000 Sample.discovered) NetworkError
           Scenario.watching
           {| Worker.status := "success"; Worker.userId := "u-9";
              Worker.timestamp := 1000 |}
           (Scenario.atTime 2000 Sample.discovered));
    try (vm_compute; reflexivity); try (vm_compute; discriminate).
Defined.

(** ** Saving and summarizing *)

Lemma detectRealUser_true v env p q :
  detectRealUser v env p = (true, q) ->
  exists u data,
    userId q = Some u /\ remoteId q = Some u
    /\ fetch_status env u = HttpOk data /\ connected data = true.
Proof.
  unfold detectRealUser.
  destruct (fetch_check_completion env) as [| |chk]; try done.
  destruct (if has_users chk then _ else _) as [u|] eqn:E; [|done].
  assert (u <> "") as Hu.
  { destruct (has_users chk); [|done]. by apply nonempty_Some in E as []. }
  destruct (match v with Local => _ | Vercel => _ end); [done|].
  destruct (fetch_status env u) as [| |data] eqn:Hs; try done.
  destruct (connected data) eqn:Hc; [|done].
  intros [= <-]. exists u, data. repeat split; try done.
  unfold remoteId, getStoredUserId. cbn. rewrite lookup_insert_eq. cbn.
  by destruct (String.eqb_spec u "").
Qed.

(** X22. Whenever [saveToNotionWithCategory] sends a save request, whatever
    the reply to it, the request carries the identifier the popup holds
    afterwards, and within the same call the backend answered a status
    query for that identifier with connected. *)
Theorem save_posts_only_for_connected_user (v : variant) (env : Env)
    (services : Services) (summary url title category : string)
    (p : Popup) (request : SaveRequest) :
  let o := saveToNotionWithCategory v env services summary url title
             category p in
  posted o = Some request ->
  exists u data,
    save_user_id request = Some u
    /\ userId (after o) = Some u
    /\ fetch_status env u = HttpOk data
    /\ connected data = true
    /\ save_summary request = summary
    /\ save_category request = category.
Proof.
  cbv zeta. unfold saveToNotionWithCategory.
  destruct (nonempty (userId p)) as [id|] eqn:Hid; [|done].
  apply nonempty_Some in Hid as [Hid _].
  destruct (fetch_status env id) as [| |statusData] eqn:Hs; try done.
  destruct (connected statusData) eqn:Hc.
  - assert (exists u data, userId p = Some u
              /\ fetch_status env u = HttpOk data /\ connected data = true)
      as (u & data & Hu & Hst & Hcon) by eauto.
    destruct (notion_save services _); cbn; intros [= <-]; cbn;
      exists u, data; by repeat split.
  - destruct (detectRealUser v env p) as [verified p1] eqn:Hd.
    destruct verified; [|done].
    apply detectRealUser_true in Hd as (u & data & Hu & _ & Hst & Hcon).
    destruct (notion_save services _); cbn; intros [= <-]; cbn;
      exists u, data; by repeat split.
Qed.

Lemma save_posts_only_for_connected_user_witness :
  let o :=
    saveToNotionWithCategory Local Sample.discovered
      (Scenario.services (PostRefused 500 None)) "A summary"
      "https://example.org/post" "A post" "Technology" Sample.linkedPopup in
  exists request u data,
    posted o = Some request
    /\ save_user_id request = Some u
    /\ userId (after o) = Some u
    /\ fetch_status Sample.discovered u = HttpOk data
    /\ connected data = true.
Proof.
  cbv zeta. eexists.
  destruct
    (save_posts_only_for_connected_user Local Sample.discovered
       (Scenario.services (PostRefused 500 None)) "A summary"
       "https://example.org/post" "A post" "Technology" Sample.linkedPopup
       _ eq_refl)
    as (u & data & H1 & H2 & H3 & H4 & _).
  exists u, data. split; [reflexivity|]. by repeat split.
Defined.

(** X23. A run of the summarize action that completes leaves the summarize
    button enabled, whatever happened on the way; a run suspended in the
    category dialog leaves it disabled and has not touched the identifier
    or durable storage. *)
Theorem summarize_button_after_run (v : variant) (env : Env)
    (services : Services) (tab : Tab) (content : option string)
    (p : Popup) :
  match summarizeCurrentPage v env services tab content p with
  | Completed q => summarizeBtn (ui q) = false
  | Suspended q =>
      summarizeBtn (ui q) = true /\ userId q = userId p /\ sync q = sync p
      /\ statusClass (ui q) = statusClass (ui p)
  end.
Proof.
  unfold summarizeCurrentPage.
  destruct (nonempty content); [|done].
  destruct (stored_string _); [|done].
  destruct (summarizeAndCategorizeWithBackend _ _ _ _); [done|].
  destruct (chooseCategory _ _); [|done].
  by destruct (result _).
Qed.

(** X24. When the status query of the save step fails with an HTTP error,
    the run completes with the link reset: the identifier is replaced by
    the temporary one, the stored identifier and the summarization
    credential are removed, and the error is on display.  The summarize
    button is nevertheless left enabled, although the projection would
    disable it. *)
Theorem summarize_after_failed_verification (v : variant) (env : Env)
    (services : Services) (tab : Tab) (content : option string)
    (text key chosen id : string) (data : Summary) (code : Z) (p : Popup) :
  nonempty content = Some text ->
  stored_string (sync p !! "openaiApiKey") = Some key ->
  summarizeAndCategorizeWithBackend services text (title tab) key
  = inr data ->
  chooseCategory services (category data) = Some chosen ->
  nonempty (userId p) = Some id ->
  fetch_status env id = HttpError code ->
  exists q,
    summarizeCurrentPage v env services tab content p = Completed q
    /\ summarizeBtn (ui q) = false
    /\ canAct q = false
    /\ confirmed q = false
    /\ userId q = Some (temporaryId env)
    /\ remoteId q = None
    /\ sync q !! "openaiApiKey" = None
    /\ sync q !! "openaiKeyValid" = None
    /\ banner (ui q)
       = Some (error,
               "Failed to save to Notion: "
               +:+ "Unable to verify Notion connection. Please reconnect.").
Proof.
  intros Hc Hk Hs Hch Hid Hst.
  unfold summarizeCurrentPage. rewrite Hc. cbn -[saveToNotionWithCategory].
  rewrite Hk, Hs, Hch.
  unfold saveToNotionWithCategory. cbn -[forceDisconnectedState].
  rewrite Hid, Hst. cbn -[forceDisconnectedState].
  set (p2 := showMessage _ _ (showMessage _ _ _)).
  destruct (forceDisconnectedState_spec env p2) as (Hconf & Hsync & Hu & _).
  cbv zeta in Hconf, Hsync, Hu.
  assert (sync (forceDisconnectedState env p2) !! "userId" = None) as Hid'.
  { rewrite Hsync, credential_cleared_userId. cbn. apply lookup_delete_eq. }
  destruct (credential_cleared (remove_keys ["userId"] (sync p2)))
    as [Hk1 Hk2].
  rewrite <- Hsync in Hk1, Hk2. clear Hsync.
  generalize dependent (forceDisconnectedState env p2). intros q Hconf Hu Hid' Hk1 Hk2.
  eexists. split; [reflexivity|].
  split; [reflexivity|].
  split.
  { unfold canAct. rewrite summarizeBtn_updateUIState.
    unfold hasValidOpenaiKey. cbn. rewrite Hk1. by rewrite !andb_false_r. }
  split; [exact Hconf|]. split; [exact Hu|].
  split; [unfold remoteId, getStoredUserId; cbn; by rewrite Hid'|].
  split; [exact Hk1|]. split; [exact Hk2|]. reflexivity.
Qed.

Lemma summarize_after_failed_verification_witness :
  exists q,
    summarizeCurrentPage Local Sample.statusFails
      (Scenario.services PostThrown) Scenario.tab (Some "Some text")
      Sample.linkedPopup
    = Completed q
    /\ summarizeBtn (ui q) = false
    /\ canAct q = false
    /\ sync q !! "openaiApiKey" = None.
Proof.
  destruct
    (summarize_after_failed_verification Local Sample.statusFails
       (Scenario.services PostThrown) Scenario.tab (Some "Some text")
       "Some text" "sk-test" "Technology" Sample.user
       {| summary := "A summary"; category := "Technology" |} 503%Z
       Sample.linkedPopup eq_refl eq_refl eq_refl eq_refl eq_refl eq_refl)
    as (q & H1 & H2 & H3 & _ & _ & _ & H7 & _).
  exists q. split; [exact H1|]. split; [exact H2|]. split; [exact H3|].
  exact H7.
Defined.

(** ** The completion poller in any environment *)

Lemma fallbackCheck_cases limit v env n p :
  fallbackCheck limit v env n p = linked v env n p
  \/ exists announce,
       fallbackCheck limit v env n p = timeoutCheck limit n announce p.
Proof.
  unfold fallbackCheck.
  destruct (nonempty (userId p)); [|eauto].
  destruct (fetch_status env _) as [| |data]; [eauto | eauto |].
  destruct (connected data); eauto.
Qed.

(** What a resumption can do, in any environment. *)
Lemma resume_cases limit v env i s :
  let s' := Polling.resume limit v env i s in
  (s' = s
   /\ (Polling.firings s !! i = None
       \/ Polling.firings s !! i = Some Polling.Returned))
  \/ (exists f0 f q,
        Polling.firings s !! i = Some f0
        /\ s' = Polling.suspend i f q s
        /\ f <> Polling.AwaitCheckNotionConnection
        /\ f <> Polling.Returned
        /\ Polling.remaining v f < Polling.remaining v f0)
  \/ (exists q, s' = Polling.markLinked i q s)
  \/ (exists announce q, s' = Polling.timeoutEnd limit announce i q s)
  \/ (Polling.firings s !! i = Some Polling.AwaitCheckNotionConnection
      /\ exists q, s' = Polling.suspend i Polling.Returned q s).
Proof.
  cbv zeta. unfold Polling.resume.
  destruct (Polling.firings s !! i) as [[| |id| |]|] eqn:Hi.
  - destruct (detectRealUser v env (Polling.popup s)) as [[] q];
      [right; right; left; by eexists|].
    destruct v.
    + right; left. exists Polling.AwaitDetectRealUser,
        Polling.AwaitCheckOAuthCompletion, q. cbn. by repeat split; try lia.
    + unfold Polling.requestStatus. destruct (nonempty (userId q)) as [id|].
      * right; left. exists Polling.AwaitDetectRealUser,
          (Polling.AwaitStatus id), q. cbn. by repeat split; try lia.
      * right; right; right; left. by eexists _, _.
  - destruct (checkOAuthCompletion env (Polling.popup s)) as [b q].
    destruct v.
    + unfold Polling.requestStatus. destruct (nonempty (userId q)) as [id|].
      * right; left. exists Polling.AwaitCheckOAuthCompletion,
          (Polling.AwaitStatus id), q. cbn. by repeat split; try lia.
      * right; right; right; left. by eexists _, _.
    + destruct b; [right; right; left; by eexists|].
      right; left. exists Polling.AwaitCheckOAuthCompletion,
        Polling.AwaitDetectRealUser, q. cbn. by repeat split; try lia.
  - destruct (fetch_status env id) as [| |data];
      [right; right; right; left; by eexists _, _..|].
    destruct (connected data);
      [right; right; left; by eexists
      | right; right; right; left; by eexists _, _].
  - right; right; right; right. split; [done|]. by eexists.
  - left. auto.
  - left. auto.
Qed.

(** Every firing is counted when it starts, and a firing awaits
    [checkNotionConnection] only after the interval was cleared. *)
Lemma polling_wellformed limit v events s :
  Polling.attempts s = length (Polling.firings s) ->
  (forall i,
     Polling.firings s !! i = Some Polling.AwaitCheckNotionConnection ->
     Polling.pollInterval s = false) ->
  let s' := Polling.run limit v events s in
  Polling.attempts s' = length (Polling.firings s')
  /\ (forall i,
        Polling.firings s' !! i = Some Polling.AwaitCheckNotionConnection ->
        Polling.pollInterval s' = false).
Proof.
  revert s. unfold Polling.run.
  induction events as [|e events IH]; intros s Hn Hc; [done|].
  cbn [fold_left]. apply IH; clear IH; destruct e as [|i env];
    cbn [Polling.step].
  - unfold Polling.fire. destruct (Polling.pollInterval s); [|done].
    cbn. rewrite length_app. cbn. lia.
  - destruct (resume_cases limit v env i s)
      as [[-> _] | [(f0 & f & q & _ & -> & _) | [(q & ->)
         | [(announce & q & ->) | (_ & q & ->)]]]]; cbn;
      rewrite ?length_insert; try done.
    destruct (timeoutEnd_spec limit announce i q s) as (-> & -> & _).
    by rewrite length_insert.
  - unfold Polling.fire. destruct (Polling.pollInterval s) eqn:Hp; [|done].
    cbn. intros i Hi. apply lookup_app_Some in Hi as [Hi | [_ Hi]].
    + by eapply Hc.
    + destruct (i - length (Polling.firings s)) as [|[|?]], v; done.
  - destruct (resume_cases limit v env i s)
      as [[-> _] | [(f0 & f & q & _ & -> & Hf & _) | [(q & ->)
         | [(announce & q & ->) | (_ & q & ->)]]]]; cbn; try done.
    + intros j Hj.
      apply list_lookup_insert_Some in Hj as [(_ & ? & _) | [_ Hj]];
        [congruence | by eapply Hc].
    + intros j.
      destruct (timeoutEnd_spec limit announce i q s) as (_ & -> & -> & _).
      intros Hj.
      apply list_lookup_insert_Some in Hj as [(_ & ? & _) | [_ Hj]];
        [congruence|].
      by rewrite (Hc j Hj).
    + intros j Hj.
      apply list_lookup_insert_Some in Hj as [(_ & ? & _) | [_ Hj]];
        [congruence | by eapply Hc].
Qed.

(** A cleared interval stays cleared, and the counter no longer moves. *)
Lemma cleared_stays limit v events s :
  Polling.pollInterval s = false ->
  let s' := Polling.run limit v events s in
  Polling.pollInterval s' = false
  /\ Polling.attempts s' = Polling.attempts s.
Proof.
  revert s. unfold Polling.run.
  induction events as [|e events IH]; intros s Hoff; [done|].
  cbn [fold_left].
  assert (Polling.pollInterval (Polling.step limit v s e) = false
          /\ Polling.attempts (Polling.step limit v s e) = Polling.attempts s)
    as [Hoff' Ha].
  { destruct e as [|i env]; cbn [Polling.step].
    - unfold Polling.fire. by rewrite Hoff.
    - destruct (resume_cases limit v env i s)
        as [[-> _] | [(f0 & f & q & _ & -> & _) | [(q & ->)
           | [(announce & q & ->) | (_ & q & ->)]]]]; cbn; try done.
      destruct (timeoutEnd_spec limit announce i q s) as (-> & _ & -> & _).
      by rewrite Hoff. }
  destruct (IH _ Hoff') as [H1 H2]. split; [done|]. by rewrite H2.
Qed.

Lemma resume_frame limit v env j s :
  Polling.attempts (Polling.resume limit v env j s) = Polling.attempts s
  /\ forall i, i <> j ->
       Polling.firings (Polling.resume limit v env j s) !! i
       = Polling.firings s !! i.
Proof.
  destruct (resume_cases limit v env j s)
    as [[-> _] | [(f0 & f & q & _ & -> & _) | [(q & ->)
       | [(announce & q & ->) | (_ & q & ->)]]]]; cbn;
    try (split; [done|]; intros i Hi; by rewrite list_lookup_insert_ne).
  - done.
  - destruct (timeoutEnd_spec limit announce j q s) as (-> & -> & _).
    split; [done|]. intros i Hi. by rewrite list_lookup_insert_ne.
Qed.

(** Once the counter has reached the limit, a suspended firing clears the
    interval by the time it has been resumed as often as it has requests
    left, whatever else happens in between. *)
Lemma suspended_firing_stops limit v i events s :
  Polling.attempts s = length (Polling.firings s) ->
  (forall k,
     Polling.firings s !! k = Some Polling.AwaitCheckNotionConnection ->
     Polling.pollInterval s = false) ->
  limit <= Polling.attempts s ->
  (Polling.pollInterval s = false
   \/ exists f, Polling.firings s !! i = Some f
                /\ f <> Polling.Returned
                /\ Polling.remaining v f <= Polling.resumptions i events) ->
  Polling.pollInterval (Polling.run limit v events s) = false.
Proof.
  revert s. induction events as [|e events IH]; intros s Hn Hc Hlim H.
  { destruct H as [H | (f & Hf & Hr & Hrem)]; [done|].
    destruct f, v; cbn in Hrem; try lia; try done; by eapply Hc. }
  destruct (Polling.pollInterval s) eqn:Hp;
    [|by apply (cleared_stays limit v (e :: events) s)].
  destruct H as [H | (f & Hf & Hr & Hrem)]; [done|].
  destruct (polling_wellformed limit v [e] s Hn) as [Hn' Hc'].
  { by rewrite Hp. }
  cbn [Polling.run fold_left] in Hn', Hc'.
  change (Polling.run limit v (e :: events) s)
    with (Polling.run limit v events (Polling.step limit v s e)).
  apply IH; [done | done | |]; clear IH.
  { destruct e as [|j env]; cbn [Polling.step].
    - unfold Polling.fire. rewrite Hp. cbn. lia.
    - by rewrite (proj1 (resume_frame limit v env j s)). }
  destruct e as [|j env]; cbn [Polling.step].
  - right. exists f. unfold Polling.fire. rewrite Hp. cbn.
    split; [by apply lookup_app_l_Some|]. done.
  - destruct (decide (j = i)) as [->|Hne].
    + assert (Hres : Polling.resumptions i (Polling.Resume i env :: events)
                     = S (Polling.resumptions i events)).
      { unfold Polling.resumptions. cbn [List.filter Polling.resumes].
        by rewrite Nat.eqb_refl. }
      rewrite Hres in Hrem.
      assert (Hi : i < length (Polling.firings s))
        by (by eapply lookup_lt_Some).
      destruct (resume_cases limit v env i s)
        as [[_ [E|E]] | [(f0 & f' & q & Hf0 & -> & _ & Hf' & Hlt)
           | [(q & ->) | [(announce & q & ->) | (E & _)]]]].
      * congruence.
      * congruence.
      * right. exists f'. cbn. rewrite list_lookup_insert_eq by done.
        split; [done|]. split; [done|]. rewrite Hf in Hf0.
        injection Hf0 as <-. lia.
      * by left.
      * left.
        destruct (timeoutEnd_spec limit announce i q s) as (_ & _ & -> & _).
        rewrite Hp. cbn. apply negb_false_iff, Nat.leb_le. lia.
      * pose proof (Hc i E). congruence.
    + right. exists f.
      rewrite (proj2 (resume_frame limit v env j s) i) by done.
      split; [done|]. split; [done|].
      unfold Polling.resumptions in *.
      cbn [List.filter Polling.resumes] in Hrem.
      by rewrite (proj2 (Nat.eqb_neq j i)) in Hrem.
Qed.

(** X25. Whatever the backend and the worker answer and however the firings
    of the poller overlap: once [limit] firings have started, the interval
    is cleared by the time any firing that is still suspended has been
    resumed three times; every firing was counted when it started; and once
    the interval is cleared it stays cleared and no further firing is
    counted.  Before [limit] firings have started, the interval is cleared
    only by a firing that saw a connected user and marked the button. *)
Theorem poller_always_stops (limit : nat) (v : variant)
    (events more : list Polling.event) (i : nat) (f : Polling.firing)
    (p : Popup) :
  let s :=
    Polling.run limit v events (Polling.startOAuthCompletionPolling p) in
  limit <= Polling.attempts s ->
  Polling.firings s !! i = Some f ->
  f <> Polling.Returned ->
  3 <= Polling.resumptions i more ->
  let s' := Polling.run limit v more s in
  Polling.pollInterval s' = false
  /\ Polling.attempts s' = length (Polling.firings s')
  /\ (forall later,
        let s'' := Polling.run limit v later s' in
        Polling.pollInterval s'' = false
        /\ Polling.attempts s'' = Polling.attempts s')
  /\ (forall t e,
        Polling.pollInterval t = true ->
        Polling.attempts t < limit ->
        let t' := Polling.step limit v t e in
        Polling.pollInterval t' = false ->
        textContent (connectNotion (ui (Polling.popup t')))
        = textContent (connectedButton Sample.button)
        /\ exists j,
             Polling.firings t' !! j
             = Some Polling.AwaitCheckNotionConnection).
Proof.
  cbv zeta. intros Hlim Hf Hr Hres.
  destruct (polling_wellformed limit v events
              (Polling.startOAuthCompletionPolling p))
    as [Hn Hc]; [done | done |]. cbv zeta in Hn, Hc.
  set (s := Polling.run limit v events
              (Polling.startOAuthCompletionPolling p)) in *.
  assert (Hoff : Polling.pollInterval (Polling.run limit v more s) = false).
  { apply (suspended_firing_stops limit v i more s); [done | done | done |].
    right. exists f. split; [done|]. split; [done|].
    destruct f, v; cbn; lia. }
  split; [done|]. split.
  { by apply (polling_wellformed limit v more s). }
  split.
  { intros later. by apply cleared_stays. }
  intros t e Hon Hlt. cbv zeta. intros Hcl.
  destruct e as [|j env]; cbn [Polling.step] in *.
  { unfold Polling.fire in Hcl. by rewrite Hon in Hcl. }
  assert (Hj : j < length (Polling.firings t)).
  { destruct (Polling.firings t !! j) eqn:E; [by eapply lookup_lt_Some|].
    unfold Polling.resume in Hcl. rewrite E in Hcl. congruence. }
  destruct (resume_cases limit v env j t)
    as [[E _] | [(f0 & f' & q & _ & E & _) | [(q & E)
       | [(announce & q & E) | (_ & q & E)]]]];
    rewrite E in Hcl |- *; cbn in Hcl; try congruence.
  - cbn. split; [done|]. exists j. by apply list_lookup_insert_eq.
  - destruct (timeoutEnd_spec limit announce j q t) as (_ & _ & Hpi & _).
    rewrite Hpi, Hon in Hcl. apply negb_false_iff, Nat.leb_le in Hcl. lia.
Qed.

Lemma poller_always_stops_witness :
  let e := Sample.notConnected in
  let events := [Polling.Fire; Polling.Fire; Polling.Fire] in
  let more :=
    [Polling.Resume 1 e; Polling.Fire; Polling.Resume 1 Sample.discovered;
     Polling.Resume 0 e; Polling.Resume 1 e] in
  let s :=
    Polling.run 3 Local events
      (Polling.startOAuthCompletionPolling Sample.fresh) in
  let s' := Polling.run 3 Local more s in
  3 <= Polling.attempts s
  /\ Polling.firings s !! 1 = Some Polling.AwaitDetectRealUser
  /\ 3 <= Polling.resumptions 1 more
  /\ Polling.pollInterval s' = false
  /\ Polling.attempts s' = length (Polling.firings s').
Proof.
  cbv zeta.
  assert (H1 : 3 <= Polling.attempts
                      (Polling.run 3 Local
                         [Polling.Fire; Polling.Fire; Polling.Fire]
                         (Polling.startOAuthCompletionPolling Sample.fresh)))
    by (cbn; lia).
  assert (H3 : 3 <= Polling.resumptions 1
                      [Polling.Resume 1 Sample.notConnected; Polling.Fire;
                       Polling.Resume 1 Sample.discovered;
                       Polling.Resume 0 Sample.notConnected;
                       Polling.Resume 1 Sample.notConnected]) by (cbn; lia).
  destruct (poller_always_stops 3 Local
              [Polling.Fire; Polling.Fire; Polling.Fire] _ 1
              Polling.AwaitDetectRealUser Sample.fresh H1 eq_refl
              ltac:(discriminate) H3)
    as (Hoff & Hn & _).
  split; [exact H1|]. split; [reflexivity|]. split; [exact H3|].
  split; [exact Hoff | exact Hn].
Defined.

(** ** Opening the popup *)

Lemma disconnected_class (p : Popup) :
  statusClass (ui p) = {["status"; "disconnected"]} -> confirmed p = false.
Proof.
  unfold confirmed, hasConnectedClass. intros ->.
  apply bool_decide_eq_false. set_solver.
Qed.

Lemma updateUIState_backendConnected p :
  backendConnected (updateUIState p) = backendConnected p.
Proof. apply updateUIState_frame. Qed.

Lemma checkOAuthCompletion_statusClass env p :
  statusClass (ui (snd (checkOAuthCompletion env p))) = statusClass (ui p)
  /\ backendConnected (snd (checkOAuthCompletion env p)) = backendConnected p.
Proof.
  unfold checkOAuthCompletion.
  destruct (getOAuthStatus env) as [r|]; [|done].
  destruct (completionData r) as [c|]; [|done].
  by destruct (String.eqb _ _).
Qed.

Lemma checkActiveOAuthSession_statusClass env p :
  statusClass (ui (checkActiveOAuthSession env p)) = statusClass (ui p)
  /\ backendConnected (checkActiveOAuthSession env p) = backendConnected p.
Proof.
  unfold checkActiveOAuthSession.
  destruct (getOAuthStatus env) as [r|]; [|done].
  destruct (isInProgress r); [|done]. apply checkOAuthCompletion_statusClass.
Qed.

Lemma requireAuthentication_statusClass p :
  statusClass (ui p) = {["status"; "disconnected"]} ->
  statusClass (ui (requireAuthentication p)) = {["status"; "disconnected"]}
  /\ backendConnected (requireAuthentication p) = backendConnected p.
Proof.
  intros Hp. unfold requireAuthentication.
  destruct (needsAuthentication (userId p)); [|done].
  by rewrite updateUIState_statusClass, updateUIState_backendConnected.
Qed.

Lemma worthVerifying_spec o :
  worthVerifying o = true <-> exists id, o = Some id /\ 20 < String.length id.
Proof.
  unfold worthVerifying. split.
  - destruct (nonempty o) as [s|] eqn:E; [|done].
    apply nonempty_Some in E as [-> _]. intros H%Nat.ltb_lt. eauto.
  - intros (id & -> & Hlen). cbn -[Nat.ltb].
    destruct (String.eqb_spec id "") as [->|]; [cbn in Hlen; lia|].
    by apply Nat.ltb_lt.
Qed.

Lemma verifyStoredConnection_spec env p :
  verifyStoredConnection env p = true <->
  exists id data,
    nonempty (userId p) = Some id
    /\ fetch_status env id = HttpOk data /\ connected data = true.
Proof.
  unfold verifyStoredConnection. split.
  - destruct (nonempty (userId p)) as [id|]; [|done].
    destruct (fetch_status env id) as [| |data] eqn:E; try done. eauto.
  - intros (id & data & -> & -> & ->). done.
Qed.

(** X26. Opening the localhost popup confirms the link exactly when the
    backend answers and the stored identifier is longer than 20 characters
    and its status is connected.  The periodic probe of the backend and the
    focus listeners are set up exactly when the backend answers and no link
    was confirmed: a popup that restored its session never probes the
    backend again. *)
Theorem init_outcome (env : Env) (p : Popup) :
  let r := init env p in
  (confirmed (fst r) = true <->
   fetch_root env = HttpOk ()
   /\ exists id data,
        remoteId p = Some id /\ 20 < String.length id
        /\ fetch_status env id = HttpOk data /\ connected data = true)
  /\ (backendConnected (fst r) = true <-> fetch_root env = HttpOk ())
  /\ snd r = backendConnected (fst r) && negb (confirmed (fst r)).
Proof.
  cbv zeta. unfold init.
  set (p0 := generateUserId env (loadSettings (bindEvents p))).
  assert (sync p0 = sync p) as Hsync.
  { unfold p0, generateUserId, loadStoredUserId, loadSettings, bindEvents.
    repeat case_match; done. }
  unfold testBackendConnection.
  destruct (fetch_root env) as [| |[]] eqn:Hroot.
  1,2: cbn -[updateUIState];
    rewrite (disconnected_class (updateUIState _))
      by (by rewrite updateUIState_statusClass);
    rewrite updateUIState_backendConnected; cbn;
    split; [split; [done | by intros [? _]] | split; [by split | done]].
  set (p2 := on_ui _ _).
  assert (getStoredUserId p2 = remoteId p) as Hst.
  { unfold remoteId, getStoredUserId. cbn. by rewrite Hsync. }
  assert (statusClass (ui p2) = {["status"; "disconnected"]}) as Hc2 by done.
  assert (backendConnected p2 = true) as Hb2 by done.
  unfold restoreSession. rewrite Hst.
  destruct (worthVerifying (remoteId p)) eqn:Hw.
  - apply worthVerifying_spec in Hw as (id & Hid & Hlen).
    destruct (verifyStoredConnection env _) eqn:Hv.
    + apply verifyStoredConnection_spec in Hv
        as (id' & data & Hid' & Hs & Hcon).
      cbn in Hid'. rewrite Hid in Hid'.
      apply nonempty_Some in Hid' as [[= <-] _].
      destruct (showConnectedState_spec None (set_userId (remoteId p) p2))
        as (Hconf & _ & _).
      cbv zeta in Hconf. cbn [fst snd]. rewrite Hconf.
      assert (backendConnected
                (showConnectedState None (set_userId (remoteId p) p2)) = true)
        as ->.
      { unfold showConnectedState. cbv zeta.
        destruct (wasConnected _); cbn -[updateUIState];
          by rewrite updateUIState_backendConnected. }
      split; [|done]. split; [|done]. intros _. split; [done|].
      exists id, data. by rewrite Hid.
    + cbn [fst snd].
      match goal with
      | |- context [checkActiveOAuthSession env ?q] => set (p4 := q)
      end.
      assert (statusClass (ui p4) = {["status"; "disconnected"]}) as Hc4.
      { unfold p4, generateUserId, loadStoredUserId. cbn.
        by destruct (stored_string _). }
      assert (backendConnected p4 = true) as Hb4.
      { unfold p4, generateUserId, loadStoredUserId. cbn.
        by destruct (stored_string _). }
      destruct (checkActiveOAuthSession_statusClass env p4) as [Hc5 Hb5].
      rewrite Hc4 in Hc5.
      destruct (requireAuthentication_statusClass _ Hc5) as [Hc6 Hb6].
      rewrite (disconnected_class (updateUIState _))
        by (by rewrite updateUIState_statusClass).
      rewrite updateUIState_backendConnected, Hb6, Hb5, Hb4.
      split; [|done]. split; [done|].
      intros (_ & id' & data & Hid' & _ & Hs & Hcon).
      rewrite Hid in Hid'. injection Hid' as <-.
      assert (verifyStoredConnection env (set_userId (remoteId p) p2) = true)
        as Hv'; [|congruence].
      apply verifyStoredConnection_spec. exists id, data.
      split; [|done]. cbn. rewrite Hid. cbn.
      destruct (String.eqb_spec id "") as [->|]; [cbn in Hlen; lia | done].
  - cbn [fst snd].
    match goal with
    | |- context [checkActiveOAuthSession env ?q] => set (p4 := q)
    end.
    assert (statusClass (ui p4) = {["status"; "disconnected"]}) as Hc4
      by done.
    assert (backendConnected p4 = true) as Hb4 by done.
    destruct (checkActiveOAuthSession_statusClass env p4) as [Hc5 Hb5].
    rewrite Hc4 in Hc5.
    destruct (requireAuthentication_statusClass _ Hc5) as [Hc6 Hb6].
    rewrite (disconnected_class (updateUIState _))
      by (by rewrite updateUIState_statusClass).
    rewrite updateUIState_backendConnected, Hb6, Hb5, Hb4.
    split; [|done]. split; [done|].
    intros (_ & id' & data & Hid' & Hlen & _).
    assert (worthVerifying (remoteId p) = true) as Hw'; [|congruence].
    apply worthVerifying_spec. eauto.
Qed.

(** ** Invariants of a session *)

Lemma preserves_refl p : preserves p p.
Proof. by split. Qed.

Lemma preserves_trans p q r : preserves p q -> preserves q r -> preserves p r.
Proof. intros [] []. split; auto. Qed.

Lemma identityInSync_same p q :
  userId q = userId p -> sync q !! "userId" = sync p !! "userId" ->
  identityInSync p -> identityInSync q.
Proof.
  unfold identityInSync, remoteId, getStoredUserId.
  intros -> ->. done.
Qed.

Lemma identityInSync_none q : sync q !! "userId" = None -> identityInSync q.
Proof.
  unfold identityInSync, remoteId, getStoredUserId. by intros ->.
Qed.

Lemma credentialStored_same p q :
  sync q !! "openaiApiKey" = sync p !! "openaiApiKey" ->
  sync q !! "openaiKeyValid" = sync p !! "openaiKeyValid" ->
  credentialStored p -> credentialStored q.
Proof.
  unfold credentialStored, isOpenaiKeyValid. intros -> ->. done.
Qed.

Lemma credentialStored_none q :
  sync q !! "openaiKeyValid" = None -> credentialStored q.
Proof. unfold credentialStored, isOpenaiKeyValid. by intros ->. Qed.

(** A step that touches neither the identifier nor durable storage. *)
Lemma preserves_frame p q r :
  userId r = userId q -> sync r = sync q -> preserves p q -> preserves p r.
Proof.
  intros Hu Hs Hpq. apply (preserves_trans p q r Hpq). split.
  - apply identityInSync_same; [done | by rewrite Hs].
  - apply credentialStored_same; by rewrite Hs.
Qed.

Lemma preserves_updateUIState p q :
  preserves p q -> preserves p (updateUIState q).
Proof.
  apply preserves_frame; [apply updateUIState_userId | apply updateUIState_sync].
Qed.

Lemma preserves_on_ui p f q : preserves p q -> preserves p (on_ui f q).
Proof. by apply preserves_frame. Qed.

Lemma preserves_showMessage p m t q :
  preserves p q -> preserves p (showMessage m t q).
Proof. by apply preserves_frame. Qed.

Lemma preserves_sendMessage p m q :
  preserves p q -> preserves p (sendMessage m q).
Proof. by apply preserves_frame. Qed.

Lemma preserves_defer p t q : preserves p q -> preserves p (defer t q).
Proof. by apply preserves_frame. Qed.

Lemma preserves_set_backendConnected p b q :
  preserves p q -> preserves p (set_backendConnected b q).
Proof. by apply preserves_frame. Qed.

Lemma preserves_set_localStore p m q :
  preserves p q -> preserves p (set_localStore m q).
Proof. by apply preserves_frame. Qed.

Lemma setNotionUserId_inSync u q : identityInSync (setNotionUserId u q).
Proof.
  unfold identityInSync, remoteId, getStoredUserId. cbn.
  rewrite lookup_insert_eq. cbn. intros u'.
  by destruct (String.eqb u ""); intros [= <-].
Qed.

Lemma preserves_setNotionUserId p u q :
  preserves p q -> preserves p (setNotionUserId u q).
Proof.
  intros Hpq. apply (preserves_trans p q _ Hpq). split.
  - intros _. apply setNotionUserId_inSync.
  - apply credentialStored_same; cbn; by rewrite lookup_insert_ne.
Qed.

Lemma preserves_clearStoredSettings p q :
  preserves p q -> preserves p (clearStoredSettings q).
Proof.
  intros Hpq. apply (preserves_trans p q _ Hpq). split.
  - apply identityInSync_same; [done|]. cbn.
    apply credential_cleared_userId.
  - intros _. apply credentialStored_none. cbn. apply credential_cleared.
Qed.

Lemma preserves_clearExtensionStorage p q :
  preserves p q -> preserves p (clearExtensionStorage q).
Proof.
  intros Hpq. apply (preserves_trans p q _ Hpq). split; intros _.
  - apply identityInSync_none. cbn. apply lookup_delete_eq.
  - apply credentialStored_none. cbn.
    rewrite lookup_delete_ne by done. rewrite lookup_delete_ne by done.
    apply lookup_delete_eq.
Qed.

Lemma loadStoredUserId_inSync env q : identityInSync (loadStoredUserId env q).
Proof.
  unfold identityInSync, remoteId, getStoredUserId, loadStoredUserId.
  intros u. destruct (stored_string (sync q !! "userId")) eqn:E; cbn;
    rewrite E; [by intros [= <-] | done].
Qed.

Lemma preserves_generateUserId p env q :
  preserves p q -> preserves p (generateUserId env q).
Proof.
  intros Hpq. apply (preserves_trans p q _ Hpq). split.
  - intros _. apply loadStoredUserId_inSync.
  - unfold generateUserId, loadStoredUserId.
    by destruct (stored_string _); apply credentialStored_same.
Qed.

(** The stored identifier is dropped and a temporary one generated. *)
Lemma preserves_dropped p env q :
  preserves p q ->
  preserves p
    (generateUserId env
       (set_userId None (set_sync (remove_keys ["userId"] (sync q)) q))).
Proof.
  intros Hpq. apply preserves_generateUserId.
  apply (preserves_trans p q _ Hpq). split.
  - intros _. apply identityInSync_none. cbn. apply lookup_delete_eq.
  - apply credentialStored_same; cbn; by rewrite lookup_delete_ne.
Qed.

Lemma preserves_showConnectedState p w q :
  preserves p q -> preserves p (showConnectedState w q).
Proof.
  destruct (showConnectedState_spec w q) as (_ & Hs & Hu).
  by apply preserves_frame.
Qed.

Lemma preserves_showDisconnectedState p q :
  preserves p q -> preserves p (showDisconnectedState q).
Proof.
  intros Hpq. apply (preserves_trans p q _ Hpq).
  destruct (showDisconnectedState_spec q) as (_ & Hs & Hu & _).
  cbv zeta in Hs, Hu. split.
  - apply identityInSync_same; [done|]. rewrite Hs.
    apply credential_cleared_userId.
  - intros _. apply credentialStored_none. rewrite Hs.
    apply credential_cleared.
Qed.

Lemma preserves_forceDisconnectedState p env q :
  preserves p q -> preserves p (forceDisconnectedState env q).
Proof.
  intros Hpq. apply (preserves_trans p q _ Hpq).
  destruct (forceDisconnectedState_spec env q) as (_ & Hs & _).
  cbv zeta in Hs. split; intros _.
  - apply identityInSync_none. rewrite Hs, credential_cleared_userId.
    apply lookup_delete_eq.
  - apply credentialStored_none. rewrite Hs. apply credential_cleared.
Qed.

Create HintDb session.

#[local] Hint Resolve preserves_refl preserves_updateUIState
  preserves_on_ui preserves_showMessage preserves_sendMessage preserves_defer
  preserves_set_backendConnected preserves_set_localStore
  preserves_setNotionUserId preserves_clearStoredSettings
  preserves_clearExtensionStorage preserves_generateUserId preserves_dropped
  preserves_showConnectedState preserves_showDisconnectedState
  preserves_forceDisconnectedState : session.

Lemma preserves_testBackendConnection p env q :
  preserves p q -> preserves p (snd (testBackendConnection env q)).
Proof.
  unfold testBackendConnection. destruct (fetch_root env); cbn;
    auto with session.
Qed.

Lemma preserves_checkNotionConnection p v env q :
  preserves p q -> preserves p (checkNotionConnection v env q).
Proof.
  intros Hpq. unfold checkNotionConnection.
  repeat case_match; auto 10 with session.
Qed.

Lemma preserves_detectRealUser p v env q :
  preserves p q -> preserves p (snd (detectRealUser v env q)).
Proof.
  intros Hpq.
  destruct (detectRealUser_unchanged_or_set v env q)
    as [-> | (u & data & _ & _ & ->)]; cbn; auto with session.
Qed.

Lemma preserves_checkOAuthCompletion p env q :
  preserves p q -> preserves p (snd (checkOAuthCompletion env q)).
Proof.
  intros Hpq. unfold checkOAuthCompletion, processCompletedOAuth.
  repeat case_match; cbn; auto 10 with session.
Qed.

Lemma preserves_checkActiveOAuthSession p env q :
  preserves p q -> preserves p (checkActiveOAuthSession env q).
Proof.
  intros Hpq. unfold checkActiveOAuthSession.
  repeat case_match; auto using preserves_checkOAuthCompletion.
Qed.

Lemma preserves_checkForMissedOAuth p env q :
  preserves p q -> preserves p (snd (checkForMissedOAuth env q)).
Proof.
  intros Hpq. unfold checkForMissedOAuth.
  repeat case_match; cbn -[updateUIState]; auto 10 with session.
Qed.

#[local] Hint Resolve preserves_testBackendConnection
  preserves_checkNotionConnection preserves_detectRealUser
  preserves_checkOAuthCompletion preserves_checkActiveOAuthSession
  preserves_checkForMissedOAuth : session.

Lemma preserves_checkAllConnections p v env q :
  preserves p q -> preserves p (checkAllConnections v env q).
Proof.
  intros Hpq. unfold checkAllConnections.
  pose proof (preserves_testBackendConnection p env q Hpq) as H1.
  destruct (testBackendConnection env q) as [reachable p1]. cbn in H1.
  destruct reachable.
  - destruct v; [done|].
    pose proof (preserves_detectRealUser p Vercel env p1 H1) as H2.
    destruct (detectRealUser Vercel env p1) as [detected p2]. cbn in H2.
    destruct detected; auto with session.
  - destruct v; auto 10 with session.
Qed.

Lemma preserves_restoreSession p v env q :
  preserves p q -> preserves p (snd (restoreSession v env q)).
Proof.
  intros Hpq. unfold restoreSession.
  destruct (worthVerifying (getStoredUserId q)) eqn:Hw; [|done].
  assert (preserves p (set_userId (getStoredUserId q) q)) as H1.
  { apply (preserves_trans p q _ Hpq). split.
    - intros _ u. unfold remoteId. cbn. done.
    - by apply credentialStored_same. }
  destruct (verifyStoredConnection env _); cbn [snd]; [auto with session|].
  destruct v; [|apply preserves_clearStoredSettings];
    apply (preserves_dropped p env _ H1).
Qed.

Lemma preserves_requireAuthentication p q :
  preserves p q -> preserves p (requireAuthentication q).
Proof.
  intros Hpq. unfold requireAuthentication.
  destruct (needsAuthentication _); auto with session.
Qed.

Lemma preserves_linked p v env n q :
  preserves p q -> preserves p (popup (linked v env n q)).
Proof. intros Hpq. cbn. auto with session. Qed.

Lemma preserves_timeoutCheck p limit n announce q :
  preserves p q -> preserves p (popup (timeoutCheck limit n announce q)).
Proof.
  intros Hpq. unfold timeoutCheck.
  destruct (limit <=? n)%nat; [destruct announce|]; cbn; auto with session.
Qed.

Lemma preserves_fallbackCheck p limit v env n q :
  preserves p q -> preserves p (popup (fallbackCheck limit v env n q)).
Proof.
  intros Hpq.
  destruct (fallbackCheck_cases limit v env n q) as [-> | [announce ->]];
    auto using preserves_linked, preserves_timeoutCheck.
Qed.

Lemma preserves_pollTick p limit v env s :
  preserves p (popup s) -> preserves p (popup (pollTick limit v env s)).
Proof.
  intros Hpq. unfold pollTick. destruct (pollInterval s); [|done].
  destruct v.
  - pose proof (preserves_detectRealUser p Local env _ Hpq) as H1.
    destruct (detectRealUser Local env (popup s)) as [[] p1]; cbn in H1;
      [by apply preserves_linked|].
    pose proof (preserves_checkOAuthCompletion p env _ H1) as H2.
    destruct (checkOAuthCompletion env p1) as [? p2]; cbn in H2.
    by apply preserves_fallbackCheck.
  - pose proof (preserves_checkOAuthCompletion p env _ Hpq) as H1.
    destruct (checkOAuthCompletion env (popup s)) as [[] p1]; cbn in H1;
      [by apply preserves_linked|].
    pose proof (preserves_detectRealUser p Vercel env _ H1) as H2.
    destruct (detectRealUser Vercel env p1) as [[] p2]; cbn in H2;
      [by apply preserves_linked|].
    by apply preserves_fallbackCheck.
Qed.

Lemma preserves_loadSettings p q :
  preserves p q -> preserves p (loadSettings q).
Proof.
  intros Hpq. unfold loadSettings. destruct (stored_string _);
    auto with session.
Qed.

Lemma preserves_saveSettings p validate q :
  preserves p q -> preserves p (saveSettings validate q).
Proof.
  intros Hpq. unfold saveSettings. cbv zeta.
  destruct (String.eqb_spec (trim (openaiKey (ui q))) "") as [|Hne];
    [auto with session|].
  destruct (validateOpenAIKey _ _); [|auto with session].
  apply preserves_updateUIState, preserves_showMessage.
  apply (preserves_trans p q _ Hpq). split.
  - apply identityInSync_same; [done|]. cbn.
    rewrite lookup_insert_ne by done. by rewrite lookup_insert_ne.
  - intros _ _. eexists. cbn. rewrite lookup_insert_ne by done.
    rewrite lookup_insert_eq. split; [done|]. by apply trim_nonblank.
Qed.

Lemma preserves_onOpenaiKeyInput p typed q :
  preserves p q -> preserves p (onOpenaiKeyInput typed q).
Proof.
  intros Hpq. unfold onOpenaiKeyInput. cbv zeta.
  apply preserves_updateUIState.
  apply (preserves_trans p q _ Hpq). split.
  - apply identityInSync_same; [done|]. cbn. by rewrite lookup_delete_ne.
  - intros _. apply credentialStored_none. cbn. apply lookup_delete_eq.
Qed.

Lemma preserves_forceReset p q : preserves p (forceReset q).
Proof.
  unfold forceReset. cbv zeta.
  apply preserves_showMessage, preserves_updateUIState. split; intros _.
  - by apply identityInSync_none.
  - by apply credentialStored_none.
Qed.

Lemma preserves_forceReconnect p env q :
  preserves p q -> preserves p (forceReconnect env q).
Proof.
  intros Hpq. unfold forceReconnect. case_bool_decide; auto with session.
Qed.

Lemma preserves_connectToNotion p opened q :
  preserves p q -> preserves p (fst (connectToNotion opened q)).
Proof.
  intros Hpq. unfold connectToNotion. destruct opened; cbn;
    auto 10 with session.
Qed.

Lemma preserves_saveToNotionWithCategory p v env services s u t c q :
  preserves p q ->
  preserves p (after (saveToNotionWithCategory v env services s u t c q)).
Proof.
  intros Hpq. unfold saveToNotionWithCategory.
  destruct (nonempty (userId q)) as [id|]; [|done].
  destruct (fetch_status env id) as [| |statusData]; cbn;
    [done | auto with session |].
  destruct (connected statusData).
  - by destruct (notion_save services _).
  - pose proof (preserves_detectRealUser p v env q Hpq) as H1.
    destruct (detectRealUser v env q) as [[] p1]; cbn in H1.
    + by destruct (notion_save services _).
    + cbn. auto with session.
Qed.

Lemma preserves_summarizeCurrentPage p v env services tab content q :
  preserves p q ->
  preserves p
    match summarizeCurrentPage v env services tab content q with
    | Completed r | Suspended r => r
    end.
Proof.
  intros Hpq. unfold summarizeCurrentPage.
  destruct (nonempty content); [|auto with session].
  destruct (stored_string _); [|auto with session].
  destruct (summarizeAndCategorizeWithBackend _ _ _ _);
    [auto 10 with session|].
  destruct (chooseCategory _ _) as [chosen|]; [|auto with session].
  match goal with
  | |- context [saveToNotionWithCategory ?v ?e ?sv ?a ?b ?c ?d ?r] =>
      pose proof (preserves_saveToNotionWithCategory p v e sv a b c d r) as H1
  end.
  destruct (result _); auto 10 with session.
Qed.

Lemma preserves_init p env q : preserves p q -> preserves p (fst (init env q)).
Proof.
  intros Hpq. unfold init, bindEvents.
  match goal with
  | |- context [testBackendConnection env ?r] =>
      assert (preserves p r) as H0
        by auto using preserves_loadSettings with session;
      pose proof (preserves_testBackendConnection p env r H0) as H1;
      destruct (testBackendConnection env r) as [reachable p1]
  end.
  cbn in H1. destruct reachable; [|cbn; auto with session].
  match goal with
  | |- context [restoreSession Local env ?r] =>
      assert (preserves p r) as H2 by auto with session;
      pose proof (preserves_restoreSession p Local env r H2) as H3;
      destruct (restoreSession Local env r) as [restored p3]
  end.
  cbn in H3. destruct restored; [done|]. cbn.
  auto using preserves_requireAuthentication with session.
Qed.


Lemma preserves_handle p env a q :
  preserves p q -> preserves p (handle env a q).
Proof.
  intros Hpq. destruct a; cbn [handle];
    auto using preserves_init, preserves_connectToNotion,
      preserves_forceReconnect, preserves_summarizeCurrentPage,
      preserves_saveSettings, preserves_onOpenaiKeyInput,
      preserves_checkAllConnections, preserves_forceReset,
      preserves_testBackendConnection, preserves_checkActiveOAuthSession,
      preserves_checkNotionConnection.
  by apply preserves_pollTick.
Qed.

Lemma preserves_session events p q :
  preserves p q -> preserves p (session events q).
Proof.
  revert q. unfold session.
  induction events as [|[env a] events IH]; intros q Hpq; [done|].
  cbn. by apply IH, preserves_handle.
Qed.

(** X27. The stored credential stays well formed through any session of
    the localhost popup: if the validity flag, when set, comes with a stored
    key that is not blank, then so it does after any sequence of handlers in
    any environments. *)
Theorem credential_invariant (events : list (Env * popupEvent))
    (p : Popup) :
  credentialStored p -> credentialStored (session events p).
Proof. apply preserves_session, preserves_refl. Qed.


Lemma credential_invariant_witness :
  let events :=
    [(Sample.discovered, Open); (Sample.discovered, TypeKey "sk-2");
     (Sample.statusFails, DeferredCheck)] in
  credentialStored Sample.linkedPopup
  /\ credentialStored (session events Sample.linkedPopup).
Proof.
  cbv zeta.
  assert (credentialStored Sample.linkedPopup) as H.
  { intros _. exists "sk-test". split; [|reflexivity].
    vm_compute. reflexivity. }
  split; [exact H|]. exact (credential_invariant _ _ H).
Defined.

(** ** A blocked authorisation window *)

(** X29. When the authorisation window cannot be opened, [connectToNotion]
    resets the connect button, shows an error and starts no poller, but the
    worker has already been told that an authorisation started: once the
    message is delivered the worker is watching, and its next tick records
    as the completed user the first user that the backend lists as
    connected. *)
Theorem blocked_window_leaves_worker_watching (p : Popup) (now' : Z)
    (s : Worker.State) :
  let r := connectToNotion false p in
  let s' := deliver (drop (length (outbox p)) (outbox (fst r))) now' s in
  snd r = false
  /\ connectNotion (ui (fst r)) = resetButton (connectNotion (ui p))
  /\ banner (ui (fst r)) = Some (error, "Failed to connect to Notion")
  /\ userId (fst r) = userId p /\ sync (fst r) = sync p
  /\ Worker.isInProgress (Worker.oauthState s') = true
  /\ Worker.oauthCheckInterval s' = true
  /\ forall env list u,
       Worker.firstConnected env list = Some u -> u <> "" ->
       Worker.completionData
         (Worker.oauthState (Worker.tick Local env (HttpOk list) s'))
       = Some {| Worker.status := "success"; Worker.userId := u;
                 Worker.timestamp := now env |}.
Proof.
  cbv zeta. unfold connectToNotion. cbn [fst snd].
  split; [done|]. split.
  { cbn. unfold resetButton. cbn. f_equal. set_solver. }
  split; [done|]. split; [done|]. split; [done|].
  cbn. rewrite drop_app_length. cbn.
  split; [done|]. split; [done|].
  intros env list u Hu Hne. unfold Worker.tick, Worker.checkOAuthCompletion.
  cbn. rewrite Hu. cbn.
  by destruct (String.eqb_spec u "").
Qed.
